(** * Prosograph validator: semantic passes of [tools/validator.py]

    A shallow embedding of the semantic validation engine of the Prosograph
    validator (class [ValidationResult], the six rule passes of
    [ProsographValidator] and its profile detector), followed by the
    properties the specification states about them.

    The validator walks a dynamically typed tree (the result of
    [json.loads] / [yaml.safe_load]).  The embedding keeps that tree
    untyped and gives every Python operation the validator applies to it
    its dynamic behaviour, including the exception it raises on an operand
    of the wrong type. *)

From Stdlib Require Import List String Ascii Bool ZArith QArith Lia.
From Stdlib Require Import DecimalString.
Import ListNotations.

Set Warnings "-register-all".

Local Open Scope nat_scope.
Local Open Scope string_scope.
Local Open Scope list_scope.

(** ** The generic document value *)

(** A Python [float]: a finite value (kept as the rational it denotes), the
    two infinities and NaN.  The validator itself builds [float('inf')]. *)
Inductive pyfloat : Type :=
| FFin (q : Q)
| FInf
| FNegInf
| FNan.

(** The tree both loaders produce: [None], [bool], [int], [float], [str],
    [list] and [dict] with string keys.  A [dict] is an association list in
    insertion order; the first binding of a key is the one a lookup sees. *)
Inductive value : Type :=
| VNone
| VBool (b : bool)
| VInt (z : Z)
| VFloat (f : pyfloat)
| VStr (s : string)
| VList (l : list value)
| VDict (d : list (string * value)).

Definition dict : Type := list (string * value).

(** Exceptions the passes can raise on an ill-typed tree. *)
Inductive exn : Type :=
| TypeError
| AttributeError
| KeyError.

Inductive res (A : Type) : Type :=
| Ok (a : A)
| Raise (e : exn).
Arguments Ok {A} a.
Arguments Raise {A} e.

(** ** Python operations used by the validator *)

Fixpoint dict_lookup (k : string) (d : dict) : option value :=
  match d with
  | [] => None
  | (k', v) :: r => if String.eqb k k' then Some v else dict_lookup k r
  end.

Definition dict_has (k : string) (d : dict) : bool :=
  match dict_lookup k d with Some _ => true | None => false end.

(** [d.get(k, default)] on a dict. *)
Definition dict_get (d : dict) (k : string) (default : value) : value :=
  match dict_lookup k d with Some v => v | None => default end.

(** [d[k] = v]: an existing key keeps its place, a new one goes last. *)
Fixpoint dict_set (k : string) (v : value) (d : dict) : dict :=
  match d with
  | [] => [(k, v)]
  | (k', v') :: r =>
      if String.eqb k k' then (k, v) :: r else (k', v') :: dict_set k v r
  end.

(** Keys of a dict in insertion order, each once. *)
Fixpoint dict_keys (d : dict) : list string :=
  match d with
  | [] => []
  | (k, _) :: r => k :: filter (fun k' => negb (String.eqb k k')) (dict_keys r)
  end.

(** [v.get(k, default)]: only a dict has the method. *)
Definition py_get (v : value) (k : string) (default : value) : res value :=
  match v with
  | VDict d => Ok (dict_get d k default)
  | _ => Raise AttributeError
  end.

(** [s.startswith(p)] on two strings. *)
Fixpoint starts_with (p s : string) : bool :=
  match p with
  | EmptyString => true
  | String a p' =>
      match s with
      | EmptyString => false
      | String b s' => Ascii.eqb a b && starts_with p' s'
      end
  end.

Arguments starts_with : simpl nomatch.

(** [sub in s] on two strings. *)
Fixpoint is_substring (sub s : string) : bool :=
  starts_with sub s ||
  match s with
  | EmptyString => false
  | String _ r => is_substring sub r
  end.

Definition is_str (k : string) (v : value) : bool :=
  match v with VStr s => String.eqb k s | _ => false end.

(** [k in v] for a string [k]: key test on a dict, substring test on a
    string, membership on a list (a string equals only a string); the other
    values are not iterable. *)
Definition py_contains (k : string) (v : value) : res bool :=
  match v with
  | VDict d => Ok (dict_has k d)
  | VStr s => Ok (is_substring k s)
  | VList l => Ok (existsb (is_str k) l)
  | _ => Raise TypeError
  end.

(** [v[k]] for a string [k]. *)
Definition py_getitem (v : value) (k : string) : res value :=
  match v with
  | VDict d => match dict_lookup k d with Some x => Ok x | None => Raise KeyError end
  | _ => Raise TypeError
  end.

(** A [str] is held as its UTF-8 bytes.  A byte [10xxxxxx] continues the
    character begun before it. *)
Definition is_continuation (c : ascii) : bool :=
  let n := nat_of_ascii c in (128 <=? n)%nat && (n <? 192)%nat.

(** The characters of a text, each a text of its own: a lead byte with the
    continuation bytes that follow it. *)
Fixpoint code_points (s : string) : list string :=
  match s with
  | EmptyString => []
  | String c r =>
      let rest := code_points r in
      match r, rest with
      | String c' _, k :: tl =>
          if is_continuation c' then String c k :: tl
          else String c EmptyString :: rest
      | _, _ => String c EmptyString :: rest
      end
  end.

(** What a [for] loop over a [str] visits: its characters. *)
Definition chars (s : string) : list value := map VStr (code_points s).

(** The sequence a [for] loop runs over. *)
Definition py_iter (v : value) : res (list value) :=
  match v with
  | VList l => Ok l
  | VStr s => Ok (chars s)
  | VDict d => Ok (map VStr (dict_keys d))
  | _ => Raise TypeError
  end.

Definition is_none (v : value) : bool :=
  match v with VNone => true | _ => false end.

Definition is_dict (v : value) : bool :=
  match v with VDict _ => true | _ => false end.

(** Numbers, for comparison: [bool] is a subtype of [int]. *)
Definition as_num (v : value) : option pyfloat :=
  match v with
  | VBool b => Some (FFin (if b then 1 else 0))
  | VInt z => Some (FFin (inject_Z z))
  | VFloat f => Some f
  | _ => None
  end.

Definition float_lt (a b : pyfloat) : bool :=
  match a, b with
  | FNan, _ | _, FNan => false
  | FFin x, FFin y => negb (Qle_bool y x)
  | FNegInf, FNegInf => false
  | FNegInf, _ => true
  | _, FInf => match a with FInf => false | _ => true end
  | _, _ => false
  end.

Definition float_le (a b : pyfloat) : bool :=
  match a, b with
  | FNan, _ | _, FNan => false
  | FFin x, FFin y => Qle_bool x y
  | FNegInf, _ => true
  | _, FInf => true
  | _, _ => false
  end.

Definition float_eq (a b : pyfloat) : bool :=
  match a, b with
  | FFin x, FFin y => Qeq_bool x y
  | FInf, FInf => true
  | FNegInf, FNegInf => true
  | _, _ => false
  end.

(** [a < b], [a <= b], [a > b].  Wherever the validator compares, one
    operand is a number (a literal, or a value an earlier comparison
    accepted), so the comparison either is numeric or raises [TypeError];
    the ordering of two strings or two lists is never reached. *)
Definition py_cmp (op : pyfloat -> pyfloat -> bool) (a b : value) : res bool :=
  match as_num a, as_num b with
  | Some x, Some y => Ok (op x y)
  | _, _ => Raise TypeError
  end.

Definition py_lt : value -> value -> res bool := py_cmp float_lt.
Definition py_le : value -> value -> res bool := py_cmp float_le.
Definition py_gt (a b : value) : res bool := py_cmp float_lt b a.

(** Truth value of a tree node. *)
Definition truthy (v : value) : bool :=
  match v with
  | VNone => false
  | VBool b => b
  | VInt z => negb (Z.eqb z 0)
  | VFloat f => negb (float_eq f (FFin 0))
  | VStr s => negb (String.eqb s "")
  | VList l => match l with [] => false | _ => true end
  | VDict d => match d with [] => false | _ => true end
  end.

(** [s.startswith(p)]: a [str] method. *)
Definition py_startswith (v : value) (p : string) : res bool :=
  match v with
  | VStr s => Ok (starts_with p s)
  | _ => Raise AttributeError
  end.

(** [s.split(sep)[0]] for a one-character separator: the text before its
    first occurrence. *)
Fixpoint split_first (sep : ascii) (s : string) : string :=
  match s with
  | EmptyString => EmptyString
  | String c r =>
      if Ascii.eqb c sep then EmptyString else String c (split_first sep r)
  end.

Definition lower_ascii (c : ascii) : ascii :=
  let n := nat_of_ascii c in
  if (65 <=? n)%nat && (n <=? 90)%nat then ascii_of_nat (n + 32) else c.

(** [s.lower()], on the ASCII letters: no other character lowercases to a
    letter of a tonal tag. *)
Fixpoint lower (s : string) : string :=
  match s with
  | EmptyString => EmptyString
  | String c r => String (lower_ascii c) (lower r)
  end.

(** Hashable values: what a [set] accepts. *)
Definition hashable (v : value) : bool :=
  match v with
  | VList _ | VDict _ => false
  | _ => true
  end.

(** [a == b] on hashable values: numbers compare by value across [bool],
    [int] and [float]; NaN equals nothing.  A [set] also finds a NaN that
    is the very same object, which a tree of values does not record: what
    is proved of the sets below is stated for string IDs. *)
Definition py_eq (a b : value) : bool :=
  match a, b with
  | VNone, VNone => true
  | VStr s, VStr t => String.eqb s t
  | _, _ =>
      match as_num a, as_num b with
      | Some x, Some y => float_eq x y
      | _, _ => false
      end
  end.

(** A [set], as the list of its members. *)
Definition pyset : Type := list value.

Definition set_mem (x : value) (s : pyset) : res bool :=
  if hashable x then Ok (existsb (py_eq x) s) else Raise TypeError.

Definition set_add (x : value) (s : pyset) : res pyset :=
  if hashable x then Ok (if existsb (py_eq x) s then s else x :: s)
  else Raise TypeError.

Definition string_of_Z (z : Z) : string :=
  NilZero.string_of_int (Z.to_int z).

Definition string_of_nat (n : nat) : string :=
  NilZero.string_of_uint (Nat.to_uint n).

(** ** The result accumulator: class [ValidationResult] *)

Record ValidationResult : Type := mkResult {
  errors : list string;
  warnings : list string;
  info : list string;
  profile : option string
}.

(** [ValidationResult.__init__] *)
Definition new_result : ValidationResult :=
  {| errors := []; warnings := []; info := []; profile := None |}.

Module ValidationResult.

Definition add_error (msg : string) (r : ValidationResult) : ValidationResult :=
  {| errors := errors r ++ [msg]; warnings := warnings r;
     info := info r; profile := profile r |}.

Definition add_warning (msg : string) (r : ValidationResult) : ValidationResult :=
  {| errors := errors r; warnings := warnings r ++ [msg];
     info := info r; profile := profile r |}.

Definition add_info (msg : string) (r : ValidationResult) : ValidationResult :=
  {| errors := errors r; warnings := warnings r;
     info := info r ++ [msg]; profile := profile r |}.

Definition set_profile (p : string) (r : ValidationResult) : ValidationResult :=
  {| errors := errors r; warnings := warnings r;
     info := info r; profile := Some p |}.

Definition is_valid (r : ValidationResult) : bool :=
  Nat.eqb (List.length (errors r)) 0.

End ValidationResult.

(** ** Effects of a pass

    A pass touches its [result] argument only by calling [add_error],
    [add_warning], [add_info] or by assigning [profile]; it never reads it.
    A pass is therefore the sequence of those calls, in program order,
    together with its outcome: normal completion or the exception that cut
    it short (the calls made before the exception have happened). *)

Inductive call : Type :=
| AddError (msg : string)
| AddWarning (msg : string)
| AddInfo (msg : string)
| SetProfile (p : string).

Definition M (A : Type) : Type := (res A * list call)%type.

Definition ret {A : Type} (a : A) : M A := (Ok a, []).

Definition bind {A B : Type} (m : M A) (f : A -> M B) : M B :=
  match m with
  | (Ok a, cs) => let (o, cs') := f a in (o, cs ++ cs')
  | (Raise e, cs) => (Raise e, cs)
  end.

Arguments bind : simpl never.

Definition lift {A : Type} (r : res A) : M A := (r, []).

Definition emit (c : call) : M unit := (Ok tt, [c]).

Definition add_error (msg : string) : M unit := emit (AddError msg).
Definition add_warning (msg : string) : M unit := emit (AddWarning msg).
Definition add_info (msg : string) : M unit := emit (AddInfo msg).
Definition set_profile (p : string) : M unit := emit (SetProfile p).

Declare Scope pass_scope.
Delimit Scope pass_scope with pass.
Notation "x <- m ;; k" := (bind m (fun x => k))
  (at level 61, m at next level, right associativity) : pass_scope.
Notation "m ;; k" := (bind m (fun _ => k))
  (at level 61, right associativity) : pass_scope.
Local Open Scope pass_scope.

Definition when (b : bool) (m : M unit) : M unit :=
  if b then m else ret tt.

(** [for x in l: body(x)] *)
Fixpoint for_each {A : Type} (l : list A) (body : A -> M unit) : M unit :=
  match l with
  | [] => ret tt
  | x :: r => body x ;; for_each r body
  end.

(** A loop that updates local variables [s]. *)
Fixpoint for_fold {A S : Type} (l : list A) (s : S) (body : S -> A -> M S) : M S :=
  match l with
  | [] => ret s
  | x :: r => s' <- body s x ;; for_fold r s' body
  end.

Definition outcome {A : Type} (m : M A) : res A := fst m.
Definition calls {A : Type} (m : M A) : list call := snd m.

(** The calls, performed on an accumulator. *)
Definition perform (c : call) (r : ValidationResult) : ValidationResult :=
  match c with
  | AddError msg => ValidationResult.add_error msg r
  | AddWarning msg => ValidationResult.add_warning msg r
  | AddInfo msg => ValidationResult.add_info msg r
  | SetProfile p => ValidationResult.set_profile p r
  end.

Definition perform_all (cs : list call) (r : ValidationResult)
  : ValidationResult :=
  fold_left (fun acc c => perform c acc) cs r.

Definition run {A : Type} (m : M A) (r : ValidationResult) : ValidationResult :=
  perform_all (calls m) r.

(** The messages of each kind among a sequence of calls. *)
Definition error_msgs (cs : list call) : list string :=
  flat_map (fun c => match c with AddError m => [m] | _ => [] end) cs.

Definition warning_msgs (cs : list call) : list string :=
  flat_map (fun c => match c with AddWarning m => [m] | _ => [] end) cs.

Definition info_msgs (cs : list call) : list string :=
  flat_map (fun c => match c with AddInfo m => [m] | _ => [] end) cs.

(** [all_calls P m]: every call the computation makes satisfies [P],
    whatever the tree it runs on and whether or not it raises. *)
Definition all_calls {A : Type} (P : call -> bool) (m : M A) : Prop :=
  forallb P (calls m) = true.

(** ** The passes of [ProsographValidator] *)

Section Validator.

(** [repr] of a finite float and of a container: the Python built-in that
    [str()] and f-strings fall back on for those values. *)
Variable py_repr : value -> string.

(** [str(v)], as an f-string interpolates it. *)
Definition py_str (v : value) : string :=
  match v with
  | VStr s => s
  | VInt z => string_of_Z z
  | VNone => "None"
  | VBool true => "True"
  | VBool false => "False"
  | VFloat FInf => "inf"
  | VFloat FNegInf => "-inf"
  | VFloat FNan => "nan"
  | _ => py_repr v
  end.

(** *** [_validate_required_fields] *)

(** Lines 146-149: the version gate. *)
Definition check_version (doc : dict) : M unit :=
  if negb (dict_has "prosograph" doc) then
    add_error "Missing required field: prosograph (version string)"
  else
    v <- lift (py_getitem (VDict doc) "prosograph") ;;
    b <- lift (py_startswith v "1.") ;;
    when (negb b)
      (add_error ("Unsupported version: " ++ py_str v ++ " (expected 1.x)")).

(** Lines 151-160. *)
Definition check_audio (doc : dict) : M unit :=
  if negb (dict_has "audio" doc) then
    add_error "Missing required field: audio"
  else
    audio <- lift (py_getitem (VDict doc) "audio") ;;
    has_uri <- lift (py_contains "uri" audio) ;;
    when (negb has_uri) (add_error "Missing required field: audio.uri") ;;
    has_duration <- lift (py_contains "duration_s" audio) ;;
    if negb has_duration then
      add_error "Missing required field: audio.duration_s"
    else
      d <- lift (py_getitem audio "duration_s") ;;
      b <- lift (py_le d (VInt 0)) ;;
      when b (add_error "audio.duration_s must be > 0").

(** Lines 162-163. *)
Definition check_segments (doc : dict) : M unit :=
  when (negb (dict_has "segments" doc))
    (add_error "Missing required field: segments").

Definition _validate_required_fields (doc : dict) : M unit :=
  check_version doc ;;
  check_audio doc ;;
  check_segments doc.

(** *** [_validate_temporal_constraints] *)

(** Lines 189-203: body of the loop over the tokens of a segment whose
    bounds are [t0] and [t1]. *)
Definition temporal_token (t0 t1 tok : value) : M unit :=
  tok_id <- lift (py_get tok "id" (VStr "<unknown>")) ;;
  tok_t0 <- lift (py_get tok "t0" VNone) ;;
  tok_t1 <- lift (py_get tok "t1" VNone) ;;
  if is_none tok_t0 || is_none tok_t1 then
    add_error ("Token " ++ py_str tok_id ++ ": missing t0 or t1")
  else
    b0 <- lift (py_lt tok_t0 t0) ;;
    when b0 (add_error ("Token " ++ py_str tok_id ++ ": t0 (" ++ py_str tok_t0
                        ++ ") < segment t0 (" ++ py_str t0 ++ ")")) ;;
    b1 <- lift (py_gt tok_t1 t1) ;;
    when b1 (add_error ("Token " ++ py_str tok_id ++ ": t1 (" ++ py_str tok_t1
                        ++ ") > segment t1 (" ++ py_str t1 ++ ")")) ;;
    b2 <- lift (py_le tok_t1 tok_t0) ;;
    when b2 (add_error ("Token " ++ py_str tok_id ++ ": t1 (" ++ py_str tok_t1
                        ++ ") must be > t0 (" ++ py_str tok_t0 ++ ")")).

(** Lines 170-203: body of the loop over the segments. *)
Definition temporal_segment (duration seg : value) : M unit :=
  seg_id <- lift (py_get seg "id" (VStr "<unknown>")) ;;
  t0 <- lift (py_get seg "t0" VNone) ;;
  t1 <- lift (py_get seg "t1" VNone) ;;
  if is_none t0 then
    add_error ("Segment " ++ py_str seg_id ++ ": missing t0")
  else if is_none t1 then
    add_error ("Segment " ++ py_str seg_id ++ ": missing t1")
  else
    b0 <- lift (py_lt t0 (VInt 0)) ;;
    when b0 (add_error ("Segment " ++ py_str seg_id ++ ": t0 (" ++ py_str t0
                        ++ ") < 0")) ;;
    b1 <- lift (py_le t1 t0) ;;
    when b1 (add_error ("Segment " ++ py_str seg_id ++ ": t1 (" ++ py_str t1
                        ++ ") must be > t0 (" ++ py_str t0 ++ ")")) ;;
    b2 <- lift (py_gt t1 duration) ;;
    when b2 (add_error ("Segment " ++ py_str seg_id ++ ": t1 (" ++ py_str t1
                        ++ ") > duration (" ++ py_str duration ++ ")")) ;;
    tokens <- lift (py_get seg "tokens" (VList [])) ;;
    toks <- lift (py_iter tokens) ;;
    for_each toks (temporal_token t0 t1).

Definition _validate_temporal_constraints (doc : dict) : M unit :=
  duration <- lift (py_get (dict_get doc "audio" (VDict [])) "duration_s"
                           (VFloat FInf)) ;;
  segs <- lift (py_iter (dict_get doc "segments" (VList []))) ;;
  for_each segs (temporal_segment duration).

(** *** [_validate_id_uniqueness] *)

(** Lines 220-226: body of the token loop; [token_ids] is the local set. *)
Definition uniqueness_token (token_ids : pyset) (tok : value) : M pyset :=
  tok_id <- lift (py_get tok "id" VNone) ;;
  if truthy tok_id then
    seen <- lift (set_mem tok_id token_ids) ;;
    when seen (add_error ("Duplicate token ID: " ++ py_str tok_id)) ;;
    lift (set_add tok_id token_ids)
  else
    add_error "Token missing required 'id' field" ;;
    ret token_ids.

(** Lines 211-226: body of the segment loop; the two local sets are the
    loop's state. *)
Definition uniqueness_segment (ids : pyset * pyset) (seg : value)
  : M (pyset * pyset) :=
  let (segment_ids, token_ids) := ids in
  seg_id <- lift (py_get seg "id" VNone) ;;
  segment_ids' <-
    (if truthy seg_id then
       seen <- lift (set_mem seg_id segment_ids) ;;
       when seen (add_error ("Duplicate segment ID: " ++ py_str seg_id)) ;;
       lift (set_add seg_id segment_ids)
     else
       add_error "Segment missing required 'id' field" ;;
       ret segment_ids) ;;
  tokens <- lift (py_get seg "tokens" (VList [])) ;;
  toks <- lift (py_iter tokens) ;;
  token_ids' <- for_fold toks token_ids uniqueness_token ;;
  ret (segment_ids', token_ids').

Definition _validate_id_uniqueness (doc : dict) : M unit :=
  segs <- lift (py_iter (dict_get doc "segments" (VList []))) ;;
  let segment_ids : pyset := [] in
  let token_ids : pyset := [] in
  for_fold segs (segment_ids, token_ids) uniqueness_segment ;;
  ret tt.

(** *** [_validate_references] *)

(** Lines 232-234: collecting the [id] of one token. *)
Definition collect_token_id (token_ids : pyset) (tok : value) : M pyset :=
  has_id <- lift (py_contains "id" tok) ;;
  if has_id then
    tok_id <- lift (py_getitem tok "id") ;;
    lift (set_add tok_id token_ids)
  else ret token_ids.

(** Lines 231-234. *)
Definition collect_segment_ids (token_ids : pyset) (seg : value) : M pyset :=
  tokens <- lift (py_get seg "tokens" (VList [])) ;;
  toks <- lift (py_iter tokens) ;;
  for_fold toks token_ids collect_token_id.

(** Lines 242-244. *)
Definition check_reference (token_ids : pyset) (ref_id : value) : M unit :=
  found <- lift (set_mem ref_id token_ids) ;;
  when (negb found)
    (add_error ("Emphasis references non-existent token: " ++ py_str ref_id)).

(** Lines 240-244: one entry of an [emphasis] sequence. *)
Definition check_emphasis (token_ids : pyset) (emphasis : value) : M unit :=
  span <- lift (py_get emphasis "span" VNone) ;;
  if is_dict span then
    has_ids <- lift (py_contains "token_ids" span) ;;
    if has_ids then
      ids <- lift (py_getitem span "token_ids") ;;
      refs <- lift (py_iter ids) ;;
      for_each refs (check_reference token_ids)
    else ret tt
  else ret tt.

(** Lines 238-244. *)
Definition references_segment (token_ids : pyset) (seg : value) : M unit :=
  tracks <- lift (py_get seg "tracks" (VDict [])) ;;
  delivery <- lift (py_get tracks "delivery" (VDict [])) ;;
  emphasis <- lift (py_get delivery "emphasis" (VList [])) ;;
  entries <- lift (py_iter emphasis) ;;
  for_each entries (check_emphasis token_ids).

Definition _validate_references (doc : dict) : M unit :=
  segs <- lift (py_iter (dict_get doc "segments" (VList []))) ;;
  let no_ids : pyset := [] in
  token_ids <- for_fold segs no_ids collect_segment_ids ;;
  segs' <- lift (py_iter (dict_get doc "segments" (VList []))) ;;
  for_each segs' (references_segment token_ids).

(** *** [_validate_ranges] *)

Definition check_unit (v : value) (path : string) : M unit :=
  if negb (is_none v) then
    below <- lift (py_lt v (VInt 0)) ;;
    out <- (if below then ret true else lift (py_gt v (VInt 1))) ;;
    when out (add_error (path ++ ": value " ++ py_str v ++ " not in [0,1]"))
  else ret tt.

Definition check_signed_unit (v : value) (path : string) : M unit :=
  if negb (is_none v) then
    below <- lift (py_lt v (VInt (-1))) ;;
    out <- (if below then ret true else lift (py_gt v (VInt 1))) ;;
    when out (add_error (path ++ ": value " ++ py_str v ++ " not in [-1,1]"))
  else ret tt.

Definition check_emotion (emotion : value) (path : string) : M unit :=
  vad <- lift (py_get emotion "vad" (VDict [])) ;;
  valence <- lift (py_get vad "valence" VNone) ;;
  check_signed_unit valence (path ++ ".vad.valence") ;;
  arousal <- lift (py_get vad "arousal" VNone) ;;
  check_unit arousal (path ++ ".vad.arousal") ;;
  dominance <- lift (py_get vad "dominance" VNone) ;;
  check_unit dominance (path ++ ".vad.dominance") ;;
  confidence <- lift (py_get emotion "confidence" VNone) ;;
  check_unit confidence (path ++ ".confidence").

Definition voice_quality_keys : list string :=
  ["creak"; "breathiness"; "nasal"; "tension"; "smile"].

Definition check_voice_quality (vq : value) (path : string) : M unit :=
  for_each voice_quality_keys
    (fun key => v <- lift (py_get vq key VNone) ;;
                check_unit v (path ++ "." ++ key)).

(** [if key in container: check(container[key], path)] *)
Definition check_if_present (key : string) (container : value)
    (check : value -> M unit) : M unit :=
  present <- lift (py_contains key container) ;;
  if present then
    x <- lift (py_getitem container key) ;;
    check x
  else ret tt.

(** Lines 289-297: token number [j] of a segment. *)
Definition ranges_token (jt : nat * value) : M unit :=
  let (j, tok) := jt in
  tok_id <- lift (py_get tok "id" (VStr ("token[" ++ string_of_nat j ++ "]"))) ;;
  tok_tracks <- lift (py_get tok "tracks" (VDict [])) ;;
  check_if_present "emotion" tok_tracks
    (fun e => check_emotion e (py_str tok_id ++ ".tracks.emotion")) ;;
  check_if_present "voice_quality" tok_tracks
    (fun q => check_voice_quality q (py_str tok_id ++ ".tracks.voice_quality")) ;;
  check_if_present "tone" tok_tracks
    (fun t => c <- lift (py_get t "confidence" VNone) ;;
              check_unit c (py_str tok_id ++ ".tracks.tone.confidence")).

Definition enumerate (l : list value) : list (nat * value) :=
  combine (seq 0 (List.length l)) l.

(** Lines 277-297: segment number [i]. *)
Definition ranges_segment (ie : nat * value) : M unit :=
  let (i, seg) := ie in
  seg_id <- lift (py_get seg "id" (VStr ("segment[" ++ string_of_nat i ++ "]"))) ;;
  tracks <- lift (py_get seg "tracks" (VDict [])) ;;
  check_if_present "emotion" tracks
    (fun e => check_emotion e (py_str seg_id ++ ".tracks.emotion")) ;;
  check_if_present "voice_quality" tracks
    (fun q => check_voice_quality q (py_str seg_id ++ ".tracks.voice_quality")) ;;
  check_if_present "delivery" tracks
    (fun d => c <- lift (py_get d "clarity" VNone) ;;
              check_unit c (py_str seg_id ++ ".tracks.delivery.clarity")) ;;
  tokens <- lift (py_get seg "tokens" (VList [])) ;;
  toks <- lift (py_iter tokens) ;;
  for_each (enumerate toks) ranges_token.

Definition _validate_ranges (doc : dict) : M unit :=
  defaults_style <- lift (py_get (dict_get doc "defaults" (VDict [])) "style"
                                 (VDict [])) ;;
  check_if_present "emotion" defaults_style
    (fun e => check_emotion e "defaults.style.emotion") ;;
  check_if_present "voice_quality" defaults_style
    (fun q => check_voice_quality q "defaults.style.voice_quality") ;;
  segs <- lift (py_iter (dict_get doc "segments" (VList []))) ;;
  for_each (enumerate segs) ranges_segment.

(** *** [_validate_tonal_requirements] *)

Definition tonal_langs : list string := ["th"; "zh"; "vi"; "yue"; "cmn"].

(** [lang.split('-')[0].lower() if lang else ''] *)
Definition lang_prefix (lang : value) : res string :=
  if truthy lang then
    match lang with
    | VStr s => Ok (lower (split_first "-" s))
    | _ => Raise AttributeError
    end
  else Ok "".

Definition in_tonal_langs (p : string) : bool :=
  existsb (String.eqb p) tonal_langs.

Definition lexical_kinds : list string := ["word"; "morpheme"; "char"].

(** Lines 319-326: one token of a tonal segment. *)
Definition tonal_token (tok : value) : M unit :=
  tok_id <- lift (py_get tok "id" (VStr "<unknown>")) ;;
  kind <- lift (py_get tok "kind" (VStr "word")) ;;
  if existsb (fun k => is_str k kind) lexical_kinds then
    tok_tracks <- lift (py_get tok "tracks" (VDict [])) ;;
    tok_tone <- lift (py_get tok_tracks "tone" (VDict [])) ;;
    has_lexical <- lift (py_contains "lexical" tok_tone) ;;
    when (negb has_lexical)
      (add_warning ("Token " ++ py_str tok_id
                    ++ ": tonal language but no tone.lexical"))
  else ret tt.

(** Lines 306-326: one segment. *)
Definition tonal_segment (default_lang seg : value) : M unit :=
  seg_id <- lift (py_get seg "id" (VStr "<unknown>")) ;;
  lang <- lift (py_get seg "language" default_lang) ;;
  prefix <- lift (lang_prefix lang) ;;
  if in_tonal_langs prefix then
    tracks <- lift (py_get seg "tracks" (VDict [])) ;;
    tone <- lift (py_get tracks "tone" (VDict [])) ;;
    has_system <- lift (py_contains "system" tone) ;;
    when (negb has_system)
      (add_warning ("Segment " ++ py_str seg_id ++ ": tonal language ("
                    ++ py_str lang ++ ") but no tone.system declared")) ;;
    tokens <- lift (py_get seg "tokens" (VList [])) ;;
    toks <- lift (py_iter tokens) ;;
    for_each toks tonal_token
  else ret tt.

Definition _validate_tonal_requirements (doc : dict) : M unit :=
  default_lang <- lift (py_get (dict_get doc "defaults" (VDict [])) "language"
                               (VStr "")) ;;
  segs <- lift (py_iter (dict_get doc "segments" (VList []))) ;;
  for_each segs (tonal_segment default_lang).

(** *** [_detect_profile] *)

Definition expressive_keys : list string :=
  ["emotion"; "prosody"; "delivery"; "voice_quality"].

(** [any(k in v for k in ks)] *)
Fixpoint any_in (ks : list string) (v : value) : res bool :=
  match ks with
  | [] => Ok false
  | k :: r =>
      match py_contains k v with
      | Ok true => Ok true
      | Ok false => any_in r v
      | Raise e => Raise e
      end
  end.

(** Lines 337-349: one segment; the loop's state is the pair
    [(has_expressive, has_tonal)]. *)
Definition profile_segment (default_lang : value) (flags : bool * bool)
    (seg : value) : M (bool * bool) :=
  let (has_expressive, has_tonal) := flags in
  tracks <- lift (py_get seg "tracks" (VDict [])) ;;
  expressive <- lift (any_in expressive_keys tracks) ;;
  let has_expressive' := if expressive then true else has_expressive in
  lang <- lift (py_get seg "language" default_lang) ;;
  prefix <- lift (lang_prefix lang) ;;
  if in_tonal_langs prefix then
    has_tone <- lift (py_contains "tone" tracks) ;;
    if has_tone then
      tone <- lift (py_get tracks "tone" (VDict [])) ;;
      has_system <- lift (py_contains "system" tone) ;;
      ret (has_expressive', if has_system then true else has_tonal)
    else ret (has_expressive', has_tonal)
  else ret (has_expressive', has_tonal).

Definition PG_Tonal : string := "PG-Tonal (includes PG-Expressive, PG-Core)".
Definition PG_Expressive : string := "PG-Expressive (includes PG-Core)".
Definition PG_Core : string := "PG-Core".

(** Lines 330-349: the scan that computes the two flags. *)
Definition scan_flags (doc : dict) : M (bool * bool) :=
  default_lang <- lift (py_get (dict_get doc "defaults" (VDict [])) "language"
                               (VStr "")) ;;
  segs <- lift (py_iter (dict_get doc "segments" (VList []))) ;;
  for_fold segs (false, false) (profile_segment default_lang).

(** Lines 352-357: the tier the two flags select. *)
Definition classify (has_expressive has_tonal : bool) : string :=
  if has_tonal && has_expressive then PG_Tonal
  else if has_expressive then PG_Expressive
  else PG_Core.

Definition _detect_profile (doc : dict) : M unit :=
  flags <- scan_flags doc ;;
  let (has_expressive, has_tonal) := flags in
  set_profile (classify has_expressive has_tonal) ;;
  declared <- lift (py_get (dict_get doc "meta" (VDict [])) "profile" VNone) ;;
  when (truthy declared) (add_info ("Declared profile: " ++ py_str declared)).

(** *** [validate]

    [schema_step] stands for lines 115-118: the calls the JSON-Schema
    adapter makes (none without a schema, one warning without the
    [jsonschema] package). *)
Definition validate (schema_step : M unit) (doc : dict) : M unit :=
  schema_step ;;
  _validate_required_fields doc ;;
  _validate_temporal_constraints doc ;;
  _validate_id_uniqueness doc ;;
  _validate_references doc ;;
  _validate_ranges doc ;;
  _validate_tonal_requirements doc ;;
  _detect_profile doc.

(** The accumulator [validate] returns, when no pass raises. *)
Definition validation_result (schema_step : M unit) (doc : dict)
  : res ValidationResult :=
  match outcome (validate schema_step doc) with
  | Ok _ => Ok (run (validate schema_step doc) new_result)
  | Raise e => Raise e
  end.

(** *** [_validate_schema] and the schema step of [validate]

    The JSON-Schema validator is an external library.  What it found on
    the document is an argument of the model: the errors
    [iter_errors] yields, each with its [message] and [absolute_path], or
    the text of the exception the library raised. *)

Record schema_error : Type := mkSchemaError {
  message : string;
  absolute_path : list value
}.

(** [sep.join(l)] *)
Fixpoint join (sep : string) (l : list string) : string :=
  match l with
  | [] => ""
  | [x] => x
  | x :: r => x ++ sep ++ join sep r
  end.

(** Line 139-140: one error of the library, as an entry of the report. *)
Definition schema_entry (error : schema_error) : string :=
  let path := join " -> " (map py_str (absolute_path error)) in
  "Schema: " ++ message error ++ " (at "
  ++ (if negb (String.eqb path "") then path else "root") ++ ")".

(** Lines 135-142. *)
Definition _validate_schema (found : list schema_error + string) : M unit :=
  match found with
  | inl errors => for_each errors (fun error => add_error (schema_entry error))
  | inr e => add_error ("Schema validation error: " ++ e)
  end.

(** Lines 115-118: [schema] is [self.schema] ([None] when no schema was
    loaded) and [jsonschema] tells whether the package could be
    imported. *)
Definition schema_step (schema : value) (jsonschema : bool)
    (found : list schema_error + string) : M unit :=
  if truthy schema && jsonschema then _validate_schema found
  else if negb jsonschema then
    add_warning "jsonschema not installed - skipping schema validation"
  else ret tt.

(** *** [ValidationResult.print_report]

    The report is the sequence of the strings given to [print], one per
    call. *)

(** [s * n] *)
Fixpoint str_mul (s : string) (n : nat) : string :=
  match n with
  | O => ""
  | S n' => s ++ str_mul s n'
  end.

Definition newline : string := String (ascii_of_nat 10) "".

(** [f"{'='*60}"] *)
Definition rule : string := str_mul "=" 60.

(** [f"\n{'='*60}"] and [f"{'='*60}\n"] *)
Definition rule_after_blank : string := newline ++ rule.

(** [f"{title} ({len(entries)})"] and [f"  {i}. {entry}"] *)
Definition section_title (title : string) (n : nat) : string :=
  title ++ " (" ++ string_of_nat n ++ ")".

Definition numbered (ie : nat * string) : string :=
  "  " ++ string_of_nat (fst ie) ++ ". " ++ snd ie.


(** [enumerate(l, 1)] *)
Definition enumerate_from_1 (l : list string) : list (nat * string) :=
  combine (seq 1 (List.length l)) l.

(** Lines 61-66, 68-73 and 75-80: the block printed for a list with
    entries, under its [title]. *)
Definition print_section (title : string) (entries : list string)
  : list string :=
  match entries with
  | [] => []
  | _ =>
      [rule_after_blank; section_title title (List.length entries); rule] ++
      map numbered (enumerate_from_1 entries)
  end.



(** ** Notions the specification uses *)

(** The major segment of a version string: the text before its first dot. *)
Definition major_segment (s : string) : string := split_first "." s.

Definition version_missing_msg : string :=
  "Missing required field: prosograph (version string)".

(** The two messages of the version gate, recognised by their fixed text. *)
Definition is_version_error (msg : string) : bool :=
  String.eqb msg version_missing_msg || starts_with "Unsupported version: " msg.

Definition version_errors (cs : list call) : list string :=
  filter is_version_error (error_msgs cs).

(** Any call but a version error. *)
Definition not_version_error (c : call) : bool :=
  match c with AddError msg => negb (is_version_error msg) | _ => true end.

(** Calls that add no error: warnings and informational notes. *)
Definition is_note (c : call) : bool :=
  match c with AddWarning _ | AddInfo _ => true | _ => false end.

(** The messages of the temporal pass (lines 182-203). *)
Definition segment_t0_msg (seg_id t0 : value) : string :=
  "Segment " ++ py_str seg_id ++ ": t0 (" ++ py_str t0 ++ ") < 0".

Definition segment_order_msg (seg_id t1 t0 : value) : string :=
  "Segment " ++ py_str seg_id ++ ": t1 (" ++ py_str t1
  ++ ") must be > t0 (" ++ py_str t0 ++ ")".

Definition segment_duration_msg (seg_id t1 duration : value) : string :=
  "Segment " ++ py_str seg_id ++ ": t1 (" ++ py_str t1
  ++ ") > duration (" ++ py_str duration ++ ")".

Definition token_t0_msg (tok_id tok_t0 t0 : value) : string :=
  "Token " ++ py_str tok_id ++ ": t0 (" ++ py_str tok_t0
  ++ ") < segment t0 (" ++ py_str t0 ++ ")".

Definition token_t1_msg (tok_id tok_t1 t1 : value) : string :=
  "Token " ++ py_str tok_id ++ ": t1 (" ++ py_str tok_t1
  ++ ") > segment t1 (" ++ py_str t1 ++ ")".

Definition token_order_msg (tok_id tok_t1 tok_t0 : value) : string :=
  "Token " ++ py_str tok_id ++ ": t1 (" ++ py_str tok_t1
  ++ ") must be > t0 (" ++ py_str tok_t0 ++ ")".

(** The errors one token owes to the nesting invariant
    [segment.t0 <= token.t0 < token.t1 <= segment.t1], one per violated
    clause; [a], [b] are the segment's bounds and [x], [y] the token's. *)
Definition nesting_errors (t0 t1 tok_id tok_t0 tok_t1 : value)
    (a b x y : pyfloat) : list call :=
  (if float_lt x a then [AddError (token_t0_msg tok_id tok_t0 t0)] else []) ++
  (if float_lt b y then [AddError (token_t1_msg tok_id tok_t1 t1)] else []) ++
  (if float_le y x then [AddError (token_order_msg tok_id tok_t1 tok_t0)] else []).

(** The errors a segment with numeric bounds [a], [b] owes to its own
    invariant [0 <= t0 < t1 <= duration], the duration being [d]. *)
Definition segment_errors (seg_id t0 t1 duration : value) (a b d : pyfloat)
  : list call :=
  (if float_lt a (FFin 0) then [AddError (segment_t0_msg seg_id t0)] else []) ++
  (if float_le b a then [AddError (segment_order_msg seg_id t1 t0)] else []) ++
  (if float_lt d b then [AddError (segment_duration_msg seg_id t1 duration)]
   else []).

(** The document gives no [audio.duration_s]: there is no [audio], or
    [audio] is an object without that key. *)
Definition duration_absent (doc : dict) : Prop :=
  dict_lookup "audio" doc = None \/
  exists ad, dict_lookup "audio" doc = Some (VDict ad) /\
             dict_lookup "duration_s" ad = None.

(** The document gives [audio.duration_s = D]. *)
Definition duration_is (doc : dict) (D : value) : Prop :=
  exists ad, dict_lookup "audio" doc = Some (VDict ad) /\
             dict_lookup "duration_s" ad = Some D.

(** Errors about a token: their text begins with "Token ". *)
Definition is_token_error (c : call) : bool :=
  match c with AddError msg => starts_with "Token " msg | _ => false end.

(** Any call but the error with text [target]. *)
Definition is_not_error (target : string) (c : call) : bool :=
  match c with AddError msg => negb (String.eqb msg target) | _ => true end.

(** The messages of the numeric-range pass (lines 251 and 255). *)
Definition unit_range_msg (path : string) (v : value) : string :=
  path ++ ": value " ++ py_str v ++ " not in [0,1]".

Definition signed_range_msg (path : string) (v : value) : string :=
  path ++ ": value " ++ py_str v ++ " not in [-1,1]".

(** A number lies outside the closed interval [[lo, hi]]. *)
Definition outside (lo hi x : pyfloat) : bool :=
  float_lt x lo || float_lt hi x.

(** The object under key [k], empty when the key is absent. *)
Definition child (d : dict) (k : string) : dict :=
  match dict_get d k (VDict []) with VDict x => x | _ => [] end.

(** Key [k] is absent or holds an object. *)
Definition object_or_absent (d : dict) (k : string) : bool :=
  is_dict (dict_get d k (VDict [])).

(** A language tag whose primary subtag, lowercased, is a tonal one. *)
Definition tonal_tag (lang : value) : bool :=
  match lang with
  | VStr s => in_tonal_langs (lower (split_first "-" s))
  | _ => false
  end.

(** A language field the passes can read: a string, or a false value. *)
Definition readable_lang (lang : value) : bool :=
  match lang with VStr _ => true | _ => negb (truthy lang) end.

(** The messages of the tonal pass (lines 314 and 325). *)
Definition tonal_segment_msg (seg_id lang : value) : string :=
  "Segment " ++ py_str seg_id ++ ": tonal language (" ++ py_str lang
  ++ ") but no tone.system declared".

Definition tonal_token_msg (tok_id : value) : string :=
  "Token " ++ py_str tok_id ++ ": tonal language but no tone.lexical".

Definition lexical_kind (kind : value) : bool :=
  existsb (fun k => is_str k kind) lexical_kinds.

(** A token whose tracks the tonal pass can read: its kind is not a
    lexical one (the tracks are then not read), or [tracks] and
    [tracks.tone] are objects or absent. *)
Definition tonal_token_ok (tok : value) : bool :=
  match tok with
  | VDict td =>
      negb (lexical_kind (dict_get td "kind" (VStr "word"))) ||
      (object_or_absent td "tracks" && object_or_absent (child td "tracks") "tone")
  | _ => false
  end.

(** The warning a token of a tonal segment earns: one when its kind
    (default "word") is word, morpheme or char and it has no
    [tracks.tone.lexical]. *)
Definition lexical_warning (tok : value) : list call :=
  match tok with
  | VDict td =>
      if lexical_kind (dict_get td "kind" (VStr "word")) &&
         negb (dict_has "lexical" (child (child td "tracks") "tone"))
      then [AddWarning (tonal_token_msg (dict_get td "id" (VStr "<unknown>")))]
      else []
  | _ => []
  end.

Definition is_warning (c : call) : bool :=
  match c with AddWarning _ => true | _ => false end.

(** A segment with an expressive track. *)
Definition expressive_segment (seg : value) : bool :=
  match seg with
  | VDict sd => existsb (fun k => dict_has k (child sd "tracks")) expressive_keys
  | _ => false
  end.

(** A segment whose effective language is tonal and whose
    [tracks.tone.system] is present. *)
Definition tonal_system_segment (default seg : value) : bool :=
  match seg with
  | VDict sd =>
      tonal_tag (dict_get sd "language" default) &&
      dict_has "tone" (child sd "tracks") &&
      dict_has "system" (child (child sd "tracks") "tone")
  | _ => false
  end.

(** A segment the profile detector can read. *)
Definition profile_segment_ok (default seg : value) : bool :=
  match seg with
  | VDict sd =>
      object_or_absent sd "tracks" &&
      readable_lang (dict_get sd "language" default) &&
      object_or_absent (child sd "tracks") "tone"
  | _ => false
  end.

Definition default_language (doc : dict) : value :=
  dict_get (child doc "defaults") "language" (VStr "").

(** The profile slot of the accumulator after the detector ran. *)
Definition detected_profile (doc : dict) : option string :=
  profile (run (_detect_profile doc) new_result).

(** The document with its segment sequence replaced. *)
Definition with_segments (segs : list value) (doc : dict) : dict :=
  dict_set "segments" (VList segs) doc.

Definition is_info (c : call) : bool :=
  match c with AddInfo _ => true | _ => false end.

Definition no_call (c : call) : bool := false.

(** The messages of the uniqueness pass (lines 214-226). *)
Definition dup_segment_msg (s : string) : string := "Duplicate segment ID: " ++ s.
Definition dup_token_msg (s : string) : string := "Duplicate token ID: " ++ s.
Definition segment_no_id_msg : string := "Segment missing required 'id' field".
Definition token_no_id_msg : string := "Token missing required 'id' field".

(** How many times the error [msg] is reported among [cs]. *)
Definition count_error (msg : string) (cs : list call) : nat :=
  List.length (filter (String.eqb msg) (error_msgs cs)).

(** How many entries of [l] are the ID [s]. *)
Definition count_id (s : string) (l : list string) : nat :=
  List.length (filter (String.eqb s) l).

(** An [id] field the uniqueness pass can read: absent, null or a string. *)
Definition id_field_ok (d : dict) : bool :=
  match dict_get d "id" VNone with
  | VNone | VStr _ => true
  | _ => false
  end.

(** The ID an entity carries: its [id] when that is a non-empty string. *)
Definition usable_id (d : dict) : option string :=
  match dict_get d "id" VNone with
  | VStr s => if String.eqb s "" then None else Some s
  | _ => None
  end.

Definition ids_of (l : list value) : list string :=
  flat_map (fun v => match v with
                     | VDict d => match usable_id d with Some s => [s] | None => [] end
                     | _ => []
                     end) l.

Definition uniqueness_token_ok (tok : value) : bool :=
  match tok with VDict td => id_field_ok td | _ => false end.

Definition tokens_of (seg : value) : list value :=
  match seg with
  | VDict sd =>
      match dict_get sd "tokens" (VList []) with VList toks => toks | _ => [] end
  | _ => []
  end.

Definition uniqueness_segment_ok (seg : value) : bool :=
  match seg with
  | VDict sd =>
      id_field_ok sd &&
      match dict_get sd "tokens" (VList []) with
      | VList toks => forallb uniqueness_token_ok toks
      | _ => false
      end
  | _ => false
  end.

(** The IDs of the segments, and of all the tokens, in document order. *)
Definition segment_ids (segs : list value) : list string := ids_of segs.
Definition all_token_ids (segs : list value) : list string :=
  ids_of (flat_map tokens_of segs).

(** Membership of a string in a set, and the set after [add]. *)
Definition members (T : pyset) (s : string) : bool :=
  existsb (py_eq (VStr s)) T.

Definition add_id (T : pyset) (s : string) : pyset :=
  if members T s then T else VStr s :: T.

Definition add_all (T : pyset) (l : list string) : pyset :=
  fold_left add_id l T.

(** Occurrences of [s] in [l] that follow an earlier one, the members of
    [T] counting as earlier. *)
Definition dup_count (T : pyset) (l : list string) (s : string) : nat :=
  if members T s then count_id s l else Nat.pred (count_id s l).

(** The four findings of the uniqueness pass, before they are rendered
    as text. *)
Inductive finding : Type :=
| DupSegment (s : string)
| DupToken (s : string)
| SegmentNoId
| TokenNoId.

Definition finding_msg (f : finding) : string :=
  match f with
  | DupSegment s => dup_segment_msg s
  | DupToken s => dup_token_msg s
  | SegmentNoId => segment_no_id_msg
  | TokenNoId => token_no_id_msg
  end.

Definition report (f : finding) : call := AddError (finding_msg f).

Definition finding_eqb (f g : finding) : bool :=
  match f, g with
  | DupSegment s, DupSegment t => String.eqb s t
  | DupToken s, DupToken t => String.eqb s t
  | SegmentNoId, SegmentNoId => true
  | TokenNoId, TokenNoId => true
  | _, _ => false
  end.

Definition count_finding (f : finding) (tr : list finding) : nat :=
  List.length (filter (finding_eqb f) tr).

(** What the pass finds about the [id] of one entity, the set of the IDs
    seen being [S]; and the set afterwards. *)
Definition id_findings (dup : string -> finding) (no_id : finding)
    (S : pyset) (d : dict) : list finding :=
  match usable_id d with
  | Some s => if members S s then [dup s] else []
  | None => [no_id]
  end.

Definition next_set (S : pyset) (d : dict) : pyset :=
  match usable_id d with Some s => add_id S s | None => S end.

Fixpoint token_trace (T : pyset) (toks : list value) : list finding :=
  match toks with
  | VDict td :: r =>
      id_findings DupToken TokenNoId T td ++ token_trace (next_set T td) r
  | _ => []
  end.

Fixpoint segment_trace (S T : pyset) (segs : list value) : list finding :=
  match segs with
  | VDict sd :: r =>
      id_findings DupSegment SegmentNoId S sd ++
      token_trace T (tokens_of (VDict sd)) ++
      segment_trace (next_set S sd)
        (add_all T (ids_of (tokens_of (VDict sd)))) r
  | _ => []
  end.

(** Entities without a usable ID. *)
Definition count_no_id (l : list value) : nat :=
  List.length (filter (fun v => match v with
                                | VDict d => match usable_id d with
                                             | Some _ => false
                                             | None => true
                                             end
                                | _ => false
                                end) l).

(** The message of the reference pass (line 244). *)
Definition dangling_msg (r : string) : string :=
  "Emphasis references non-existent token: " ++ r.

Definition is_string (v : value) : bool :=
  match v with VStr _ => true | _ => false end.

Definition strings (l : list value) : list string :=
  flat_map (fun v => match v with VStr s => [s] | _ => [] end) l.

(** The [id] a token declares, when it is a string (possibly empty). *)
Definition declared_id (tok : value) : list string :=
  match tok with
  | VDict td => match dict_lookup "id" td with Some (VStr s) => [s] | _ => [] end
  | _ => []
  end.

(** The [id] of every token of the document. *)
Definition declared_ids (segs : list value) : list string :=
  flat_map declared_id (flat_map tokens_of segs).

(** The entries of a segment's [tracks.delivery.emphasis]. *)
Definition entries_of (seg : value) : list value :=
  match seg with
  | VDict sd =>
      match dict_get (child (child sd "tracks") "delivery") "emphasis" (VList [])
      with VList es => es | _ => [] end
  | _ => []
  end.

(** The entries of [span.token_ids] of one emphasis entry: none when the
    span is not an object or has no [token_ids]. *)
Definition refs_of_entry (e : value) : list string :=
  match e with
  | VDict ed =>
      match dict_get ed "span" VNone with
      | VDict sp =>
          match dict_lookup "token_ids" sp with
          | Some (VList l) => strings l
          | _ => []
          end
      | _ => []
      end
  | _ => []
  end.

(** Every reference of the document, in document order. *)
Definition references (segs : list value) : list string :=
  flat_map (fun seg => flat_map refs_of_entry (entries_of seg)) segs.

Definition reference_token_ok (tok : value) : bool :=
  match tok with
  | VDict td =>
      match dict_lookup "id" td with None | Some (VStr _) => true | _ => false end
  | _ => false
  end.

(** An emphasis entry the pass can read: an object whose [span], if it is
    an object with [token_ids], lists strings. *)
Definition entry_ok (e : value) : bool :=
  match e with
  | VDict ed =>
      match dict_get ed "span" VNone with
      | VDict sp =>
          match dict_lookup "token_ids" sp with
          | Some (VList l) => forallb is_string l
          | Some _ => false
          | None => true
          end
      | _ => true
      end
  | _ => false
  end.

Definition reference_segment_ok (seg : value) : bool :=
  match seg with
  | VDict sd =>
      match dict_get sd "tokens" (VList []) with
      | VList toks => forallb reference_token_ok toks
      | _ => false
      end &&
      object_or_absent sd "tracks" &&
      object_or_absent (child sd "tracks") "delivery" &&
      match dict_get (child (child sd "tracks") "delivery") "emphasis" (VList [])
      with VList es => forallb entry_ok es | _ => false end
  | _ => false
  end.

(** The errors owed to the references [l] when the token IDs are [T]. *)
Definition dangling_errors (T : pyset) (l : list string) : list call :=
  flat_map (fun r => if members T r then [] else [AddError (dangling_msg r)]) l.

(** ** Notions for the further properties *)

(** The document passes the version gate: [prosograph] is a string that
    begins with "1.". *)
Definition version_ok (doc : dict) : bool :=
  match dict_lookup "prosograph" doc with
  | Some (VStr s) => starts_with "1." s
  | _ => false
  end.

(** [audio] is an object with a [uri] key and a numeric [duration_s] that
    is not [<= 0]. *)
Definition audio_ok (doc : dict) : bool :=
  match dict_lookup "audio" doc with
  | Some (VDict ad) =>
      dict_has "uri" ad &&
      match dict_lookup "duration_s" ad with
      | Some v =>
          match as_num v with
          | Some d => negb (float_le d (FFin 0))
          | None => false
          end
      | None => false
      end
  | _ => false
  end.

Definition required_ok (doc : dict) : bool :=
  version_ok doc && audio_ok doc && dict_has "segments" doc.

(** The errors of [check_audio] on an [audio] object. *)
Definition uri_errors (ad : dict) : list call :=
  if dict_has "uri" ad then []
  else [AddError "Missing required field: audio.uri"].

Definition duration_errors (ad : dict) : list call :=
  match dict_lookup "duration_s" ad with
  | None => [AddError "Missing required field: audio.duration_s"]
  | Some v =>
      match as_num v with
      | Some d =>
          if float_le d (FFin 0) then [AddError "audio.duration_s must be > 0"]
          else []
      | None => []
      end
  end.

(** A [duration_s] the pass can compare with 0: absent, or a number. *)
Definition duration_readable (ad : dict) : bool :=
  match dict_lookup "duration_s" ad with
  | None => true
  | Some v => match as_num v with Some _ => true | None => false end
  end.

(** A finite number: an [int], a [bool] or a finite [float]. *)
Definition finite_num (v : value) : option Q :=
  match as_num v with Some (FFin q) => Some q | _ => None end.

(** The bounds [(t0, t1)] of a segment or token, when both are finite
    numbers. *)
Definition times (v : value) : option (Q * Q) :=
  match v with
  | VDict d =>
      match finite_num (dict_get d "t0" VNone),
            finite_num (dict_get d "t1" VNone) with
      | Some x, Some y => Some (x, y)
      | _, _ => None
      end
  | _ => None
  end.

Definition has_times (v : value) : bool :=
  match times v with Some _ => true | None => false end.

(** A segment with finite bounds whose [tokens], if any, are a sequence of
    tokens with finite bounds. *)
Definition timed_segment (seg : value) : bool :=
  has_times seg &&
  match seg with
  | VDict sd =>
      match dict_get sd "tokens" (VList []) with
      | VList toks => forallb has_times toks
      | _ => false
      end
  | _ => false
  end.

(** [a <= t0 < t1 <= b] for a token in a segment [[a, b]]. *)
Definition token_nested (a b : Q) (tok : value) : bool :=
  match times tok with
  | Some (x, y) => Qle_bool a x && negb (Qle_bool y x) && Qle_bool y b
  | None => false
  end.

(** [0 <= t0 < t1 <= d] for the segment, and every token nested in it. *)
Definition segment_well_timed (d : pyfloat) (seg : value) : bool :=
  match times seg with
  | Some (a, b) =>
      Qle_bool 0 a && negb (Qle_bool b a) && float_le (FFin b) d &&
      forallb (token_nested a b) (tokens_of seg)
  | None => false
  end.

(** The duration the temporal pass works with: unbounded when the document
    gives none, the finite [audio.duration_s] otherwise. *)
Definition resolved_duration (doc : dict) : option pyfloat :=
  match dict_lookup "audio" doc with
  | None => Some FInf
  | Some (VDict ad) =>
      match dict_lookup "duration_s" ad with
      | None => Some FInf
      | Some v => match finite_num v with Some q => Some (FFin q) | None => None end
      end
  | Some _ => None
  end.

Definition is_error (c : call) : bool :=
  match c with AddError _ => true | _ => false end.

Definition is_profile_or_info (c : call) : bool :=
  match c with SetProfile _ | AddInfo _ => true | _ => false end.

(** The profile slot after a sequence of calls, [p] being its content
    before. *)
Definition last_profile (cs : list call) (p : option string) : option string :=
  fold_left (fun acc c => match c with SetProfile x => Some x | _ => acc end) cs p.

Definition is_error_or_warning (c : call) : bool :=
  match c with AddError _ | AddWarning _ => true | _ => false end.

Definition no_jsonschema_msg : string :=
  "jsonschema not installed - skipping schema validation".

(** The place of a profile label in the order Core < Expressive < Tonal. *)
Definition tier_rank (p : option string) : nat :=
  match p with
  | Some label =>
      if String.eqb label PG_Tonal then 2
      else if String.eqb label PG_Expressive then 1
      else 0
  | None => 0
  end.

(** [meta.profile], as the detector reads it. *)
Definition declared_profile (doc : dict) : value :=
  dict_get (child doc "meta") "profile" VNone.

(** An entity that carries a non-empty string as its [id]. *)
Definition has_id (v : value) : bool :=
  match v with
  | VDict d => match usable_id d with Some _ => true | None => false end
  | _ => false
  end.

(** A text without a hyphen. *)
Fixpoint no_hyphen (s : string) : bool :=
  match s with
  | EmptyString => true
  | String c r => negb (Ascii.eqb c "-") && no_hyphen r
  end.

(** A text of ASCII characters only, and its one-character texts in
    order. *)
Definition ascii_text (s : string) : bool :=
  forallb (fun c => (nat_of_ascii c <? 128)%nat) (list_ascii_of_string s).

Fixpoint letters (s : string) : list string :=
  match s with
  | EmptyString => []
  | String c r => String c EmptyString :: letters r
  end.

(** A value a [for] loop cannot run over. *)
Definition not_iterable (v : value) : bool :=
  match v with
  | VList _ | VStr _ | VDict _ => false
  | _ => true
  end.

(** An error whose message begins with [path]. *)
Definition under (path : string) (c : call) : bool :=
  match c with AddError m => starts_with path m | _ => false end.

(** The name the range pass gives a segment and a token: the [id] as
    [str()] renders it when the key is there, the position otherwise. *)
Definition segment_label (i : nat) (sd : dict) : string :=
  py_str (dict_get sd "id" (VStr ("segment[" ++ string_of_nat i ++ "]"))).

Definition token_label (j : nat) (td : dict) : string :=
  py_str (dict_get td "id" (VStr ("token[" ++ string_of_nat j ++ "]"))).

(** The segments of a document, when [segments] is a list. *)
Definition segments_of (doc : dict) : list value :=
  match dict_get doc "segments" (VList []) with VList segs => segs | _ => [] end.

(** An error about the tracks of one of the tokens of [seg], named after
    that token and its position among them. *)
Definition token_error_of (seg : value) (c : call) : Prop :=
  exists (j : nat) (td : dict),
    nth_error (tokens_of seg) j = Some (VDict td) /\
    under (token_label j td ++ ".tracks.") c = true.

(** An error about segment number [i], be it about its own tracks or
    about those of one of its tokens. *)
Definition segment_error_of (i : nat) (sd : dict) (c : call) : Prop :=
  under (segment_label i sd ++ ".tracks.") c = true \/
  token_error_of (VDict sd) c.

(** An error the range pass may make on [doc]: about the default style,
    or about one of its segments at its position. *)
Definition range_error_of (doc : dict) (c : call) : Prop :=
  under "defaults.style." c = true \/
  exists (i : nat) (sd : dict),
    nth_error (segments_of doc) i = Some (VDict sd) /\
    segment_error_of i sd c.

(** ** Notions for the range pass as a whole *)

(** A field the range checks can read: null, or a number. *)
Definition number_or_null (v : value) : bool :=
  match v with
  | VNone => true
  | _ => match as_num v with Some _ => true | None => false end
  end.

(** What a checked field at [path] earns: nothing when it is null or
    absent; for a number, one error exactly when it lies strictly below
    [lo] or strictly above [hi]. *)
Definition range_error (lo hi : Q) (msg : string -> value -> string)
    (path : string) (v : value) : list call :=
  match as_num v with
  | Some x =>
      if outside (FFin lo) (FFin hi) x then [AddError (msg path v)] else []
  | None => []
  end.

Definition unit_error : string -> value -> list call :=
  range_error 0 1 unit_range_msg.

Definition signed_error : string -> value -> list call :=
  range_error (-1) 1 signed_range_msg.

(** An emotion track the pass can read, and the errors of its four
    fields: valence in [-1, 1], the other three in [0, 1]. *)
Definition emotion_ok (e : value) : bool :=
  match e with
  | VDict ed =>
      object_or_absent ed "vad" &&
      number_or_null (dict_get (child ed "vad") "valence" VNone) &&
      number_or_null (dict_get (child ed "vad") "arousal" VNone) &&
      number_or_null (dict_get (child ed "vad") "dominance" VNone) &&
      number_or_null (dict_get ed "confidence" VNone)
  | _ => false
  end.

Definition emotion_errors (path : string) (e : value) : list call :=
  match e with
  | VDict ed =>
      signed_error (path ++ ".vad.valence")
        (dict_get (child ed "vad") "valence" VNone) ++
      unit_error (path ++ ".vad.arousal")
        (dict_get (child ed "vad") "arousal" VNone) ++
      unit_error (path ++ ".vad.dominance")
        (dict_get (child ed "vad") "dominance" VNone) ++
      unit_error (path ++ ".confidence") (dict_get ed "confidence" VNone)
  | _ => []
  end.

(** A voice-quality track the pass can read, and the errors of its five
    fields, each in [0, 1]. *)
Definition voice_quality_ok (q : value) : bool :=
  match q with
  | VDict qd =>
      forallb (fun key => number_or_null (dict_get qd key VNone))
        ["creak"; "breathiness"; "nasal"; "tension"; "smile"]
  | _ => false
  end.

Definition voice_quality_errors (path : string) (q : value) : list call :=
  match q with
  | VDict qd =>
      flat_map (fun key => unit_error (path ++ "." ++ key) (dict_get qd key VNone))
        ["creak"; "breathiness"; "nasal"; "tension"; "smile"]
  | _ => []
  end.

(** The object under [tracks.delivery] or [tracks.tone], of which the pass
    reads the one field [field], in [0, 1]. *)
Definition field_ok (field : string) (o : value) : bool :=
  match o with
  | VDict d => number_or_null (dict_get d field VNone)
  | _ => false
  end.

Definition field_errors (field path : string) (o : value) : list call :=
  match o with
  | VDict d => unit_error path (dict_get d field VNone)
  | _ => []
  end.

(** A track that is absent is not checked. *)
Definition when_present (key : string) (t : dict) (ok : value -> bool) : bool :=
  match dict_lookup key t with Some x => ok x | None => true end.

Definition errors_when_present (key : string) (t : dict)
    (errs : value -> list call) : list call :=
  match dict_lookup key t with Some x => errs x | None => [] end.

(** Token number [j] of a segment: what the pass can read, and the errors
    it earns, for [tracks.emotion], [tracks.voice_quality] and
    [tracks.tone.confidence]. *)
Definition ranges_token_ok (tok : value) : bool :=
  match tok with
  | VDict td =>
      object_or_absent td "tracks" &&
      when_present "emotion" (child td "tracks") emotion_ok &&
      when_present "voice_quality" (child td "tracks") voice_quality_ok &&
      when_present "tone" (child td "tracks") (field_ok "confidence")
  | _ => false
  end.

Definition token_range_errors (jt : nat * value) : list call :=
  match jt with
  | (j, VDict td) =>
      errors_when_present "emotion" (child td "tracks")
        (emotion_errors (token_label j td ++ ".tracks.emotion")) ++
      errors_when_present "voice_quality" (child td "tracks")
        (voice_quality_errors (token_label j td ++ ".tracks.voice_quality")) ++
      errors_when_present "tone" (child td "tracks")
        (field_errors "confidence" (token_label j td ++ ".tracks.tone.confidence"))
  | _ => []
  end.

(** Segment number [i]: [tracks.emotion], [tracks.voice_quality],
    [tracks.delivery.clarity], and then its tokens in order. *)
Definition ranges_segment_ok (seg : value) : bool :=
  match seg with
  | VDict sd =>
      object_or_absent sd "tracks" &&
      when_present "emotion" (child sd "tracks") emotion_ok &&
      when_present "voice_quality" (child sd "tracks") voice_quality_ok &&
      when_present "delivery" (child sd "tracks") (field_ok "clarity") &&
      match dict_get sd "tokens" (VList []) with
      | VList toks => forallb ranges_token_ok toks
      | _ => false
      end
  | _ => false
  end.

Definition segment_range_errors (ie : nat * value) : list call :=
  match ie with
  | (i, VDict sd) =>
      errors_when_present "emotion" (child sd "tracks")
        (emotion_errors (segment_label i sd ++ ".tracks.emotion")) ++
      errors_when_present "voice_quality" (child sd "tracks")
        (voice_quality_errors (segment_label i sd ++ ".tracks.voice_quality")) ++
      errors_when_present "delivery" (child sd "tracks")
        (field_errors "clarity" (segment_label i sd ++ ".tracks.delivery.clarity")) ++
      flat_map token_range_errors (enumerate (tokens_of (VDict sd)))
  | _ => []
  end.

(** The document: [defaults.style.emotion], [defaults.style.voice_quality],
    and then its segments in order. *)
Definition ranges_ok (doc : dict) : bool :=
  object_or_absent doc "defaults" &&
  object_or_absent (child doc "defaults") "style" &&
  when_present "emotion" (child (child doc "defaults") "style") emotion_ok &&
  when_present "voice_quality" (child (child doc "defaults") "style")
    voice_quality_ok &&
  match dict_get doc "segments" (VList []) with
  | VList segs => forallb ranges_segment_ok segs
  | _ => false
  end.

Definition range_errors (doc : dict) : list call :=
  errors_when_present "emotion" (child (child doc "defaults") "style")
    (emotion_errors "defaults.style.emotion") ++
  errors_when_present "voice_quality" (child (child doc "defaults") "style")
    (voice_quality_errors "defaults.style.voice_quality") ++
  flat_map segment_range_errors (enumerate (segments_of doc)).

(** ** Sample trees *)

(** A stand-in for [repr], for evaluating the passes on trees whose
    messages interpolate no finite float and no container. *)
Definition repr_unused (v : value) : string := "<repr>".

(** A segment [0, 5] holding one token [0, 6], which overruns it. *)
Definition overrun_token : dict :=
  [("id", VStr "w1"); ("t0", VInt 0); ("t1", VInt 6)].

Definition overrun_segment : dict :=
  [("id", VStr "s1"); ("t0", VInt 0); ("t1", VInt 5);
   ("tokens", VList [VDict overrun_token])].

(** A document whose audio lasts 3 seconds, shorter than its segment. *)
Definition short_audio_doc : dict :=
  [("prosograph", VStr "1.0");
   ("audio", VDict [("uri", VStr "a.wav"); ("duration_s", VInt 3)]);
   ("segments", VList [VDict overrun_segment])].

(** The same document without [audio.duration_s]. *)
Definition no_duration_doc : dict :=
  [("prosograph", VStr "1.0");
   ("audio", VDict [("uri", VStr "a.wav")]);
   ("segments", VList [VDict overrun_segment])].

(** A Mandarin segment without tone annotation, holding one word. *)
Definition untoned_segment : dict :=
  [("id", VStr "s1"); ("t0", VInt 0); ("t1", VInt 5); ("language", VStr "zh");
   ("tokens", VList [VDict [("id", VStr "w1"); ("kind", VStr "word");
                            ("t0", VInt 0); ("t1", VInt 4)]])].

(** A Mandarin segment that declares its tone system, and an English
    segment with an emotion track. *)
Definition toned_segment : value :=
  VDict [("id", VStr "s1"); ("t0", VInt 0); ("t1", VInt 5);
         ("language", VStr "zh-Hans");
         ("tracks", VDict [("tone", VDict [("system", VStr "pinyin")])])].

Definition emotive_segment : value :=
  VDict [("id", VStr "s2"); ("t0", VInt 5); ("t1", VInt 9);
         ("language", VStr "en");
         ("tracks", VDict [("emotion", VDict [("confidence", VInt 1)])])].

Definition two_tier_doc : dict :=
  [("prosograph", VStr "1.0");
   ("audio", VDict [("uri", VStr "a.wav"); ("duration_s", VInt 10)]);
   ("segments", VList [toned_segment; emotive_segment])].

(** Two segments that both carry the empty string as ID. *)
Definition empty_id_segment : value := VDict [("id", VStr "")].

Definition two_empty_ids_doc : dict :=
  [("segments", VList [empty_id_segment; empty_id_segment])].

(** Three segments named "a", the last two holding a token "w" each. *)
Definition repeated_ids_doc : dict :=
  [("segments",
    VList [VDict [("id", VStr "a")];
           VDict [("id", VStr "a"); ("tokens", VList [VDict [("id", VStr "w")]])];
           VDict [("id", VStr "a"); ("tokens", VList [VDict [("id", VStr "w")]])]])].

(** A document whose only emphasis span refers to the tokens "w1", which
    exists, and "tok-99", which does not; a second entry has a span that is
    not an object. *)
Definition dangling_doc : dict :=
  [("segments",
    VList [VDict [("id", VStr "s1");
                  ("tokens", VList [VDict [("id", VStr "w1")]]);
                  ("tracks",
                   VDict [("delivery",
                     VDict [("emphasis",
                       VList [VDict [("span",
                                VDict [("token_ids",
                                        VList [VStr "w1"; VStr "tok-99"])])];
                              VDict [("span", VStr "all")]])])])]])].

(** The four end-to-end scenarios of the specification. *)
Definition scenario_audio : value :=
  VDict [("uri", VStr "speech.wav"); ("duration_s", VInt 10)].

Definition scenario1_doc : dict :=
  [("prosograph", VStr "1.0"); ("audio", scenario_audio);
   ("segments",
    VList [VDict [("id", VStr "s1"); ("t0", VInt 0); ("t1", VInt 5);
                  ("tokens", VList [VDict [("id", VStr "w1"); ("t0", VInt 0);
                                           ("t1", VInt 4)]])]])].

Definition scenario2_doc : dict :=
  [("prosograph", VStr "1.0"); ("audio", scenario_audio);
   ("segments", VList [VDict overrun_segment])].

Definition scenario3_doc : dict :=
  [("prosograph", VStr "1.0"); ("audio", scenario_audio);
   ("segments", VList [VDict untoned_segment])].

Definition scenario4_doc : dict :=
  [("prosograph", VStr "1.0"); ("audio", scenario_audio);
   ("segments",
    VList [VDict [("id", VStr "s1"); ("t0", VInt 0); ("t1", VInt 5);
                  ("tracks",
                   VDict [("delivery",
                     VDict [("emphasis",
                       VList [VDict [("span",
                                VDict [("token_ids", VList [VStr "tok-99"])])]])])])]])].

(** A segment whose clarity and valence sit on the bounds, whose arousal
    is below 0, and a token whose tone confidence is above 1. *)
Definition ranges_doc : dict :=
  [("segments",
    VList [VDict [("id", VStr "s1");
                  ("tracks",
                   VDict [("emotion",
                           VDict [("vad", VDict [("valence", VInt (-1));
                                                 ("arousal", VInt (-1))])]);
                          ("delivery", VDict [("clarity", VInt 1)])]);
                  ("tokens",
                   VList [VDict [("id", VStr "w1");
                                 ("tracks",
                                  VDict [("tone",
                                          VDict [("confidence", VInt 2)])])]])]])].

(** * Properties *)

(** ** The effect monad *)

Lemma calls_bind {A B : Type} (m : M A) (f : A -> M B) :
  calls (bind m f) =
  calls m ++ match outcome m with Ok a => calls (f a) | Raise _ => [] end.
Proof.
  unfold bind. destruct m as [[a | e] cs]; simpl.
  - destruct (f a); reflexivity.
  - now rewrite app_nil_r.
Qed.

Lemma outcome_bind {A B : Type} (m : M A) (f : A -> M B) :
  outcome (bind m f) =
  match outcome m with Ok a => outcome (f a) | Raise e => Raise e end.
Proof.
  unfold bind. destruct m as [[a | e] cs]; simpl; [destruct (f a) |]; reflexivity.
Qed.

Lemma error_msgs_app (cs cs' : list call) :
  error_msgs (cs ++ cs') = error_msgs cs ++ error_msgs cs'.
Proof. apply flat_map_app. Qed.

Lemma bind_lift_ok {A B : Type} (a : A) (f : A -> M B) :
  bind (lift (Ok a)) f = f a.
Proof. unfold bind, lift. now destruct (f a). Qed.

Lemma bind_ret {A B : Type} (a : A) (f : A -> M B) : bind (ret a) f = f a.
Proof. apply bind_lift_ok. Qed.

Lemma bind_lift_raise {A B : Type} (e : exn) (f : A -> M B) :
  bind (lift (Raise e)) f = (Raise e, []).
Proof. reflexivity. Qed.

Lemma calls_when (b : bool) (c : call) :
  calls (when b (emit c)) = if b then [c] else [].
Proof. now destruct b. Qed.

Lemma outcome_when (b : bool) (c : call) : outcome (when b (emit c)) = Ok tt.
Proof. now destruct b. Qed.

Lemma calls_bind_when {B : Type} (b : bool) (c : call) (f : unit -> M B) :
  calls (bind (when b (emit c)) f) = (if b then [c] else []) ++ calls (f tt).
Proof. now rewrite calls_bind, outcome_when, calls_when. Qed.

Lemma outcome_bind_when {B : Type} (b : bool) (c : call) (f : unit -> M B) :
  outcome (bind (when b (emit c)) f) = outcome (f tt).
Proof. now rewrite outcome_bind, outcome_when. Qed.

Lemma calls_for_each_app {A : Type} (l l' : list A) (body : A -> M unit) :
  calls (for_each (l ++ l') body) =
  calls (for_each l body) ++
  match outcome (for_each l body) with
  | Ok _ => calls (for_each l' body)
  | Raise _ => []
  end.
Proof.
  induction l as [| x l IH]; simpl; auto.
  rewrite !calls_bind, outcome_bind, IH, <- app_assoc.
  destruct (outcome (body x)); simpl; auto.
Qed.

Lemma all_calls_ret {A : Type} (P : call -> bool) (a : A) : all_calls P (ret a).
Proof. reflexivity. Qed.

Lemma all_calls_lift {A : Type} (P : call -> bool) (r : res A) :
  all_calls P (lift r).
Proof. reflexivity. Qed.

Lemma all_calls_emit (P : call -> bool) (c : call) :
  P c = true -> all_calls P (emit c).
Proof. unfold all_calls; simpl. now intros ->. Qed.

Lemma all_calls_bind {A B : Type} (P : call -> bool) (m : M A) (f : A -> M B) :
  all_calls P m -> (forall a, all_calls P (f a)) -> all_calls P (bind m f).
Proof.
  unfold all_calls. intros Hm Hf. rewrite calls_bind, forallb_app, Hm.
  destruct (outcome m); simpl; auto.
Qed.

Lemma all_calls_when (P : call -> bool) (b : bool) (m : M unit) :
  all_calls P m -> all_calls P (when b m).
Proof. destruct b; simpl; auto using all_calls_ret. Qed.

Lemma all_calls_for_each {A : Type} (P : call -> bool) (l : list A)
    (body : A -> M unit) :
  (forall x, all_calls P (body x)) -> all_calls P (for_each l body).
Proof.
  intro H. induction l as [| x l IH]; simpl.
  - apply all_calls_ret.
  - apply all_calls_bind; auto.
Qed.

Lemma all_calls_for_fold {A S : Type} (P : call -> bool) (l : list A) (s : S)
    (body : S -> A -> M S) :
  (forall s x, all_calls P (body s x)) -> all_calls P (for_fold l s body).
Proof.
  intro H. revert s; induction l as [| x l IH]; intro s; simpl.
  - apply all_calls_ret.
  - apply all_calls_bind; auto.
Qed.

(** Walks the structure of a pass, leaving one goal per call it can make. *)
Ltac walk_pass :=
  repeat first
    [ apply all_calls_ret
    | apply all_calls_lift
    | apply all_calls_bind; [| intro]
    | apply all_calls_when
    | apply all_calls_for_each; intro
    | apply all_calls_for_fold; intros
    | match goal with
      | |- all_calls _ (if ?b then _ else _) => destruct b
      | |- all_calls _ (let (_, _) := ?x in _) => destruct x
      end ].

(** ** The accumulator (C9) *)

Lemma perform_all_lists (cs : list call) (r : ValidationResult) :
  errors (perform_all cs r) = errors r ++ error_msgs cs /\
  warnings (perform_all cs r) = warnings r ++ warning_msgs cs /\
  info (perform_all cs r) = info r ++ info_msgs cs.
Proof.
  revert r; induction cs as [| c cs IH]; intro r; simpl.
  - now rewrite !app_nil_r.
  - destruct (IH (perform c r)) as (He & Hw & Hi).
    unfold perform_all in *; simpl. rewrite He, Hw, Hi.
    destruct c; simpl; rewrite <- ?app_assoc; auto.
Qed.

Lemma is_valid_nil (r : ValidationResult) :
  ValidationResult.is_valid r = true <-> errors r = [].
Proof.
  unfold ValidationResult.is_valid. destruct (errors r); simpl; split; congruence.
Qed.

Lemma notes_no_error (cs : list call) :
  forallb is_note cs = true -> error_msgs cs = [].
Proof.
  induction cs as [| c cs IH]; simpl; auto.
  destruct c; simpl; intro H; try discriminate; auto.
Qed.

(** C9. For every accumulator [r]: [is_valid] holds exactly when the error
    list is empty; adding one warning, one info entry, or any sequence of
    warnings and info entries leaves [is_valid] unchanged; and after any
    sequence of accumulator operations each of the three lists is the list
    before the operations followed by the entries added, so no entry is
    removed or altered. *)
Theorem C9_validity_and_append_only (r : ValidationResult) :
  (ValidationResult.is_valid r = true <-> errors r = []) /\
  (forall msg,
     ValidationResult.is_valid (ValidationResult.add_warning msg r) =
     ValidationResult.is_valid r) /\
  (forall msg,
     ValidationResult.is_valid (ValidationResult.add_info msg r) =
     ValidationResult.is_valid r) /\
  (forall cs, forallb is_note cs = true ->
     ValidationResult.is_valid (perform_all cs r) = ValidationResult.is_valid r) /\
  (forall cs,
     errors (perform_all cs r) = errors r ++ error_msgs cs /\
     warnings (perform_all cs r) = warnings r ++ warning_msgs cs /\
     info (perform_all cs r) = info r ++ info_msgs cs).
Proof.
  split; [apply is_valid_nil |].
  split; [reflexivity |]. split; [reflexivity |].
  split; [| intro cs; apply perform_all_lists].
  intros cs Hn. unfold ValidationResult.is_valid.
  destruct (perform_all_lists cs r) as (He & _ & _).
  now rewrite He, (notes_no_error cs Hn), app_nil_r.
Qed.

(** ** The version gate (C1) *)

Lemma split_first_empty (sep : ascii) (s : string) :
  split_first sep s = "" <-> s = "" \/ exists r, s = String sep r.
Proof.
  destruct s as [| c r]; simpl.
  - split; auto.
  - destruct (Ascii.eqb c sep) eqn:E.
    + apply Ascii.eqb_eq in E; subst. split; eauto.
    + apply Ascii.eqb_neq in E. split; [discriminate |].
      intros [H | [r' H]]; [discriminate | congruence].
Qed.

Lemma starts_with_iff (p s : string) :
  starts_with p s = true <-> exists r, s = (p ++ r)%string.
Proof.
  revert s; induction p as [| a p IH]; intro s.
  - split; [intros _; now exists s | reflexivity].
  - destruct s as [| b s]; [split; [discriminate | intros [r H]; discriminate] |].
    change (starts_with (String a p) (String b s))
      with (Ascii.eqb a b && starts_with p s).
    rewrite andb_true_iff, Ascii.eqb_eq, IH. split.
    + intros [-> [r ->]]. now exists r.
    + intros [r H]. injection H as -> ->. eauto.
Qed.

(** The versions whose major segment is "1" are "1" itself and the strings
    that begin with "1.". *)
Lemma major_segment_1 (s : string) :
  major_segment s = "1" <-> s = "1" \/ starts_with "1." s = true.
Proof.
  rewrite starts_with_iff. unfold major_segment. split.
  - destruct s as [| c r]; simpl; [discriminate |].
    destruct (Ascii.eqb c "."); [discriminate |].
    intro H. injection H as -> H. apply split_first_empty in H.
    destruct H as [-> | [r' ->]]; [now left | right; now exists r'].
  - intros [-> | [r ->]]; reflexivity.
Qed.

Lemma version_errors_app (cs cs' : list call) :
  version_errors (cs ++ cs') = version_errors cs ++ version_errors cs'.
Proof.
  unfold version_errors. now rewrite error_msgs_app, filter_app.
Qed.

Lemma no_version_error (cs : list call) :
  forallb not_version_error cs = true -> version_errors cs = [].
Proof.
  unfold version_errors. induction cs as [| c cs IH]; simpl; auto.
  rewrite andb_true_iff. intros [Hc Hcs]. rewrite filter_app, (IH Hcs), app_nil_r.
  destruct c; simpl in *; auto. now destruct (is_version_error msg).
Qed.

Lemma check_audio_no_version_error (doc : dict) :
  version_errors (calls (check_audio doc)) = [].
Proof.
  apply no_version_error. change (all_calls not_version_error (check_audio doc)).
  unfold check_audio. walk_pass; now apply all_calls_emit.
Qed.

Lemma check_segments_no_version_error (doc : dict) :
  version_errors (calls (check_segments doc)) = [].
Proof.
  apply no_version_error. change (all_calls not_version_error (check_segments doc)).
  unfold check_segments. walk_pass; now apply all_calls_emit.
Qed.

Lemma required_fields_version_errors (doc : dict) :
  version_errors (calls (_validate_required_fields doc)) =
  version_errors (calls (check_version doc)).
Proof.
  unfold _validate_required_fields.
  rewrite calls_bind, version_errors_app.
  destruct (outcome (check_version doc)); [| now rewrite app_nil_r].
  rewrite calls_bind, version_errors_app, check_audio_no_version_error.
  destruct (outcome (check_audio doc));
    [rewrite check_segments_no_version_error |]; now rewrite app_nil_r.
Qed.

(** C1 (as amended). For every document, the version errors the
    required-fields pass reports are: the missing-field error when the
    version field [prosograph] is absent; for a string value, nothing when
    it begins with "1." and otherwise one error whose text quotes the value
    literally.  (A value that is not a string makes the pass raise
    [AttributeError] before it reports anything.)  In particular a version
    whose major segment is "1" and which is not the bare string "1" produces
    no version error. *)
Theorem C1_version_gate (doc : dict) :
  match dict_lookup "prosograph" doc with
  | None =>
      version_errors (calls (_validate_required_fields doc)) = [version_missing_msg]
  | Some (VStr s) =>
      version_errors (calls (_validate_required_fields doc)) =
        (if starts_with "1." s then []
         else [("Unsupported version: " ++ s ++ " (expected 1.x)")%string]) /\
      (major_segment s = "1" -> s <> "1" ->
       version_errors (calls (_validate_required_fields doc)) = [])
  | Some _ =>
      outcome (_validate_required_fields doc) = Raise AttributeError /\
      calls (_validate_required_fields doc) = []
  end.
Proof.
  assert (Hstr : forall s, dict_lookup "prosograph" doc = Some (VStr s) ->
            version_errors (calls (_validate_required_fields doc)) =
            (if starts_with "1." s then []
             else [("Unsupported version: " ++ s ++ " (expected 1.x)")%string])).
  { intros s E. rewrite required_fields_version_errors.
    unfold check_version, py_getitem, dict_has. rewrite E.
    cbn [negb]. rewrite bind_lift_ok. unfold py_startswith.
    rewrite bind_lift_ok. destruct (starts_with "1." s); reflexivity. }
  destruct (dict_lookup "prosograph" doc) as [v |] eqn:E.
  - destruct v;
      try (unfold _validate_required_fields, check_version, py_getitem, dict_has;
           rewrite E; split; reflexivity).
    split; [now apply Hstr |].
    intros Hm Hne. rewrite (Hstr s eq_refl).
    apply major_segment_1 in Hm. destruct Hm as [-> | ->]; [congruence | reflexivity].
  - rewrite required_fields_version_errors.
    unfold check_version, dict_has. rewrite E. reflexivity.
Qed.

(** ** Temporal constraints (C3, C5) *)

Lemma as_num_not_none (v : value) (x : pyfloat) :
  as_num v = Some x -> is_none v = false.
Proof. destruct v; simpl; congruence. Qed.

Lemma py_lt_num (u v : value) (x y : pyfloat) :
  as_num u = Some x -> as_num v = Some y -> py_lt u v = Ok (float_lt x y).
Proof. unfold py_lt, py_cmp. now intros -> ->. Qed.

Lemma py_le_num (u v : value) (x y : pyfloat) :
  as_num u = Some x -> as_num v = Some y -> py_le u v = Ok (float_le x y).
Proof. unfold py_le, py_cmp. now intros -> ->. Qed.

Lemma py_gt_num (u v : value) (x y : pyfloat) :
  as_num u = Some x -> as_num v = Some y -> py_gt u v = Ok (float_lt y x).
Proof. unfold py_gt, py_cmp. now intros -> ->. Qed.



(** Nothing exceeds an unbounded duration. *)
Lemma py_gt_inf (v : value) (b : bool) :
  py_gt v (VFloat FInf) = Ok b -> b = false.
Proof.
  unfold py_gt, py_cmp. simpl. destruct (as_num v) as [[] |]; simpl; congruence.
Qed.

Lemma str_app_inv_head (p a b : string) :
  (p ++ a)%string = (p ++ b)%string -> a = b.
Proof.
  induction p as [| c p IH]; simpl; auto. intro H. injection H as H. auto.
Qed.

Lemma M_eq {A : Type} (m : M A) (o : res A) (cs : list call) :
  outcome m = o -> calls m = cs -> m = (o, cs).
Proof. destruct m; simpl; congruence. Qed.

Lemma all_calls_impl {A : Type} (P Q : call -> bool) (m : M A) :
  (forall c, P c = true -> Q c = true) -> all_calls P m -> all_calls Q m.
Proof.
  unfold all_calls. intros H. induction (calls m) as [| c cs IH]; simpl; auto.
  rewrite !andb_true_iff. intros [Hc Hcs]. auto.
Qed.

Lemma all_calls_not_in {A : Type} (target : string) (m : M A) :
  all_calls (is_not_error target) m -> ~ In (AddError target) (calls m).
Proof.
  unfold all_calls. rewrite forallb_forall. intros H Hin.
  specialize (H _ Hin). simpl in H. now rewrite String.eqb_refl in H.
Qed.

(** A token with numeric bounds, in a segment with numeric bounds: the
    pass reports exactly the violated clauses, and does not raise. *)
Lemma temporal_token_numeric (t0 t1 : value) (td : dict) (a b x y : pyfloat) :
  as_num t0 = Some a -> as_num t1 = Some b ->
  as_num (dict_get td "t0" VNone) = Some x ->
  as_num (dict_get td "t1" VNone) = Some y ->
  temporal_token t0 t1 (VDict td) =
  (Ok tt, nesting_errors t0 t1 (dict_get td "id" (VStr "<unknown>"))
            (dict_get td "t0" VNone) (dict_get td "t1" VNone) a b x y).
Proof.
  intros Ha Hb Hx Hy. unfold temporal_token, py_get, add_error.
  rewrite !bind_lift_ok.
  rewrite (as_num_not_none _ _ Hx), (as_num_not_none _ _ Hy). cbn [orb].
  rewrite (py_lt_num _ _ _ _ Hx Ha), bind_lift_ok.
  apply M_eq.
  - rewrite outcome_bind_when, (py_gt_num _ _ _ _ Hy Hb), bind_lift_ok.
    rewrite outcome_bind_when, (py_le_num _ _ _ _ Hy Hx), bind_lift_ok.
    apply outcome_when.
  - rewrite calls_bind_when, (py_gt_num _ _ _ _ Hy Hb), bind_lift_ok.
    rewrite calls_bind_when, (py_le_num _ _ _ _ Hy Hx), bind_lift_ok.
    now rewrite calls_when.
Qed.

(** Whatever the token, the calls of its check are errors about a token. *)
Lemma temporal_token_calls (t0 t1 tok : value) :
  all_calls is_token_error (temporal_token t0 t1 tok).
Proof.
  unfold temporal_token. walk_pass; now apply all_calls_emit.
Qed.


Lemma segment_messages_distinct (i t0 t1 d : value) :
  ("Segment " ++ py_str i ++ ": missing t0")%string <> segment_duration_msg i t1 d /\
  ("Segment " ++ py_str i ++ ": missing t1")%string <> segment_duration_msg i t1 d /\
  segment_t0_msg i t0 <> segment_duration_msg i t1 d /\
  segment_order_msg i t1 t0 <> segment_duration_msg i t1 d.
Proof.
  unfold segment_t0_msg, segment_order_msg, segment_duration_msg.
  repeat split; intro H;
    apply (str_app_inv_head "Segment ") in H;
    apply (str_app_inv_head (py_str i)) in H;
    try (simpl in H; discriminate).
  apply (str_app_inv_head ": t1 (") in H.
  apply (str_app_inv_head (py_str t1)) in H.
  simpl in H; discriminate.
Qed.

Lemma AddError_inj (m m' : string) : AddError m = AddError m' -> m = m'.
Proof. congruence. Qed.

Lemma is_not_error_neq (msg target : string) :
  msg <> target -> is_not_error target (AddError msg) = true.
Proof. intro H. simpl. now apply negb_true_iff, String.eqb_neq. Qed.

Lemma token_error_is_not (i t1 d : value) (c : call) :
  is_token_error c = true ->
  is_not_error (segment_duration_msg i t1 d) c = true.
Proof.
  destruct c as [msg | | |]; simpl; auto. intro H.
  apply negb_true_iff, String.eqb_neq. intros ->. discriminate.
Qed.

(** A segment with numeric bounds, under a numeric duration. *)
Lemma temporal_segment_numeric (duration : value) (sd : dict) (a b d : pyfloat) :
  as_num (dict_get sd "t0" VNone) = Some a ->
  as_num (dict_get sd "t1" VNone) = Some b ->
  as_num duration = Some d ->
  let tokens :=
    toks <- lift (py_iter (dict_get sd "tokens" (VList []))) ;;
    for_each toks (temporal_token (dict_get sd "t0" VNone) (dict_get sd "t1" VNone)) in
  calls (temporal_segment duration (VDict sd)) =
    segment_errors (dict_get sd "id" (VStr "<unknown>")) (dict_get sd "t0" VNone)
      (dict_get sd "t1" VNone) duration a b d ++ calls tokens /\
  outcome (temporal_segment duration (VDict sd)) = outcome tokens.
Proof.
  intros Ha Hb Hd tokens. unfold temporal_segment, py_get, add_error.
  rewrite !bind_lift_ok.
  rewrite (as_num_not_none _ _ Ha), (as_num_not_none _ _ Hb).
  assert (H0 : as_num (VInt 0) = Some (FFin 0)) by reflexivity.
  rewrite (py_lt_num _ _ _ _ Ha H0), bind_lift_ok. split.
  - rewrite calls_bind_when, (py_le_num _ _ _ _ Hb Ha), bind_lift_ok.
    rewrite calls_bind_when, (py_gt_num _ _ _ _ Hb Hd), bind_lift_ok.
    rewrite calls_bind_when.
    unfold segment_errors. now rewrite <- !app_assoc.
  - rewrite outcome_bind_when, (py_le_num _ _ _ _ Hb Ha), bind_lift_ok.
    rewrite outcome_bind_when, (py_gt_num _ _ _ _ Hb Hd), bind_lift_ok.
    now rewrite outcome_bind_when.
Qed.

(** Under an unbounded duration no segment is told that its [t1] exceeds
    the duration, whatever the segment holds. *)
Lemma temporal_segment_unbounded (sd : dict) (D' : value) :
  all_calls
    (is_not_error (segment_duration_msg (dict_get sd "id" (VStr "<unknown>"))
                     (dict_get sd "t1" VNone) D'))
    (temporal_segment (VFloat FInf) (VDict sd)).
Proof.
  destruct (segment_messages_distinct (dict_get sd "id" (VStr "<unknown>"))
              (dict_get sd "t0" VNone) (dict_get sd "t1" VNone) D')
    as (N0 & N1 & Nt & No).
  unfold temporal_segment, py_get. rewrite !bind_lift_ok.
  destruct (is_none (dict_get sd "t0" VNone));
    [now apply all_calls_emit, is_not_error_neq |].
  destruct (is_none (dict_get sd "t1" VNone));
    [now apply all_calls_emit, is_not_error_neq |].
  apply all_calls_bind; [apply all_calls_lift | intro b0].
  apply all_calls_bind;
    [now apply all_calls_when, all_calls_emit, is_not_error_neq | intros _].
  apply all_calls_bind; [apply all_calls_lift | intro b1].
  apply all_calls_bind;
    [now apply all_calls_when, all_calls_emit, is_not_error_neq | intros _].
  destruct (py_gt (dict_get sd "t1" VNone) (VFloat FInf)) as [b2 | e] eqn:G;
    [| rewrite bind_lift_raise; reflexivity].
  apply py_gt_inf in G; subst b2. rewrite bind_lift_ok. cbn [when].
  rewrite bind_ret.
  apply all_calls_bind; [apply all_calls_lift | intro toks].
  apply all_calls_for_each; intro tok.
  eapply all_calls_impl; [apply token_error_is_not | apply temporal_token_calls].
Qed.

Lemma for_each_block {A : Type} (pre post : list A) (x : A) (body : A -> M unit) :
  outcome (for_each pre body) = Ok tt ->
  calls (for_each (pre ++ x :: post) body) =
  calls (for_each pre body) ++ calls (body x) ++
  match outcome (body x) with
  | Ok _ => calls (for_each post body)
  | Raise _ => []
  end.
Proof.
  intro H. rewrite calls_for_each_app, H. simpl. now rewrite calls_bind.
Qed.


(** C5. When the document gives no [audio.duration_s] the pass checks
    every segment against an unbounded duration, and no segment, whatever
    its [t1], is reported as exceeding the duration.  When the document
    gives [audio.duration_s = D], a segment whose [t0] and [t1] are numbers
    with [t1 > D] is reported exactly once as exceeding the duration, by
    the error that cites the segment's ID and the values of [t1] and [D]. *)
Theorem C5_duration_bound (doc : dict) :
  (duration_absent doc ->
   _validate_temporal_constraints doc =
     (segs <- lift (py_iter (dict_get doc "segments" (VList []))) ;;
      for_each segs (temporal_segment (VFloat FInf))) /\
   forall (sd : dict) (D' : value),
     ~ In (AddError (segment_duration_msg (dict_get sd "id" (VStr "<unknown>"))
                       (dict_get sd "t1" VNone) D'))
          (calls (temporal_segment (VFloat FInf) (VDict sd)))) /\
  (forall (D : value) (sd : dict) (a b d : pyfloat),
     duration_is doc D -> as_num D = Some d ->
     as_num (dict_get sd "t0" VNone) = Some a ->
     as_num (dict_get sd "t1" VNone) = Some b ->
     float_lt d b = true ->
     let exceeds :=
       AddError (segment_duration_msg (dict_get sd "id" (VStr "<unknown>"))
                   (dict_get sd "t1" VNone) D) in
     _validate_temporal_constraints doc =
       (segs <- lift (py_iter (dict_get doc "segments" (VList []))) ;;
        for_each segs (temporal_segment D)) /\
     exists before after,
       calls (temporal_segment D (VDict sd)) = before ++ exceeds :: after /\
       ~ In exceeds before /\ ~ In exceeds after).
Proof.
  split.
  - intro Habs. split.
    + unfold _validate_temporal_constraints, dict_get at 1.
      destruct Habs as [-> | (ad & -> & Hd)]; unfold py_get, dict_get at 1;
        [| rewrite Hd]; now rewrite bind_lift_ok.
    + intros sd D'. apply all_calls_not_in, temporal_segment_unbounded.
  - intros D sd a b d (ad & Haud & Hdur) Hd Ha Hb Hlt exceeds. split.
    + unfold _validate_temporal_constraints, dict_get at 1. rewrite Haud.
      unfold py_get, dict_get at 1. rewrite Hdur. now rewrite bind_lift_ok.
    + destruct (temporal_segment_numeric D sd a b d Ha Hb Hd) as [Hc _].
      destruct (segment_messages_distinct (dict_get sd "id" (VStr "<unknown>"))
                  (dict_get sd "t0" VNone) (dict_get sd "t1" VNone) D)
        as (_ & _ & Nt & No).
      rewrite Hc. unfold segment_errors. rewrite Hlt, <- !app_assoc.
      eexists. eexists. split; [rewrite app_assoc; reflexivity |]. split.
      * intro Hin. apply in_app_or in Hin. unfold exceeds in Hin.
        destruct Hin as [Hin | Hin].
        -- destruct (float_lt a (FFin 0)); [| destruct Hin].
           destruct Hin as [Hin | []]. now apply AddError_inj in Hin.
        -- destruct (float_le b a); [| destruct Hin].
           destruct Hin as [Hin | []]. now apply AddError_inj in Hin.
      * apply all_calls_not_in.
        apply all_calls_bind; [apply all_calls_lift | intro toks].
        apply all_calls_for_each; intro tok.
        eapply all_calls_impl; [apply token_error_is_not | apply temporal_token_calls].
Qed.

Lemma get_object (d : dict) (k : string) :
  object_or_absent d k = true ->
  py_get (VDict d) k (VDict []) = Ok (VDict (child d k)) /\
  dict_get d k (VDict []) = VDict (child d k).
Proof.
  unfold object_or_absent, child, py_get.
  destruct (dict_get d k (VDict [])); simpl; try discriminate. auto.
Qed.

Lemma bind_pair_ok {A B : Type} (a : A) (cs : list call) (f : A -> M B) :
  bind (Ok a, cs) f = (outcome (f a), cs ++ calls (f a)).
Proof. unfold bind. now destruct (f a). Qed.

Lemma for_each_shaped {A : Type} (l : list A) (body : A -> M unit)
    (report : A -> list call) :
  (forall x, In x l -> body x = (Ok tt, report x)) ->
  for_each l body = (Ok tt, flat_map report l).
Proof.
  induction l as [| x l IH]; intro H; simpl; auto.
  rewrite (H x (or_introl eq_refl)), IH by (intros; apply H; now right).
  reflexivity.
Qed.

(** ** Numeric ranges (C8) *)

Lemma float_lt_fin (p q : Q) : float_lt (FFin p) (FFin q) = true <-> (p < q)%Q.
Proof.
  simpl. rewrite negb_true_iff. split.
  - intro H. apply Qnot_le_lt. intro Hle. apply Qle_bool_iff in Hle. congruence.
  - intro H. destruct (Qle_bool q p) eqn:E; auto.
    apply Qle_bool_iff in E. now apply Qlt_not_le in H.
Qed.

Lemma check_unit_numeric (v : value) (x : pyfloat) (path : string) :
  as_num v = Some x ->
  check_unit v path =
  (Ok tt, if outside (FFin 0) (FFin 1) x then [AddError (unit_range_msg path v)]
          else []).
Proof.
  intro Hx. unfold check_unit, outside. rewrite (as_num_not_none _ _ Hx). cbn [negb].
  assert (H0 : as_num (VInt 0) = Some (FFin 0)) by reflexivity.
  assert (H1 : as_num (VInt 1) = Some (FFin 1)) by reflexivity.
  rewrite (py_lt_num _ _ _ _ Hx H0), bind_lift_ok.
  destruct (float_lt x (FFin 0)); cbn [orb].
  - now rewrite bind_ret.
  - rewrite (py_gt_num _ _ _ _ Hx H1), bind_lift_ok.
    now destruct (float_lt (FFin 1) x).
Qed.

Lemma check_signed_unit_numeric (v : value) (x : pyfloat) (path : string) :
  as_num v = Some x ->
  check_signed_unit v path =
  (Ok tt, if outside (FFin (-1)) (FFin 1) x then [AddError (signed_range_msg path v)]
          else []).
Proof.
  intro Hx. unfold check_signed_unit, outside. rewrite (as_num_not_none _ _ Hx).
  cbn [negb].
  assert (H0 : as_num (VInt (-1)) = Some (FFin (-1))) by reflexivity.
  assert (H1 : as_num (VInt 1) = Some (FFin 1)) by reflexivity.
  rewrite (py_lt_num _ _ _ _ Hx H0), bind_lift_ok.
  destruct (float_lt x (FFin (-1))); cbn [orb].
  - now rewrite bind_ret.
  - rewrite (py_gt_num _ _ _ _ Hx H1), bind_lift_ok.
    now destruct (float_lt (FFin 1) x).
Qed.

Lemma outside_fin (lo hi q : Q) :
  outside (FFin lo) (FFin hi) (FFin q) = true <-> (q < lo \/ hi < q)%Q.
Proof. unfold outside. now rewrite orb_true_iff, !float_lt_fin. Qed.

Lemma inside_fin (lo hi q : Q) :
  outside (FFin lo) (FFin hi) (FFin q) = false <-> (lo <= q /\ q <= hi)%Q.
Proof.
  unfold outside. rewrite orb_false_iff. simpl. rewrite !negb_false_iff.
  now rewrite !Qle_bool_iff.
Qed.

(** The fields of an emotion track and the checker each one goes through
    (lines 258-262). *)
Lemma check_emotion_fields (ed vd : dict) (path : string) :
  dict_get ed "vad" (VDict []) = VDict vd ->
  check_emotion (VDict ed) path =
  (check_signed_unit (dict_get vd "valence" VNone) (path ++ ".vad.valence") ;;
   check_unit (dict_get vd "arousal" VNone) (path ++ ".vad.arousal") ;;
   check_unit (dict_get vd "dominance" VNone) (path ++ ".vad.dominance") ;;
   check_unit (dict_get ed "confidence" VNone) (path ++ ".confidence")).
Proof.
  intro H. unfold check_emotion, py_get. rewrite bind_lift_ok, H.
  now rewrite !bind_lift_ok.
Qed.

(** The fields of a voice-quality track (lines 265-266). *)
Lemma check_voice_quality_fields (qd : dict) (path : string) :
  check_voice_quality (VDict qd) path =
  for_each voice_quality_keys
    (fun key => check_unit (dict_get qd key VNone) (path ++ "." ++ key)).
Proof.
  unfold check_voice_quality, voice_quality_keys, py_get. simpl.
  now rewrite !bind_lift_ok.
Qed.

(** *** The pass as a whole *)

Lemma check_unit_shaped (v : value) (path : string) :
  number_or_null v = true -> check_unit v path = (Ok tt, unit_error path v).
Proof.
  unfold number_or_null, unit_error, range_error. intro H.
  destruct (as_num v) as [x |] eqn:E.
  - apply (check_unit_numeric v x path E).
  - destruct v; try discriminate H; try discriminate E. reflexivity.
Qed.

Lemma check_signed_unit_shaped (v : value) (path : string) :
  number_or_null v = true ->
  check_signed_unit v path = (Ok tt, signed_error path v).
Proof.
  unfold number_or_null, signed_error, range_error. intro H.
  destruct (as_num v) as [x |] eqn:E.
  - apply (check_signed_unit_numeric v x path E).
  - destruct v; try discriminate H; try discriminate E. reflexivity.
Qed.

Lemma check_emotion_shaped (e : value) (path : string) :
  emotion_ok e = true ->
  check_emotion e path = (Ok tt, emotion_errors path e).
Proof.
  destruct e as [| | | | | | ed]; try discriminate.
  unfold emotion_ok. rewrite !andb_true_iff.
  intros ((((Hvad & Hv) & Ha) & Hd) & Hc).
  destruct (get_object _ _ Hvad) as [_ Hget].
  rewrite (check_emotion_fields ed _ path Hget).
  rewrite (check_signed_unit_shaped _ _ Hv), bind_pair_ok.
  rewrite (check_unit_shaped _ _ Ha), bind_pair_ok.
  rewrite (check_unit_shaped _ _ Hd), bind_pair_ok.
  rewrite (check_unit_shaped _ _ Hc).
  reflexivity.
Qed.

Lemma check_voice_quality_shaped (q : value) (path : string) :
  voice_quality_ok q = true ->
  check_voice_quality q path = (Ok tt, voice_quality_errors path q).
Proof.
  destruct q as [| | | | | | qd]; try discriminate.
  unfold voice_quality_ok. rewrite forallb_forall. intro H.
  rewrite check_voice_quality_fields.
  apply for_each_shaped. intros key Hin.
  apply check_unit_shaped, H, Hin.
Qed.

Lemma check_field_shaped (field path : string) (o : value) :
  field_ok field o = true ->
  (c <- lift (py_get o field VNone) ;; check_unit c path) =
  (Ok tt, field_errors field path o).
Proof.
  destruct o as [| | | | | | d]; try discriminate.
  unfold field_ok, py_get. intro H. rewrite bind_lift_ok.
  now apply check_unit_shaped.
Qed.

Lemma check_if_present_shaped (key : string) (t : dict)
    (check : value -> M unit) (ok : value -> bool)
    (errs : value -> list call) :
  (forall x, ok x = true -> check x = (Ok tt, errs x)) ->
  when_present key t ok = true ->
  check_if_present key (VDict t) check =
  (Ok tt, errors_when_present key t errs).
Proof.
  intros Hcheck. unfold when_present, errors_when_present, check_if_present.
  unfold py_contains, py_getitem, dict_has. rewrite bind_lift_ok.
  destruct (dict_lookup key t) as [x |]; [| reflexivity].
  intro Hok. rewrite bind_lift_ok. now apply Hcheck.
Qed.

Lemma ranges_token_shaped (j : nat) (tok : value) :
  ranges_token_ok tok = true ->
  ranges_token (j, tok) = (Ok tt, token_range_errors (j, tok)).
Proof.
  destruct tok as [| | | | | | td]; try discriminate.
  unfold ranges_token_ok. rewrite !andb_true_iff.
  intros (((Htr & He) & Hq) & Ht).
  unfold ranges_token. unfold py_get at 1. rewrite bind_lift_ok.
  fold (token_label j td).
  destruct (get_object _ _ Htr) as [-> _]. rewrite bind_lift_ok.
  rewrite (check_if_present_shaped "emotion" _ _ emotion_ok
             (emotion_errors (token_label j td ++ ".tracks.emotion")))
    by (try exact He; intros x Hx; now apply check_emotion_shaped).
  rewrite bind_pair_ok.
  rewrite (check_if_present_shaped "voice_quality" _ _ voice_quality_ok
             (voice_quality_errors (token_label j td ++ ".tracks.voice_quality")))
    by (try exact Hq; intros x Hx; now apply check_voice_quality_shaped).
  rewrite bind_pair_ok.
  rewrite (check_if_present_shaped "tone" _ _ (field_ok "confidence")
             (field_errors "confidence"
                (token_label j td ++ ".tracks.tone.confidence")))
    by (try exact Ht; intros x Hx; now apply check_field_shaped).
  reflexivity.
Qed.

Lemma enumerate_members (l : list value) (j : nat) (x : value) :
  In (j, x) (enumerate l) -> In x l.
Proof. unfold enumerate. apply in_combine_r. Qed.

Lemma ranges_tokens_shaped (toks : list value) :
  forallb ranges_token_ok toks = true ->
  for_each (enumerate toks) ranges_token =
  (Ok tt, flat_map token_range_errors (enumerate toks)).
Proof.
  rewrite forallb_forall. intro H. apply for_each_shaped.
  intros [j tok] Hin. apply ranges_token_shaped, H.
  exact (enumerate_members _ _ _ Hin).
Qed.

Lemma ranges_segment_shaped (i : nat) (seg : value) :
  ranges_segment_ok seg = true ->
  ranges_segment (i, seg) = (Ok tt, segment_range_errors (i, seg)).
Proof.
  destruct seg as [| | | | | | sd]; try discriminate.
  unfold ranges_segment_ok. rewrite !andb_true_iff.
  intros ((((Htr & He) & Hq) & Hd) & Htoks).
  unfold ranges_segment. unfold py_get at 1. rewrite bind_lift_ok.
  fold (segment_label i sd).
  destruct (get_object _ _ Htr) as [-> _]. rewrite bind_lift_ok.
  rewrite (check_if_present_shaped "emotion" _ _ emotion_ok
             (emotion_errors (segment_label i sd ++ ".tracks.emotion")))
    by (try exact He; intros x Hx; now apply check_emotion_shaped).
  rewrite bind_pair_ok.
  rewrite (check_if_present_shaped "voice_quality" _ _ voice_quality_ok
             (voice_quality_errors (segment_label i sd ++ ".tracks.voice_quality")))
    by (try exact Hq; intros x Hx; now apply check_voice_quality_shaped).
  rewrite bind_pair_ok.
  rewrite (check_if_present_shaped "delivery" _ _ (field_ok "clarity")
             (field_errors "clarity"
                (segment_label i sd ++ ".tracks.delivery.clarity")))
    by (try exact Hd; intros x Hx; now apply check_field_shaped).
  rewrite bind_pair_ok. unfold py_get. rewrite bind_lift_ok.
  unfold segment_range_errors, tokens_of.
  destruct (dict_get sd "tokens" (VList [])) as [| | | | | toks |];
    try discriminate Htoks.
  unfold py_iter. rewrite bind_lift_ok, (ranges_tokens_shaped toks Htoks).
  reflexivity.
Qed.

Lemma ranges_shaped (doc : dict) :
  ranges_ok doc = true -> _validate_ranges doc = (Ok tt, range_errors doc).
Proof.
  unfold ranges_ok. rewrite !andb_true_iff.
  intros ((((Hd & Hs) & He) & Hq) & Hsegs).
  unfold _validate_ranges.
  destruct (get_object _ _ Hd) as [_ ->].
  destruct (get_object _ _ Hs) as [-> _]. rewrite bind_lift_ok.
  rewrite (check_if_present_shaped "emotion" _ _ emotion_ok
             (emotion_errors "defaults.style.emotion"))
    by (try exact He; intros x Hx; now apply check_emotion_shaped).
  rewrite bind_pair_ok.
  rewrite (check_if_present_shaped "voice_quality" _ _ voice_quality_ok
             (voice_quality_errors "defaults.style.voice_quality"))
    by (try exact Hq; intros x Hx; now apply check_voice_quality_shaped).
  rewrite bind_pair_ok.
  unfold range_errors, segments_of.
  destruct (dict_get doc "segments" (VList [])) as [| | | | | segs |];
    try discriminate Hsegs.
  unfold py_iter. rewrite bind_lift_ok.
  rewrite forallb_forall in Hsegs.
  rewrite (for_each_shaped (enumerate segs) ranges_segment segment_range_errors).
  - reflexivity.
  - intros [i seg] Hin. apply ranges_segment_shaped, Hsegs.
    exact (enumerate_members _ _ _ Hin).
Qed.

Lemma combine_seq_In (l : list value) (x : value) :
  forall i start : nat,
    nth_error l i = Some x ->
    In (start + i, x) (combine (seq start (List.length l)) l).
Proof.
  induction l as [| y l IH]; intros [| i] start H; try discriminate.
  - cbn in *. injection H as ->. left. now rewrite Nat.add_0_r.
  - cbn [List.length seq combine In]. right.
    replace (start + S i) with (S start + i) by lia. now apply IH.
Qed.

Lemma enumerate_In (l : list value) (i : nat) (x : value) :
  nth_error l i = Some x -> In (i, x) (enumerate l).
Proof. intro H. exact (combine_seq_In l x i 0 H). Qed.

Lemma segment_error_reported (doc : dict) (i : nat) (seg : value) (c : call) :
  ranges_ok doc = true ->
  nth_error (segments_of doc) i = Some seg ->
  In c (segment_range_errors (i, seg)) ->
  In c (calls (_validate_ranges doc)).
Proof.
  intros Hok Hi Hc. rewrite (ranges_shaped doc Hok). cbn [calls snd].
  unfold range_errors. rewrite !in_app_iff. right. right.
  apply in_flat_map. exists (i, seg). split; [| exact Hc].
  now apply enumerate_In.
Qed.

Lemma unit_error_outside (path : string) (v : value) (x : pyfloat) :
  as_num v = Some x -> outside (FFin 0) (FFin 1) x = true ->
  unit_error path v = [AddError (unit_range_msg path v)].
Proof. unfold unit_error, range_error. now intros -> ->. Qed.

(** C8. A unit-range check of a number reports one error exactly when the
    number is strictly below 0 or strictly above 1, and a signed-unit check
    exactly when it is strictly below -1 or strictly above 1, so the bounds
    themselves are accepted; an absent field (read as [None]) is never
    reported.  Valence goes through the signed-unit check, and arousal,
    dominance, confidence and the five voice-quality fields through the
    unit check.  The pass applies these checks to the whole document: on a
    document it can read it completes, and its calls are, in document
    order, the errors so earned by the emotion and the voice quality of
    the default style and, for each segment, by its emotion, its voice
    quality and its [delivery.clarity], followed for each of its tokens by
    the token's emotion, voice quality and [tone.confidence]; in
    particular a clarity or a tone confidence outside [0, 1] is
    reported under the name of its segment or token. *)
Theorem C8_inclusive_ranges (path : string) :
  (forall (v : value) (x : pyfloat),
     as_num v = Some x ->
     check_unit v path =
       (Ok tt, if outside (FFin 0) (FFin 1) x
               then [AddError (unit_range_msg path v)] else []) /\
     check_signed_unit v path =
       (Ok tt, if outside (FFin (-1)) (FFin 1) x
               then [AddError (signed_range_msg path v)] else [])) /\
  (forall (v : value) (q : Q),
     as_num v = Some (FFin q) ->
     ((0 <= q /\ q <= 1)%Q -> check_unit v path = (Ok tt, [])) /\
     ((q < 0 \/ 1 < q)%Q ->
      check_unit v path = (Ok tt, [AddError (unit_range_msg path v)])) /\
     ((-1 <= q /\ q <= 1)%Q -> check_signed_unit v path = (Ok tt, [])) /\
     ((q < -1 \/ 1 < q)%Q ->
      check_signed_unit v path = (Ok tt, [AddError (signed_range_msg path v)]))) /\
  (check_unit VNone path = (Ok tt, []) /\
   check_signed_unit VNone path = (Ok tt, [])) /\
  (forall ed vd, dict_get ed "vad" (VDict []) = VDict vd ->
     check_emotion (VDict ed) path =
     (check_signed_unit (dict_get vd "valence" VNone) (path ++ ".vad.valence") ;;
      check_unit (dict_get vd "arousal" VNone) (path ++ ".vad.arousal") ;;
      check_unit (dict_get vd "dominance" VNone) (path ++ ".vad.dominance") ;;
      check_unit (dict_get ed "confidence" VNone) (path ++ ".confidence"))) /\
  (forall qd,
     check_voice_quality (VDict qd) path =
     for_each ["creak"; "breathiness"; "nasal"; "tension"; "smile"]
       (fun key => check_unit (dict_get qd key VNone) (path ++ "." ++ key))) /\
  (forall doc : dict,
     ranges_ok doc = true ->
     _validate_ranges doc = (Ok tt, range_errors doc)) /\
  (forall (v : value) (q : Q),
     as_num v = Some (FFin q) ->
     (unit_error path v = [] <-> (0 <= q /\ q <= 1)%Q) /\
     (unit_error path v = [AddError (unit_range_msg path v)] <->
      (q < 0 \/ 1 < q)%Q) /\
     (signed_error path v = [] <-> (-1 <= q /\ q <= 1)%Q) /\
     (signed_error path v = [AddError (signed_range_msg path v)] <->
      (q < -1 \/ 1 < q)%Q)) /\
  (unit_error path VNone = [] /\ signed_error path VNone = []) /\
  (forall (doc : dict) (i : nat) (sd d : dict) (x : pyfloat),
     ranges_ok doc = true ->
     nth_error (segments_of doc) i = Some (VDict sd) ->
     dict_lookup "delivery" (child sd "tracks") = Some (VDict d) ->
     as_num (dict_get d "clarity" VNone) = Some x ->
     outside (FFin 0) (FFin 1) x = true ->
     In (AddError
           (unit_range_msg (segment_label i sd ++ ".tracks.delivery.clarity")
              (dict_get d "clarity" VNone)))
       (calls (_validate_ranges doc))) /\
  (forall (doc : dict) (i j : nat) (sd td d : dict) (x : pyfloat),
     ranges_ok doc = true ->
     nth_error (segments_of doc) i = Some (VDict sd) ->
     nth_error (tokens_of (VDict sd)) j = Some (VDict td) ->
     dict_lookup "tone" (child td "tracks") = Some (VDict d) ->
     as_num (dict_get d "confidence" VNone) = Some x ->
     outside (FFin 0) (FFin 1) x = true ->
     In (AddError
           (unit_range_msg (token_label j td ++ ".tracks.tone.confidence")
              (dict_get d "confidence" VNone)))
       (calls (_validate_ranges doc))).
Proof.
  split; [| split; [| split; [| split; [| split; [| split; [| split;
    [| split; [| split]]]]]]]].
  - intros v x Hx. split;
      [apply check_unit_numeric | apply check_signed_unit_numeric]; exact Hx.
  - intros v q Hx.
    rewrite (check_unit_numeric v _ path Hx),
      (check_signed_unit_numeric v _ path Hx).
    repeat split; intro H.
    + apply inside_fin in H. now rewrite H.
    + apply outside_fin in H. now rewrite H.
    + apply (inside_fin (-1) 1) in H. now rewrite H.
    + apply (outside_fin (-1) 1) in H. now rewrite H.
  - split; reflexivity.
  - intros ed vd H; now apply check_emotion_fields.
  - intro qd; apply check_voice_quality_fields.
  - exact ranges_shaped.
  - intros v q Hx. unfold unit_error, signed_error, range_error. rewrite Hx.
    rewrite <- !inside_fin, <- !outside_fin.
    repeat split;
      try (intro H;
           match type of H with
           | _ = true => now rewrite H
           | _ = false => now rewrite H
           | _ => destruct (outside _ _ (FFin q));
                  [reflexivity || discriminate H
                  | reflexivity || discriminate H]
           end).
  - split; reflexivity.
  - intros doc i sd d x Hok Hi Hd Hx Hout.
    apply (segment_error_reported doc i (VDict sd) _ Hok Hi).
    cbn [segment_range_errors]. rewrite !in_app_iff. right. right. left.
    unfold errors_when_present. rewrite Hd. cbn [field_errors].
    rewrite (unit_error_outside _ _ x Hx Hout). now left.
  - intros doc i j sd td d x Hok Hi Hj Hd Hx Hout.
    apply (segment_error_reported doc i (VDict sd) _ Hok Hi).
    cbn [segment_range_errors]. rewrite !in_app_iff. right. right. right.
    apply in_flat_map. exists (j, VDict td).
    split; [now apply enumerate_In |].
    cbn [token_range_errors]. rewrite !in_app_iff. right. right.
    unfold errors_when_present. rewrite Hd. cbn [field_errors].
    rewrite (unit_error_outside _ _ x Hx Hout). now left.
Qed.

(** ** Tonal requirements (C7) *)

Lemma lang_prefix_tonal (lang : value) :
  tonal_tag lang = true ->
  exists p, lang_prefix lang = Ok p /\ in_tonal_langs p = true.
Proof.
  destruct lang; simpl; try discriminate. intro H.
  unfold lang_prefix. simpl. destruct (String.eqb s "") eqn:E; simpl; eauto.
  apply String.eqb_eq in E; subst. discriminate.
Qed.

Lemma lang_prefix_not_tonal (lang : value) (p : string) :
  tonal_tag lang = false -> lang_prefix lang = Ok p -> in_tonal_langs p = false.
Proof.
  unfold lang_prefix. destruct (truthy lang) eqn:T.
  - destruct lang; try discriminate. simpl. congruence.
  - intros _ [= <-]. reflexivity.
Qed.

Lemma tonal_never_errors (doc : dict) :
  all_calls is_warning (_validate_tonal_requirements doc).
Proof.
  unfold _validate_tonal_requirements, tonal_segment, tonal_token.
  walk_pass; now apply all_calls_emit.
Qed.

Lemma warnings_no_error (cs : list call) :
  forallb is_warning cs = true -> error_msgs cs = [].
Proof.
  induction cs as [| c cs IH]; simpl; auto.
  destruct c; simpl; try discriminate; auto.
Qed.

Lemma tonal_token_shaped (tok : value) :
  tonal_token_ok tok = true -> tonal_token tok = (Ok tt, lexical_warning tok).
Proof.
  destruct tok as [| | | | | | td]; simpl; try discriminate.
  unfold tonal_token, py_get. rewrite !bind_lift_ok.
  fold (lexical_kind (dict_get td "kind" (VStr "word"))).
  destruct (lexical_kind (dict_get td "kind" (VStr "word"))); simpl; auto.
  rewrite andb_true_iff. intros [Htr Htn].
  destruct (get_object _ _ Htr) as [_ ->].
  destruct (get_object _ _ Htn) as [_ ->].
  rewrite !bind_lift_ok. unfold py_contains. rewrite bind_lift_ok.
  now destruct (dict_has "lexical" (child (child td "tracks") "tone")).
Qed.

Lemma tonal_segment_not_tonal (default : value) (sd : dict) :
  tonal_tag (dict_get sd "language" default) = false ->
  calls (tonal_segment default (VDict sd)) = [].
Proof.
  intro H. unfold tonal_segment, py_get. rewrite !bind_lift_ok.
  destruct (lang_prefix (dict_get sd "language" default)) as [p | e] eqn:E.
  - rewrite bind_lift_ok, (lang_prefix_not_tonal _ _ H E). reflexivity.
  - reflexivity.
Qed.

Lemma tonal_segment_shaped (default : value) (sd : dict) (toks : list value) :
  tonal_tag (dict_get sd "language" default) = true ->
  object_or_absent sd "tracks" = true ->
  object_or_absent (child sd "tracks") "tone" = true ->
  dict_get sd "tokens" (VList []) = VList toks ->
  forallb tonal_token_ok toks = true ->
  tonal_segment default (VDict sd) =
  (Ok tt,
   (if dict_has "system" (child (child sd "tracks") "tone") then []
    else [AddWarning (tonal_segment_msg (dict_get sd "id" (VStr "<unknown>"))
                        (dict_get sd "language" default))]) ++
   flat_map lexical_warning toks).
Proof.
  intros Hlang Htr Htn Htoks Hok.
  destruct (lang_prefix_tonal _ Hlang) as (p & Hp & Hin).
  unfold tonal_segment, py_get, add_warning. rewrite !bind_lift_ok.
  rewrite Hp, bind_lift_ok, Hin.
  destruct (get_object _ _ Htr) as [_ ->]. rewrite ?bind_lift_ok.
  destruct (get_object _ _ Htn) as [_ ->]. rewrite ?bind_lift_ok.
  unfold py_contains. rewrite ?bind_lift_ok, Htoks.
  assert (Hloop : for_each toks tonal_token = (Ok tt, flat_map lexical_warning toks)).
  { apply for_each_shaped. intros x Hx. apply tonal_token_shaped.
    rewrite forallb_forall in Hok. auto. }
  apply M_eq.
  - rewrite outcome_bind_when. unfold py_iter.
    now rewrite ?bind_lift_ok, Hloop.
  - rewrite calls_bind_when. unfold py_iter.
    rewrite ?bind_lift_ok, Hloop.
    now destruct (dict_has "system" (child (child sd "tracks") "tone")).
Qed.

(** C7. The tonal pass never reports an error.  It reads each segment's
    effective language as the segment's own [language], else
    [defaults.language].  A segment whose effective language is not a tonal
    tag (primary subtag before any hyphen, compared in lower case) earns no
    warning.  A segment whose effective language is tonal earns one warning
    when it has no [tracks.tone.system], followed by one warning for each of
    its tokens of kind word, morpheme or char (default word) that has no
    [tracks.tone.lexical], and nothing else. *)
Theorem C7_tonal_warnings (doc : dict) :
  error_msgs (calls (_validate_tonal_requirements doc)) = [] /\
  (object_or_absent doc "defaults" = true ->
   _validate_tonal_requirements doc =
   (segs <- lift (py_iter (dict_get doc "segments" (VList []))) ;;
    for_each segs
      (tonal_segment (dict_get (child doc "defaults") "language" (VStr ""))))) /\
  (forall (default : value) (sd : dict),
     let lang := dict_get sd "language" default in
     (tonal_tag lang = false -> calls (tonal_segment default (VDict sd)) = []) /\
     (forall toks : list value,
        tonal_tag lang = true ->
        object_or_absent sd "tracks" = true ->
        object_or_absent (child sd "tracks") "tone" = true ->
        dict_get sd "tokens" (VList []) = VList toks ->
        forallb tonal_token_ok toks = true ->
        tonal_segment default (VDict sd) =
        (Ok tt,
         (if dict_has "system" (child (child sd "tracks") "tone") then []
          else [AddWarning (tonal_segment_msg (dict_get sd "id" (VStr "<unknown>"))
                              lang)]) ++
         flat_map lexical_warning toks))).
Proof.
  split; [apply warnings_no_error, tonal_never_errors |].
  split.
  - intro Hd. unfold _validate_tonal_requirements.
    destruct (get_object _ _ Hd) as [_ ->]. unfold py_get.
    now rewrite bind_lift_ok.
  - intros default sd lang. split.
    + apply tonal_segment_not_tonal.
    + intros toks. apply tonal_segment_shaped.
Qed.

(** ** Profile detection (C2) *)

Lemma dict_lookup_set_eq (k : string) (v : value) (d : dict) :
  dict_lookup k (dict_set k v d) = Some v.
Proof.
  induction d as [| [k' v'] d IH]; simpl.
  - now rewrite String.eqb_refl.
  - destruct (String.eqb k k') eqn:E; simpl.
    + now rewrite String.eqb_refl.
    + now rewrite E.
Qed.

Lemma dict_lookup_set_neq (k k' : string) (v : value) (d : dict) :
  k <> k' -> dict_lookup k' (dict_set k v d) = dict_lookup k' d.
Proof.
  intro N. induction d as [| [k0 v0] d IH]; simpl.
  - apply String.eqb_neq in N. rewrite String.eqb_sym in N. now rewrite N.
  - destruct (String.eqb k k0) eqn:E; simpl.
    + apply String.eqb_eq in E; subst k0.
      apply String.eqb_neq in N. rewrite String.eqb_sym in N. now rewrite N.
    + now rewrite IH.
Qed.

Lemma dict_get_set_neq (k k' : string) (v dflt : value) (d : dict) :
  k <> k' -> dict_get (dict_set k v d) k' dflt = dict_get d k' dflt.
Proof. intro N. unfold dict_get. now rewrite dict_lookup_set_neq. Qed.

Lemma dict_get_set_eq (k : string) (v dflt : value) (d : dict) :
  dict_get (dict_set k v d) k dflt = v.
Proof. unfold dict_get. now rewrite dict_lookup_set_eq. Qed.

Lemma any_in_dict (ks : list string) (d : dict) :
  any_in ks (VDict d) = Ok (existsb (fun k => dict_has k d) ks).
Proof.
  induction ks as [| k ks IH]; simpl; auto.
  destruct (dict_has k d); auto.
Qed.

Lemma lang_prefix_readable (lang : value) :
  readable_lang lang = true ->
  exists p, lang_prefix lang = Ok p /\ in_tonal_langs p = tonal_tag lang.
Proof.
  unfold lang_prefix. destruct lang; simpl; intro H;
    try (apply negb_true_iff in H; rewrite H);
    try (exists ""; split; reflexivity).
  destruct (String.eqb s "") eqn:E; simpl; eauto.
  apply String.eqb_eq in E; subst. eauto.
Qed.

Lemma profile_segment_shaped (default seg : value) (e t : bool) :
  profile_segment_ok default seg = true ->
  profile_segment default (e, t) seg =
  (Ok (expressive_segment seg || e, tonal_system_segment default seg || t), []).
Proof.
  intro Hok. destruct seg as [| | | | | | sd]; try discriminate Hok.
  unfold profile_segment_ok in Hok. rewrite !andb_true_iff in Hok.
  destruct Hok as [[Htr Hlang] Htn].
  destruct (lang_prefix_readable _ Hlang) as (p & Hp & Hin).
  unfold profile_segment, expressive_segment, tonal_system_segment.
  destruct (get_object _ _ Htr) as [-> _]. rewrite bind_lift_ok.
  rewrite any_in_dict, bind_lift_ok. unfold py_get at 1. rewrite bind_lift_ok.
  rewrite Hp, bind_lift_ok, Hin.
  assert (He : (if existsb (fun k => dict_has k (child sd "tracks")) expressive_keys
                then true else e) =
               existsb (fun k => dict_has k (child sd "tracks")) expressive_keys || e)
    by now destruct (existsb _ _).
  rewrite He.
  destruct (tonal_tag (dict_get sd "language" default)); [| reflexivity].
  unfold py_contains at 1. rewrite bind_lift_ok.
  destruct (dict_has "tone" (child sd "tracks")); [| reflexivity].
  destruct (get_object _ _ Htn) as [-> _]. rewrite bind_lift_ok.
  unfold py_contains. rewrite bind_lift_ok.
  now destruct (dict_has "system" (child (child sd "tracks") "tone")).
Qed.

Lemma scan_segments_shaped (default : value) (segs : list value) (e t : bool) :
  forallb (profile_segment_ok default) segs = true ->
  for_fold segs (e, t) (profile_segment default) =
  (Ok (existsb expressive_segment segs || e,
       existsb (tonal_system_segment default) segs || t), []).
Proof.
  revert e t; induction segs as [| seg segs IH]; intros e t;
    cbn [for_fold forallb existsb]; [reflexivity |].
  rewrite andb_true_iff. intros [Hseg Hsegs].
  rewrite (profile_segment_shaped _ _ _ _ Hseg).
  change (Ok (expressive_segment seg || e, tonal_system_segment default seg || t), [])
    with (@lift (bool * bool)
            (Ok (expressive_segment seg || e, tonal_system_segment default seg || t))).
  rewrite bind_lift_ok, (IH _ _ Hsegs).
  now rewrite !orb_assoc, (orb_comm (existsb _ segs)),
    (orb_comm (existsb (tonal_system_segment default) segs)).
Qed.

Lemma scan_flags_shaped (doc : dict) (segs : list value) :
  object_or_absent doc "defaults" = true ->
  dict_get doc "segments" (VList []) = VList segs ->
  forallb (profile_segment_ok (default_language doc)) segs = true ->
  scan_flags doc =
  (Ok (existsb expressive_segment segs,
       existsb (tonal_system_segment (default_language doc)) segs), []).
Proof.
  intros Hd Hsegs Hok. unfold scan_flags.
  destruct (get_object _ _ Hd) as [_ ->]. unfold py_get.
  rewrite bind_lift_ok, Hsegs. unfold py_iter. rewrite bind_lift_ok.
  fold (default_language doc).
  now rewrite (scan_segments_shaped _ _ _ _ Hok), !orb_false_r.
Qed.

Lemma scan_flags_silent (doc : dict) : calls (scan_flags doc) = [].
Proof.
  assert (H : all_calls no_call (scan_flags doc)).
  { unfold scan_flags, profile_segment. walk_pass. }
  unfold all_calls in H. destruct (calls (scan_flags doc)); [auto | discriminate].
Qed.

Lemma profile_after_infos (cs : list call) (r : ValidationResult) :
  forallb is_info cs = true -> profile (perform_all cs r) = profile r.
Proof.
  revert r; induction cs as [| c cs IH]; intro r; simpl; auto.
  destruct c; simpl; try discriminate. intro H.
  unfold perform_all in *. simpl. now rewrite IH.
Qed.

(** The profile slot is the tier of the flags the scan computed, and is
    left untouched when the scan raises. *)
Lemma detected_profile_scan (doc : dict) :
  detected_profile doc =
  match outcome (scan_flags doc) with
  | Ok (e, t) => Some (classify e t)
  | Raise _ => None
  end.
Proof.
  unfold detected_profile, run, _detect_profile.
  rewrite calls_bind, scan_flags_silent.
  destruct (outcome (scan_flags doc)) as [[e t] |]; [| reflexivity].
  cbn [app]. rewrite calls_bind. cbn [set_profile emit calls snd outcome fst app].
  unfold perform_all. cbn [fold_left perform].
  apply (profile_after_infos _ (ValidationResult.set_profile (classify e t) new_result)).
  change (all_calls is_info
            (declared <- lift (py_get (dict_get doc "meta" (VDict [])) "profile" VNone) ;;
             when (truthy declared)
               (add_info ("Declared profile: " ++ py_str declared)))).
  walk_pass. now apply all_calls_emit.
Qed.

Lemma detected_profile_shaped (doc : dict) (segs : list value) :
  object_or_absent doc "defaults" = true ->
  dict_get doc "segments" (VList []) = VList segs ->
  forallb (profile_segment_ok (default_language doc)) segs = true ->
  detected_profile doc =
  Some (classify (existsb expressive_segment segs)
          (existsb (tonal_system_segment (default_language doc)) segs)).
Proof.
  intros Hd Hsegs Hok.
  now rewrite detected_profile_scan, (scan_flags_shaped doc segs Hd Hsegs Hok).
Qed.

Lemma with_segments_shaped (doc : dict) (segs kept : list value) (keep : value -> bool) :
  object_or_absent doc "defaults" = true ->
  forallb (profile_segment_ok (default_language doc)) segs = true ->
  kept = filter keep segs ->
  detected_profile (with_segments kept doc) =
  Some (classify (existsb expressive_segment kept)
          (existsb (tonal_system_segment (default_language doc)) kept)).
Proof.
  intros Hd Hok ->.
  assert (Hdl : default_language (with_segments (filter keep segs) doc) =
                default_language doc).
  { unfold default_language, child, with_segments.
    now rewrite dict_get_set_neq by discriminate. }
  rewrite <- Hdl. apply detected_profile_shaped.
  - unfold object_or_absent, with_segments.
    now rewrite dict_get_set_neq by discriminate.
  - apply dict_get_set_eq.
  - rewrite Hdl. apply forallb_forall. intros x Hx.
    apply filter_In in Hx. rewrite forallb_forall in Hok. now apply Hok.
Qed.

Lemma existsb_filter_out {A : Type} (f keep : A -> bool) (l : list A) :
  (forall x, keep x = true -> f x = false) ->
  existsb f (filter keep l) = false.
Proof.
  intro H. induction l as [| x l IH]; simpl; auto.
  destruct (keep x) eqn:K; simpl; auto. now rewrite (H x K).
Qed.

Lemma scan_flags_ignores_meta (doc : dict) (m : value) :
  scan_flags (dict_set "meta" m doc) = scan_flags doc.
Proof.
  unfold scan_flags. now rewrite !dict_get_set_neq by discriminate.
Qed.

(** C2. In a document the detector can read (its segments and their
    tracks are objects, its language tags strings), with segment sequence
    [segs]: if some segment is tonal with [tracks.tone.system] present and
    some segment has an expressive track, the detected profile is the
    PG-Tonal tier; with the tonal segments removed and an expressive one
    kept it is the PG-Expressive tier; with both kinds removed it is
    PG-Core.  And in every document, setting [meta] (so also declaring or
    changing [meta.profile]) leaves the detected profile unchanged.  The
    profile slot holds the tier's label, which begins with the tier's
    name. *)
Theorem C2_profile_detection (doc : dict) :
  (forall segs : list value,
     object_or_absent doc "defaults" = true ->
     dict_get doc "segments" (VList []) = VList segs ->
     forallb (profile_segment_ok (default_language doc)) segs = true ->
     let tonal := tonal_system_segment (default_language doc) in
     let tonal_removed := filter (fun s => negb (tonal s)) segs in
     let both_removed :=
       filter (fun s => negb (tonal s) && negb (expressive_segment s)) segs in
     (existsb tonal segs = true -> existsb expressive_segment segs = true ->
      detected_profile doc = Some PG_Tonal) /\
     (existsb expressive_segment tonal_removed = true ->
      detected_profile (with_segments tonal_removed doc) = Some PG_Expressive) /\
     detected_profile (with_segments both_removed doc) = Some PG_Core) /\
  (forall m : value,
     detected_profile (dict_set "meta" m doc) = detected_profile doc) /\
  (starts_with "PG-Tonal" PG_Tonal = true /\
   starts_with "PG-Expressive" PG_Expressive = true /\
   PG_Core = "PG-Core").
Proof.
  split; [| split; [| repeat split]].
  - intros segs Hd Hsegs Hok tonal tonal_removed both_removed.
    split; [| split].
    + intros Ht He. rewrite (detected_profile_shaped doc segs Hd Hsegs Hok).
      fold tonal. now rewrite Ht, He.
    + intro He.
      rewrite (with_segments_shaped doc segs tonal_removed _ Hd Hok eq_refl).
      rewrite He. unfold tonal_removed.
      rewrite existsb_filter_out; [reflexivity |].
      intros x Hx. now apply negb_true_iff in Hx.
    + rewrite (with_segments_shaped doc segs both_removed _ Hd Hok eq_refl).
      unfold both_removed.
      rewrite (existsb_filter_out expressive_segment).
      * now destruct (existsb _ _).
      * intros x Hx. apply andb_true_iff in Hx. now apply negb_true_iff.
  - intro m. now rewrite !detected_profile_scan, scan_flags_ignores_meta.
Qed.

(** ** ID uniqueness (C4, C10) *)

Lemma dup_segment_msg_eqb (s s' : string) :
  String.eqb (dup_segment_msg s') (dup_segment_msg s) = String.eqb s' s.
Proof.
  destruct (String.eqb s' s) eqn:E.
  - apply String.eqb_eq in E; subst. apply String.eqb_refl.
  - apply String.eqb_neq in E. apply String.eqb_neq. intro H. apply E.
    now apply str_app_inv_head in H.
Qed.

Lemma dup_token_msg_eqb (s s' : string) :
  String.eqb (dup_token_msg s') (dup_token_msg s) = String.eqb s' s.
Proof.
  destruct (String.eqb s' s) eqn:E.
  - apply String.eqb_eq in E; subst. apply String.eqb_refl.
  - apply String.eqb_neq in E. apply String.eqb_neq. intro H. apply E.
    now apply str_app_inv_head in H.
Qed.

Lemma members_add_id (T : pyset) (s s' : string) :
  members (add_id T s) s' = String.eqb s' s || members T s'.
Proof.
  unfold add_id. destruct (members T s) eqn:E.
  - destruct (String.eqb s' s) eqn:E'; auto.
    apply String.eqb_eq in E'; subst. now rewrite E.
  - reflexivity.
Qed.

Lemma count_id_cons (s x : string) (l : list string) :
  count_id s (x :: l) = (if String.eqb s x then 1 else 0) + count_id s l.
Proof. unfold count_id. simpl. now destruct (String.eqb s x). Qed.

(** One more ID [x], seen from the set [T]. *)
Lemma dup_count_cons (T : pyset) (x : string) (l : list string) (s : string) :
  dup_count T (x :: l) s =
  (if members T x && String.eqb s x then 1 else 0) + dup_count (add_id T x) l s.
Proof.
  unfold dup_count. rewrite members_add_id, count_id_cons.
  destruct (String.eqb s x) eqn:E.
  - apply String.eqb_eq in E; subst x. cbn [orb].
    destruct (members T s); cbn [andb]; lia.
  - cbn [orb]. rewrite andb_false_r. reflexivity.
Qed.

Lemma dup_count_app (T : pyset) (l l' : list string) (s : string) :
  dup_count T (l ++ l') s = dup_count T l s + dup_count (add_all T l) l' s.
Proof.
  revert T; induction l as [| x l IH]; intro T.
  - cbn [app add_all fold_left]. unfold dup_count at 2, count_id. simpl.
    now destruct (members T s).
  - cbn [app add_all fold_left]. rewrite !dup_count_cons, IH.
    unfold add_all. lia.
Qed.

Lemma add_all_app (T : pyset) (l l' : list string) :
  add_all T (l ++ l') = add_all (add_all T l) l'.
Proof. apply fold_left_app. Qed.

(** One token: a usable ID is looked up then recorded; anything else is
    reported as missing and the set is left as it was. *)
Lemma uniqueness_token_shaped (T : pyset) (td : dict) :
  id_field_ok td = true ->
  uniqueness_token T (VDict td) =
  match usable_id td with
  | Some s => (Ok (add_id T s),
               if members T s then [AddError (dup_token_msg s)] else [])
  | None => (Ok T, [AddError token_no_id_msg])
  end.
Proof.
  unfold id_field_ok, usable_id, uniqueness_token, py_get.
  rewrite bind_lift_ok.
  destruct (dict_get td "id" VNone) as [| | | | s | |]; try discriminate; intros _.
  - reflexivity.
  - cbn [truthy]. destruct (String.eqb s ""); cbn [negb]; [reflexivity |].
    unfold set_mem, set_add. cbn [hashable]. rewrite bind_lift_ok.
    fold (members T s). unfold add_id.
    destruct (members T s); reflexivity.
Qed.

Lemma finding_msg_eqb (f g : finding) :
  String.eqb (finding_msg f) (finding_msg g) = finding_eqb f g.
Proof.
  destruct f as [s | s | |], g as [t | t | |]; simpl;
    try apply dup_segment_msg_eqb; try apply dup_token_msg_eqb;
    try reflexivity;
    try (apply String.eqb_neq; intro H;
         apply (f_equal (fun m => String.get 10 m)) in H; discriminate H);
    apply String.eqb_neq; intro H;
      apply (f_equal (fun m => String.get 0 m)) in H; discriminate H.
Qed.

Lemma count_error_report (f : finding) (tr : list finding) :
  count_error (finding_msg f) (map report tr) = count_finding f tr.
Proof.
  unfold count_error, count_finding.
  induction tr as [| g tr IH]; simpl; auto.
  rewrite finding_msg_eqb. destruct (finding_eqb f g); simpl; auto.
Qed.

Lemma count_finding_app (f : finding) (tr tr' : list finding) :
  count_finding f (tr ++ tr') = count_finding f tr + count_finding f tr'.
Proof. unfold count_finding. now rewrite filter_app, length_app. Qed.

Lemma ids_of_cons (d : dict) (l : list value) :
  ids_of (VDict d :: l) =
  match usable_id d with Some s => [s] | None => [] end ++ ids_of l.
Proof. reflexivity. Qed.

Lemma ids_of_app (l l' : list value) : ids_of (l ++ l') = ids_of l ++ ids_of l'.
Proof. apply flat_map_app. Qed.

Lemma add_all_next (T : pyset) (d : dict) (l : list value) :
  add_all T (ids_of (VDict d :: l)) = add_all (next_set T d) (ids_of l).
Proof.
  rewrite ids_of_cons. unfold next_set. now destruct (usable_id d).
Qed.

Lemma uniqueness_token_findings (T : pyset) (td : dict) :
  id_field_ok td = true ->
  uniqueness_token T (VDict td) =
  (Ok (next_set T td), map report (id_findings DupToken TokenNoId T td)).
Proof.
  intro H. rewrite (uniqueness_token_shaped T td H).
  unfold next_set, id_findings. destruct (usable_id td) as [s |]; [| reflexivity].
  now destruct (members T s).
Qed.

Lemma uniqueness_tokens_shaped (toks : list value) (T : pyset) :
  forallb uniqueness_token_ok toks = true ->
  for_fold toks T uniqueness_token =
  (Ok (add_all T (ids_of toks)), map report (token_trace T toks)).
Proof.
  revert T; induction toks as [| tok toks IH]; intro T; [reflexivity |].
  cbn [forallb for_fold]. rewrite andb_true_iff. intros [Htok Htoks].
  destruct tok as [| | | | | | td]; try discriminate Htok.
  rewrite (uniqueness_token_findings T td Htok), bind_pair_ok.
  rewrite (IH _ Htoks), add_all_next. cbn [outcome calls fst snd token_trace].
  now rewrite map_app.
Qed.

Lemma uniqueness_segment_shaped (S T : pyset) (sd : dict) :
  uniqueness_segment_ok (VDict sd) = true ->
  uniqueness_segment (S, T) (VDict sd) =
  (Ok (next_set S sd, add_all T (ids_of (tokens_of (VDict sd)))),
   map report (id_findings DupSegment SegmentNoId S sd ++
               token_trace T (tokens_of (VDict sd)))).
Proof.
  unfold uniqueness_segment_ok, tokens_of. rewrite andb_true_iff.
  intros [Hid Htoks].
  destruct (dict_get sd "tokens" (VList [])) as [| | | | | toks |] eqn:E;
    try discriminate Htoks.
  unfold uniqueness_segment, py_get. rewrite bind_lift_ok.
  assert (Hseg :
    (if truthy (dict_get sd "id" VNone)
     then seen <- lift (set_mem (dict_get sd "id" VNone) S) ;;
          when seen (add_error ("Duplicate segment ID: "
                                ++ py_str (dict_get sd "id" VNone))) ;;
          lift (set_add (dict_get sd "id" VNone) S)
     else add_error "Segment missing required 'id' field" ;; ret S) =
    (Ok (next_set S sd), map report (id_findings DupSegment SegmentNoId S sd))).
  { unfold next_set, id_findings, usable_id. unfold id_field_ok in Hid.
    destruct (dict_get sd "id" VNone) as [| | | | s | |]; try discriminate Hid.
    - reflexivity.
    - cbn [truthy]. destruct (String.eqb s ""); cbn [negb]; [reflexivity |].
      unfold set_mem, set_add. cbn [hashable]. rewrite bind_lift_ok.
      fold (members S s). unfold add_id. destruct (members S s); reflexivity. }
  rewrite Hseg, bind_pair_ok, bind_lift_ok, E. unfold py_iter.
  rewrite bind_lift_ok, (uniqueness_tokens_shaped toks T Htoks), bind_pair_ok.
  cbn [outcome calls fst snd ret]. now rewrite app_nil_r, map_app.
Qed.

Lemma uniqueness_segments_shaped (segs : list value) (S T : pyset) :
  forallb uniqueness_segment_ok segs = true ->
  for_fold segs (S, T) uniqueness_segment =
  (Ok (add_all S (ids_of segs), add_all T (ids_of (flat_map tokens_of segs))),
   map report (segment_trace S T segs)).
Proof.
  revert S T; induction segs as [| seg segs IH]; intros S T; [reflexivity |].
  cbn [forallb for_fold]. rewrite andb_true_iff. intros [Hseg Hsegs].
  destruct seg as [| | | | | | sd]; try discriminate Hseg.
  rewrite (uniqueness_segment_shaped S T sd Hseg), bind_pair_ok.
  rewrite (IH _ _ Hsegs), add_all_next.
  change (flat_map tokens_of (VDict sd :: segs))
    with (tokens_of (VDict sd) ++ flat_map tokens_of segs).
  rewrite ids_of_app, add_all_app. cbn [outcome calls fst snd segment_trace].
  now rewrite <- map_app, <- app_assoc.
Qed.

Lemma count_id_findings (dup : string -> finding) (no_id f : finding)
    (S : pyset) (d : dict) :
  count_finding f (id_findings dup no_id S d) =
  match usable_id d with
  | Some x => if members S x && finding_eqb f (dup x) then 1 else 0
  | None => if finding_eqb f no_id then 1 else 0
  end.
Proof.
  unfold id_findings, count_finding. destruct (usable_id d) as [x |]; simpl.
  - destruct (members S x); simpl; auto. now destruct (finding_eqb f (dup x)).
  - now destruct (finding_eqb f no_id).
Qed.

Lemma dup_count_next (T : pyset) (d : dict) (l : list string) (s : string) :
  dup_count T (match usable_id d with Some x => [x] | None => [] end ++ l) s =
  match usable_id d with
  | Some x => if members T x && String.eqb s x then 1 else 0
  | None => 0
  end + dup_count (next_set T d) l s.
Proof.
  unfold next_set. destruct (usable_id d) as [x |]; [| reflexivity].
  apply dup_count_cons.
Qed.

Lemma token_trace_dup_tokens (toks : list value) (T : pyset) (s : string) :
  forallb uniqueness_token_ok toks = true ->
  count_finding (DupToken s) (token_trace T toks) = dup_count T (ids_of toks) s.
Proof.
  revert T; induction toks as [| tok toks IH]; intro T.
  - intros _. unfold dup_count, count_id. simpl. now destruct (members T s).
  - cbn [forallb]. rewrite andb_true_iff. intros [Htok Htoks].
    destruct tok as [| | | | | | td]; try discriminate Htok.
    cbn [token_trace]. rewrite count_finding_app, count_id_findings, (IH _ Htoks).
    rewrite ids_of_cons, dup_count_next. now destruct (usable_id td).
Qed.

Lemma token_trace_other (toks : list value) (T : pyset) (f : finding) :
  (forall s, finding_eqb f (DupToken s) = false) ->
  finding_eqb f TokenNoId = false ->
  count_finding f (token_trace T toks) = 0.
Proof.
  intros Hd Hn. revert T; induction toks as [| tok toks IH]; intro T; [reflexivity |].
  destruct tok; try reflexivity.
  cbn [token_trace]. rewrite count_finding_app, count_id_findings, IH.
  destruct (usable_id d); [rewrite Hd, andb_false_r | rewrite Hn]; reflexivity.
Qed.

Lemma token_trace_no_id (toks : list value) (T : pyset) :
  forallb uniqueness_token_ok toks = true ->
  count_finding TokenNoId (token_trace T toks) = count_no_id toks.
Proof.
  revert T; induction toks as [| tok toks IH]; intro T; [reflexivity |].
  cbn [forallb]. rewrite andb_true_iff. intros [Htok Htoks].
  destruct tok as [| | | | | | td]; try discriminate Htok.
  cbn [token_trace]. rewrite count_finding_app, count_id_findings, (IH _ Htoks).
  unfold count_no_id. cbn [filter].
  destruct (usable_id td); [rewrite andb_false_r |]; reflexivity.
Qed.

Lemma count_no_id_app (l l' : list value) :
  count_no_id (l ++ l') = count_no_id l + count_no_id l'.
Proof. unfold count_no_id. now rewrite filter_app, length_app. Qed.

Lemma segment_ok_tokens (sd : dict) :
  uniqueness_segment_ok (VDict sd) = true ->
  forallb uniqueness_token_ok (tokens_of (VDict sd)) = true.
Proof.
  unfold uniqueness_segment_ok, tokens_of. rewrite andb_true_iff. intros [_ H].
  now destruct (dict_get sd "tokens" (VList [])).
Qed.

(** The four counts over a whole scan, the sets of the IDs seen so far
    being [S] (segments) and [T] (tokens). *)
Lemma segment_trace_counts (segs : list value) (S T : pyset) :
  forallb uniqueness_segment_ok segs = true ->
  (forall s, count_finding (DupSegment s) (segment_trace S T segs) =
             dup_count S (ids_of segs) s) /\
  (forall s, count_finding (DupToken s) (segment_trace S T segs) =
             dup_count T (ids_of (flat_map tokens_of segs)) s) /\
  count_finding SegmentNoId (segment_trace S T segs) = count_no_id segs /\
  count_finding TokenNoId (segment_trace S T segs) =
    count_no_id (flat_map tokens_of segs).
Proof.
  revert S T; induction segs as [| seg segs IH]; intros S T.
  - intros _. unfold dup_count, count_id. simpl.
    repeat split; try reflexivity; intro s.
    + now destruct (members S s).
    + now destruct (members T s).
  - cbn [forallb]. rewrite andb_true_iff. intros [Hseg Hsegs].
    destruct seg as [| | | | | | sd]; try discriminate Hseg.
    pose proof (segment_ok_tokens sd Hseg) as Htoks.
    destruct (IH (next_set S sd) (add_all T (ids_of (tokens_of (VDict sd)))) Hsegs)
      as (IH1 & IH2 & IH3 & IH4).
    cbn [segment_trace].
    change (flat_map tokens_of (VDict sd :: segs))
      with (tokens_of (VDict sd) ++ flat_map tokens_of segs).
    repeat split; try intro s;
      rewrite !count_finding_app, count_id_findings.
    + rewrite IH1, (token_trace_other _ _ (DupSegment s)) by reflexivity.
      rewrite ids_of_cons, dup_count_next.
      destruct (usable_id sd); cbn [finding_eqb]; lia.
    + rewrite IH2, (token_trace_dup_tokens _ _ _ Htoks).
      rewrite ids_of_app, dup_count_app.
      destruct (usable_id sd); cbn [finding_eqb]; rewrite ?andb_false_r; lia.
    + rewrite IH3, (token_trace_other _ _ SegmentNoId) by reflexivity.
      unfold count_no_id. cbn [filter].
      destruct (usable_id sd); cbn [finding_eqb List.length];
        rewrite ?andb_false_r; lia.
    + rewrite IH4, (token_trace_no_id _ _ Htoks), count_no_id_app.
      destruct (usable_id sd); cbn [finding_eqb]; rewrite ?andb_false_r; lia.
Qed.

Lemma dup_count_empty (l : list string) (s : string) :
  dup_count [] l s = Nat.pred (count_id s l).
Proof. reflexivity. Qed.

(** The pass on a document it can read: it completes, and reports the
    findings of the scan started from two empty sets. *)
Lemma id_uniqueness_shaped (doc : dict) (segs : list value) :
  dict_get doc "segments" (VList []) = VList segs ->
  forallb uniqueness_segment_ok segs = true ->
  _validate_id_uniqueness doc = (Ok tt, map report (segment_trace [] [] segs)).
Proof.
  intros Hsegs Hok. unfold _validate_id_uniqueness. rewrite Hsegs.
  unfold py_iter. rewrite bind_lift_ok. cbv zeta.
  rewrite (uniqueness_segments_shaped segs [] [] Hok), bind_pair_ok.
  cbn [outcome calls fst snd ret]. now rewrite app_nil_r.
Qed.

(** C4 (as amended). In a document whose [id] fields are strings or
    absent, the uniqueness pass completes and keeps two document-wide
    namespaces of non-empty IDs: for every ID, the duplicate-segment errors
    naming it number one less than the segments that carry it, and the
    duplicate-token errors naming it number one less than the tokens that
    carry it, wherever in the document those tokens lie.  Every occurrence
    after the first is thus reported once, and the count for segments does
    not depend on the tokens nor the count for tokens on the segments. *)
Theorem C4_two_namespaces (doc : dict) (segs : list value) :
  dict_get doc "segments" (VList []) = VList segs ->
  forallb uniqueness_segment_ok segs = true ->
  outcome (_validate_id_uniqueness doc) = Ok tt /\
  (forall s : string,
     count_error (dup_segment_msg s) (calls (_validate_id_uniqueness doc)) =
     Nat.pred (count_id s (segment_ids segs))) /\
  (forall s : string,
     count_error (dup_token_msg s) (calls (_validate_id_uniqueness doc)) =
     Nat.pred (count_id s (all_token_ids segs))).
Proof.
  intros Hsegs Hok. rewrite (id_uniqueness_shaped doc segs Hsegs Hok).
  destruct (segment_trace_counts segs [] [] Hok) as (H1 & H2 & _ & _).
  split; [reflexivity |]. cbn [calls snd]. split; intro s.
  - now rewrite (count_error_report (DupSegment s)), H1.
  - now rewrite (count_error_report (DupToken s)), H2.
Qed.

Lemma empty_id_unusable (d : dict) :
  dict_lookup "id" d = Some (VStr "") ->
  usable_id d = None /\ id_field_ok d = true.
Proof. unfold usable_id, id_field_ok, dict_get. now intros ->. Qed.

Lemma count_id_absent (l : list value) : count_id "" (ids_of l) = 0.
Proof.
  unfold count_id. induction l as [| v l IH]; [reflexivity |].
  destruct v; try exact IH. rewrite ids_of_cons, filter_app, length_app, IH.
  unfold usable_id. destruct (dict_get d "id" VNone); try reflexivity.
  destruct (String.eqb s "") eqn:E; [reflexivity |].
  cbn [filter]. rewrite String.eqb_sym, E. reflexivity.
Qed.

(** C10. A token or segment whose [id] is the empty string is reported as
    missing its [id] and leaves the set of seen IDs as it was.  Over a
    document the pass can read, the missing-ID errors number the entities
    without a non-empty ID, and no duplicate error ever names the empty
    string, however many entities carry it. *)
Theorem C10_empty_id_is_missing :
  (forall (T : pyset) (td : dict),
     dict_lookup "id" td = Some (VStr "") ->
     uniqueness_token T (VDict td) = (Ok T, [AddError token_no_id_msg])) /\
  (forall (S T : pyset) (sd : dict),
     dict_lookup "id" sd = Some (VStr "") ->
     uniqueness_segment_ok (VDict sd) = true ->
     uniqueness_segment (S, T) (VDict sd) =
     (Ok (S, add_all T (ids_of (tokens_of (VDict sd)))),
      AddError segment_no_id_msg ::
      map report (token_trace T (tokens_of (VDict sd))))) /\
  (forall (doc : dict) (segs : list value),
     dict_get doc "segments" (VList []) = VList segs ->
     forallb uniqueness_segment_ok segs = true ->
     count_error segment_no_id_msg (calls (_validate_id_uniqueness doc)) =
       count_no_id segs /\
     count_error token_no_id_msg (calls (_validate_id_uniqueness doc)) =
       count_no_id (flat_map tokens_of segs) /\
     count_error (dup_segment_msg "") (calls (_validate_id_uniqueness doc)) = 0 /\
     count_error (dup_token_msg "") (calls (_validate_id_uniqueness doc)) = 0).
Proof.
  split; [| split].
  - intros T td Hid. destruct (empty_id_unusable td Hid) as [Hu Hf].
    rewrite (uniqueness_token_shaped T td Hf), Hu. reflexivity.
  - intros S T sd Hid Hseg. destruct (empty_id_unusable sd Hid) as [Hu _].
    rewrite (uniqueness_segment_shaped S T sd Hseg).
    unfold next_set, id_findings. rewrite Hu. reflexivity.
  - intros doc segs Hsegs Hok.
    rewrite (id_uniqueness_shaped doc segs Hsegs Hok). cbn [calls snd].
    destruct (segment_trace_counts segs [] [] Hok) as (H1 & H2 & H3 & H4).
    split; [now rewrite (count_error_report SegmentNoId) |].
    split; [now rewrite (count_error_report TokenNoId) |].
    split.
    + rewrite (count_error_report (DupSegment "")), H1, dup_count_empty.
      now rewrite count_id_absent.
    + rewrite (count_error_report (DupToken "")), H2, dup_count_empty.
      now rewrite count_id_absent.
Qed.

(** ** Reference resolution (C6) *)

Lemma members_add_all (T : pyset) (l : list string) (r : string) :
  members (add_all T l) r = members T r || existsb (String.eqb r) l.
Proof.
  revert T; induction l as [| x l IH]; intro T; cbn [add_all fold_left existsb].
  - now rewrite orb_false_r.
  - fold (add_all (add_id T x) l). rewrite IH, members_add_id.
    now rewrite orb_assoc, (orb_comm (String.eqb r x)).
Qed.

Lemma collect_token_id_shaped (T : pyset) (tok : value) :
  reference_token_ok tok = true ->
  collect_token_id T tok = (Ok (add_all T (declared_id tok)), []).
Proof.
  destruct tok as [| | | | | | td]; try discriminate.
  unfold reference_token_ok, declared_id, collect_token_id, py_contains,
    py_getitem, dict_has.
  rewrite bind_lift_ok.
  destruct (dict_lookup "id" td) as [[| | | | s | |] |]; try discriminate; intros _.
  - rewrite bind_lift_ok. unfold set_add. cbn [hashable]. reflexivity.
  - reflexivity.
Qed.

Lemma collect_tokens_shaped (toks : list value) (T : pyset) :
  forallb reference_token_ok toks = true ->
  for_fold toks T collect_token_id =
  (Ok (add_all T (flat_map declared_id toks)), []).
Proof.
  revert T; induction toks as [| tok toks IH]; intro T; [reflexivity |].
  cbn [forallb for_fold flat_map]. rewrite andb_true_iff. intros [Htok Htoks].
  rewrite (collect_token_id_shaped T tok Htok), bind_pair_ok, (IH _ Htoks).
  now rewrite add_all_app.
Qed.

Lemma reference_segment_parts (sd : dict) :
  reference_segment_ok (VDict sd) = true ->
  dict_get sd "tokens" (VList []) = VList (tokens_of (VDict sd)) /\
  forallb reference_token_ok (tokens_of (VDict sd)) = true /\
  object_or_absent sd "tracks" = true /\
  object_or_absent (child sd "tracks") "delivery" = true /\
  dict_get (child (child sd "tracks") "delivery") "emphasis" (VList []) =
    VList (entries_of (VDict sd)) /\
  forallb entry_ok (entries_of (VDict sd)) = true.
Proof.
  unfold reference_segment_ok, tokens_of, entries_of.
  rewrite !andb_true_iff. intros [[[Ht Htr] Hd] He].
  destruct (dict_get sd "tokens" (VList [])); try discriminate Ht.
  destruct (dict_get (child (child sd "tracks") "delivery") "emphasis" (VList []));
    try discriminate He.
  auto 6.
Qed.

Lemma collect_segments_shaped (segs : list value) (T : pyset) :
  forallb reference_segment_ok segs = true ->
  for_fold segs T collect_segment_ids =
  (Ok (add_all T (declared_ids segs)), []).
Proof.
  unfold declared_ids.
  revert T; induction segs as [| seg segs IH]; intro T; [reflexivity |].
  cbn [forallb for_fold flat_map]. rewrite andb_true_iff. intros [Hseg Hsegs].
  destruct seg as [| | | | | | sd]; try discriminate Hseg.
  destruct (reference_segment_parts sd Hseg) as (Ht & Htoks & _).
  unfold collect_segment_ids at 1, py_get. rewrite bind_lift_ok, Ht.
  unfold py_iter. rewrite bind_lift_ok.
  rewrite (collect_tokens_shaped _ T Htoks), bind_pair_ok, (IH _ Hsegs).
  now rewrite flat_map_app, add_all_app.
Qed.

Lemma check_references_shaped (T : pyset) (l : list value) :
  forallb is_string l = true ->
  for_each l (check_reference T) = (Ok tt, dangling_errors T (strings l)).
Proof.
  induction l as [| v l IH]; [reflexivity |].
  cbn [forallb for_each]. rewrite andb_true_iff. intros [Hv Hl].
  destruct v as [| | | | r | |]; try discriminate Hv.
  unfold check_reference at 1, set_mem. cbn [hashable]. rewrite bind_lift_ok.
  fold (members T r). rewrite (IH Hl). unfold add_error.
  destruct (members T r) eqn:E; unfold dangling_errors; cbn [strings flat_map app];
    rewrite E; reflexivity.
Qed.

Lemma check_emphasis_shaped (T : pyset) (e : value) :
  entry_ok e = true ->
  check_emphasis T e = (Ok tt, dangling_errors T (refs_of_entry e)).
Proof.
  destruct e as [| | | | | | ed]; try discriminate.
  unfold entry_ok, refs_of_entry, check_emphasis, py_get. rewrite bind_lift_ok.
  destruct (dict_get ed "span" VNone) as [| | | | | | sp]; try reflexivity.
  cbn [is_dict]. unfold py_contains, py_getitem, dict_has. rewrite bind_lift_ok.
  destruct (dict_lookup "token_ids" sp) as [[| | | | | l |] |];
    try discriminate; try reflexivity.
  intro Hl. rewrite bind_lift_ok. unfold py_iter. rewrite bind_lift_ok.
  apply check_references_shaped, Hl.
Qed.

Lemma dangling_errors_app (T : pyset) (l l' : list string) :
  dangling_errors T (l ++ l') = dangling_errors T l ++ dangling_errors T l'.
Proof. apply flat_map_app. Qed.

Lemma check_entries_shaped (T : pyset) (es : list value) :
  forallb entry_ok es = true ->
  for_each es (check_emphasis T) =
  (Ok tt, dangling_errors T (flat_map refs_of_entry es)).
Proof.
  induction es as [| e es IH]; [reflexivity |].
  cbn [forallb for_each flat_map]. rewrite andb_true_iff. intros [He Hes].
  rewrite (check_emphasis_shaped T e He), bind_pair_ok, (IH Hes).
  now rewrite dangling_errors_app.
Qed.

Lemma references_segment_shaped (T : pyset) (sd : dict) :
  reference_segment_ok (VDict sd) = true ->
  references_segment T (VDict sd) =
  (Ok tt, dangling_errors T (flat_map refs_of_entry (entries_of (VDict sd)))).
Proof.
  intro Hseg.
  destruct (reference_segment_parts sd Hseg) as (_ & _ & Htr & Hd & He & Hes).
  unfold references_segment.
  destruct (get_object _ _ Htr) as [-> _]. rewrite bind_lift_ok.
  destruct (get_object _ _ Hd) as [-> _]. rewrite bind_lift_ok.
  unfold py_get. rewrite bind_lift_ok, He. unfold py_iter. rewrite bind_lift_ok.
  apply check_entries_shaped, Hes.
Qed.

Lemma references_segments_shaped (T : pyset) (segs : list value) :
  forallb reference_segment_ok segs = true ->
  for_each segs (references_segment T) =
  (Ok tt, dangling_errors T (references segs)).
Proof.
  unfold references.
  induction segs as [| seg segs IH]; [reflexivity |].
  cbn [forallb for_each flat_map]. rewrite andb_true_iff. intros [Hseg Hsegs].
  destruct seg as [| | | | | | sd]; try discriminate Hseg.
  rewrite (references_segment_shaped T sd Hseg), bind_pair_ok, (IH Hsegs).
  now rewrite dangling_errors_app.
Qed.

Lemma dangling_errors_filter (T : pyset) (known : list string) (l : list string) :
  (forall r, members T r = existsb (String.eqb r) known) ->
  dangling_errors T l =
  map (fun r => AddError (dangling_msg r))
      (filter (fun r => negb (existsb (String.eqb r) known)) l).
Proof.
  intro H. unfold dangling_errors.
  induction l as [| r l IH]; [reflexivity |].
  cbn [flat_map filter]. rewrite IH, H.
  now destruct (existsb (String.eqb r) known).
Qed.

(** C6. In a document the pass can read, the reference pass completes and
    reports, in document order, exactly one error for each entry of each
    [span.token_ids] under a segment's [tracks.delivery.emphasis] that is
    not the [id] of any token of the document, the error naming that entry;
    an emphasis entry whose span is not an object, or is an object without
    [token_ids], contributes no call at all. *)
Theorem C6_dangling_references (doc : dict) :
  (forall segs : list value,
     dict_get doc "segments" (VList []) = VList segs ->
     forallb reference_segment_ok segs = true ->
     _validate_references doc =
     (Ok tt,
      map (fun r => AddError (dangling_msg r))
        (filter (fun r => negb (existsb (String.eqb r) (declared_ids segs)))
           (references segs)))) /\
  (forall (T : pyset) (ed : dict),
     match dict_get ed "span" VNone with
     | VDict sp => dict_lookup "token_ids" sp = None
     | _ => True
     end ->
     check_emphasis T (VDict ed) = (Ok tt, [])).
Proof.
  split.
  - intros segs Hsegs Hok.
    unfold _validate_references. rewrite Hsegs. unfold py_iter.
    rewrite bind_lift_ok. cbv zeta.
    rewrite (collect_segments_shaped segs [] Hok), bind_pair_ok.
    rewrite bind_lift_ok, (references_segments_shaped _ segs Hok).
    cbn [outcome calls fst snd app].
    f_equal. apply dangling_errors_filter. intro r. now rewrite members_add_all.
  - intros T ed Hspan. unfold check_emphasis, py_get. rewrite bind_lift_ok.
    destruct (dict_get ed "span" VNone) as [| | | | | | sp]; try reflexivity.
    cbn [is_dict]. unfold py_contains, dict_has. rewrite bind_lift_ok, Hspan.
    reflexivity.
Qed.

(** * Further properties *)

(** ** Required fields: [check_audio], [check_segments] *)

Lemma bind_silent {A : Type} (m : M A) (k : M unit) :
  (m ;; k) = (Ok tt, []) <-> (exists a, m = (Ok a, [])) /\ k = (Ok tt, []).
Proof.
  unfold bind. destruct m as [[a | e] cs], k as [o cs']. split.
  - intro H. injection H as -> H. apply app_eq_nil in H. destruct H as [-> ->].
    split; [now exists a | reflexivity].
  - intros [[a' H] H']. injection H as -> ->. injection H' as -> ->. reflexivity.
  - split; [discriminate | intros [[a' H] _]; discriminate].
Qed.

Lemma check_version_silent (doc : dict) :
  check_version doc = (Ok tt, []) <-> version_ok doc = true.
Proof.
  unfold check_version, version_ok, dict_has, py_getitem.
  destruct (dict_lookup "prosograph" doc) as [v |]; cbn [negb];
    [| split; discriminate].
  rewrite bind_lift_ok.
  destruct v; try (split; discriminate).
  unfold py_startswith. rewrite bind_lift_ok.
  destruct (starts_with "1." s); split; try reflexivity; discriminate.
Qed.

(** [check_audio] on an [audio] object whose [duration_s] is absent or a
    number. *)
Lemma check_audio_object (doc ad : dict) :
  dict_lookup "audio" doc = Some (VDict ad) ->
  duration_readable ad = true ->
  check_audio doc = (Ok tt, uri_errors ad ++ duration_errors ad).
Proof.
  intros E Hd. unfold check_audio, dict_has, py_getitem. rewrite E. cbn [negb].
  rewrite bind_lift_ok. unfold py_contains, add_error. rewrite bind_lift_ok.
  unfold uri_errors, duration_errors, duration_readable, dict_has in *.
  apply M_eq.
  - rewrite outcome_bind_when, bind_lift_ok.
    destruct (dict_lookup "duration_s" ad) as [v |]; cbn [negb]; [| reflexivity].
    rewrite bind_lift_ok. destruct (as_num v) as [d |] eqn:N; [| discriminate].
    assert (H0 : as_num (VInt 0) = Some (FFin 0)) by reflexivity.
    rewrite (py_le_num _ _ _ _ N H0), bind_lift_ok. apply outcome_when.
  - rewrite calls_bind_when, bind_lift_ok.
    destruct (dict_lookup "uri" ad) as [u |]; cbn [negb];
      destruct (dict_lookup "duration_s" ad) as [v |]; cbn [negb];
      try reflexivity;
      rewrite bind_lift_ok; (destruct (as_num v) as [d |] eqn:N; [| discriminate]);
      assert (H0 : as_num (VInt 0) = Some (FFin 0)) by reflexivity;
      rewrite (py_le_num _ _ _ _ N H0), bind_lift_ok, calls_when;
      reflexivity.
Qed.

Lemma check_audio_silent (doc : dict) :
  check_audio doc = (Ok tt, []) <-> audio_ok doc = true.
Proof.
  unfold audio_ok.
  destruct (dict_lookup "audio" doc) as [audio |] eqn:E.
  - destruct audio as [| | | | s | l | ad];
      try (unfold check_audio, dict_has, py_getitem; rewrite E; cbn [negb];
           rewrite bind_lift_ok; split; discriminate).
    + (* a string: [in] is a substring test, then the subscript raises *)
      unfold check_audio, dict_has, py_getitem, py_contains. rewrite E. cbn [negb].
      rewrite !bind_lift_ok.
      destruct (is_substring "uri" s), (is_substring "duration_s" s);
        split; discriminate.
    + unfold check_audio, dict_has, py_getitem, py_contains. rewrite E. cbn [negb].
      rewrite !bind_lift_ok.
      destruct (existsb (is_str "uri") l), (existsb (is_str "duration_s") l);
        split; discriminate.
    + destruct (duration_readable ad) eqn:Hd.
      * rewrite (check_audio_object doc ad E Hd).
        unfold uri_errors, duration_errors, duration_readable in *.
        destruct (dict_has "uri" ad); cbn [andb app];
          destruct (dict_lookup "duration_s" ad) as [v |];
          try (split; discriminate);
          (destruct (as_num v) as [d |]; [| discriminate]);
          destruct (float_le d (FFin 0)); cbn [negb];
          split; try reflexivity; discriminate.
      * unfold duration_readable in Hd.
        destruct (dict_lookup "duration_s" ad) as [v |] eqn:Ev; [| discriminate].
        destruct (as_num v) eqn:N; [discriminate |].
        rewrite andb_false_r.
        unfold check_audio, dict_has, py_getitem, py_contains. rewrite E. cbn [negb].
        rewrite !bind_lift_ok. unfold dict_has. rewrite Ev. cbn [negb].
        rewrite bind_silent, bind_lift_ok. unfold py_le, py_cmp. rewrite N.
        rewrite bind_lift_raise. split; [intros [_ H]; discriminate | discriminate].
  - unfold check_audio, dict_has. rewrite E. split; discriminate.
Qed.

Lemma check_segments_silent (doc : dict) :
  check_segments doc = (Ok tt, []) <-> dict_has "segments" doc = true.
Proof.
  unfold check_segments. destruct (dict_has "segments" doc);
    split; try reflexivity; discriminate.
Qed.

(** X1. [check_audio] (lines 151-160): without [audio] the only error is
    the missing [audio], its sub-fields being skipped; on an [audio] object
    the [uri] and the [duration_s] are judged independently, a missing
    [duration_s] and one that is [<= 0] being different errors; and the
    check never looks at the value of [uri]. *)
Theorem X1_audio_report (doc : dict) :
  (dict_lookup "audio" doc = None ->
   check_audio doc = (Ok tt, [AddError "Missing required field: audio"])) /\
  (forall ad : dict,
     dict_lookup "audio" doc = Some (VDict ad) ->
     duration_readable ad = true ->
     check_audio doc = (Ok tt, uri_errors ad ++ duration_errors ad)) /\
  (forall (ad : dict) (u : value),
     duration_errors (dict_set "uri" u ad) = duration_errors ad /\
     uri_errors (dict_set "uri" u ad) = []).
Proof.
  split; [| split].
  - intro E. unfold check_audio, dict_has. now rewrite E.
  - apply check_audio_object.
  - intros ad u. unfold duration_errors, uri_errors, dict_has.
    rewrite dict_lookup_set_neq by discriminate.
    now rewrite dict_lookup_set_eq.
Qed.

(** X2. [_validate_required_fields] (lines 144-163) completes without
    reporting anything on exactly the documents whose [prosograph] is a
    string beginning with "1.", whose [audio] is an object with a [uri] key
    and a numeric [duration_s] not [<= 0], and which have a [segments]
    key. *)
Theorem X2_required_fields_silent (doc : dict) :
  _validate_required_fields doc = (Ok tt, []) <-> required_ok doc = true.
Proof.
  unfold _validate_required_fields, required_ok.
  rewrite !bind_silent, !andb_true_iff.
  rewrite <- check_version_silent, <- check_audio_silent, <- check_segments_silent.
  split.
  - intros [[[] Hv] [[[] Ha] Hs]]. auto.
  - intros [[Hv Ha] Hs]. eauto.
Qed.

(** ** Temporal constraints: skipped entities, and the silent documents *)

Lemma outcome_for_each_app {A : Type} (l l' : list A) (body : A -> M unit) :
  outcome (for_each (l ++ l') body) =
  match outcome (for_each l body) with
  | Ok _ => outcome (for_each l' body)
  | Raise e => Raise e
  end.
Proof.
  induction l as [| x l IH]; simpl; auto.
  rewrite !outcome_bind, IH. destruct (outcome (body x)); auto.
Qed.

(** X3. Lines 174-179 and 194-196: a segment whose [t0] is absent or null
    gets the missing-[t0] error and nothing else, whatever its [t1] and
    its tokens hold (they are not looked at, so cannot make the pass
    raise); with a [t0], an absent or null [t1] gets the missing-[t1] error
    alone; a token lacking either bound gets one error.  The loop then
    goes on with the next segment. *)
Theorem X3_missing_bounds_skip (duration : value) (sd : dict) :
  (dict_get sd "t0" VNone = VNone ->
   temporal_segment duration (VDict sd) =
   (Ok tt, [AddError ("Segment " ++ py_str (dict_get sd "id" (VStr "<unknown>"))
                      ++ ": missing t0")]) /\
   forall pre post : list value,
     outcome (for_each pre (temporal_segment duration)) = Ok tt ->
     for_each (pre ++ VDict sd :: post) (temporal_segment duration) =
     (outcome (for_each post (temporal_segment duration)),
      calls (for_each pre (temporal_segment duration)) ++
      AddError ("Segment " ++ py_str (dict_get sd "id" (VStr "<unknown>"))
                ++ ": missing t0") ::
      calls (for_each post (temporal_segment duration)))) /\
  (is_none (dict_get sd "t0" VNone) = false ->
   dict_get sd "t1" VNone = VNone ->
   temporal_segment duration (VDict sd) =
   (Ok tt, [AddError ("Segment " ++ py_str (dict_get sd "id" (VStr "<unknown>"))
                      ++ ": missing t1")])) /\
  (forall (t0 t1 : value) (td : dict),
     dict_get td "t0" VNone = VNone \/ dict_get td "t1" VNone = VNone ->
     temporal_token t0 t1 (VDict td) =
     (Ok tt, [AddError ("Token " ++ py_str (dict_get td "id" (VStr "<unknown>"))
                        ++ ": missing t0 or t1")])).
Proof.
  split; [| split].
  - intro H0.
    assert (Hseg : temporal_segment duration (VDict sd) =
      (Ok tt, [AddError ("Segment " ++ py_str (dict_get sd "id" (VStr "<unknown>"))
                         ++ ": missing t0")])).
    { unfold temporal_segment, py_get. rewrite !bind_lift_ok, H0. reflexivity. }
    split; [exact Hseg |].
    intros pre post Hpre. apply M_eq.
    + rewrite outcome_for_each_app, Hpre. cbn [for_each].
      now rewrite outcome_bind, Hseg.
    + rewrite (for_each_block _ _ _ _ Hpre), Hseg. reflexivity.
  - intros H0 H1. unfold temporal_segment, py_get.
    rewrite !bind_lift_ok, H0, H1. reflexivity.
  - intros t0 t1 td H. unfold temporal_token, py_get. rewrite !bind_lift_ok.
    assert (Hn : is_none (dict_get td "t0" VNone) || is_none (dict_get td "t1" VNone)
                 = true).
    { destruct H as [-> | ->]; [reflexivity | apply orb_true_r]. }
    now rewrite Hn.
Qed.

Lemma finite_num_as_num (v : value) (q : Q) :
  finite_num v = Some q -> as_num v = Some (FFin q).
Proof.
  unfold finite_num. destruct (as_num v) as [[] |]; congruence.
Qed.

Lemma times_bounds (d : dict) (x y : Q) :
  times (VDict d) = Some (x, y) ->
  as_num (dict_get d "t0" VNone) = Some (FFin x) /\
  as_num (dict_get d "t1" VNone) = Some (FFin y).
Proof.
  unfold times.
  destruct (finite_num (dict_get d "t0" VNone)) as [x' |] eqn:E0; [| discriminate].
  destruct (finite_num (dict_get d "t1" VNone)) as [y' |] eqn:E1; [| discriminate].
  intros [= <- <-]. split; now apply finite_num_as_num.
Qed.

Lemma app_nil_iff {A : Type} (l l' : list A) : l ++ l' = [] <-> l = [] /\ l' = [].
Proof.
  split; [apply app_eq_nil | intros [-> ->]; reflexivity].
Qed.

Lemma if_nil_iff (b : bool) (c : call) : (if b then [c] else []) = [] <-> b = false.
Proof. destruct b; split; congruence. Qed.

Lemma flat_map_nil_iff {A B : Type} (f : A -> list B) (l : list A) :
  flat_map f l = [] <-> forall x, In x l -> f x = [].
Proof.
  induction l as [| x l IH]; simpl.
  - split; [intros _ y [] | reflexivity].
  - rewrite app_nil_iff, IH. split.
    + intros [Hx Hl] y [<- | Hy]; auto.
    + intro H. split; [apply H; now left | intros y Hy; apply H; now right].
Qed.

(** A token with finite bounds in a segment [[a, b]]: the check completes,
    and is silent exactly when the token is nested. *)
Lemma temporal_token_timed (t0 t1 tok : value) (a b : Q) :
  as_num t0 = Some (FFin a) -> as_num t1 = Some (FFin b) ->
  has_times tok = true ->
  outcome (temporal_token t0 t1 tok) = Ok tt /\
  (calls (temporal_token t0 t1 tok) = [] <-> token_nested a b tok = true).
Proof.
  intros Ha Hb Ht. unfold has_times, token_nested in *.
  destruct (times tok) as [[x y] |] eqn:E; [| discriminate].
  destruct tok as [| | | | | | td]; try discriminate E.
  destruct (times_bounds td x y E) as [Hx Hy].
  rewrite (temporal_token_numeric t0 t1 td _ _ _ _ Ha Hb Hx Hy).
  split; [reflexivity |]. cbn [calls snd]. unfold nesting_errors.
  rewrite !app_nil_iff, !if_nil_iff, !andb_true_iff. cbn [float_lt float_le].
  rewrite !negb_false_iff, negb_true_iff. tauto.
Qed.

Lemma resolved_duration_value (doc : dict) (d : pyfloat) :
  resolved_duration doc = Some d ->
  exists D : value,
    py_get (dict_get doc "audio" (VDict [])) "duration_s" (VFloat FInf) = Ok D /\
    as_num D = Some d /\ d <> FNan.
Proof.
  unfold resolved_duration, dict_get at 1.
  destruct (dict_lookup "audio" doc) as [[| | | | | | ad] |]; try discriminate.
  - unfold py_get, dict_get.
    destruct (dict_lookup "duration_s" ad) as [v |].
    + destruct (finite_num v) as [q |] eqn:E; [| discriminate].
      intros [= <-]. exists v. split; [reflexivity |].
      split; [now apply finite_num_as_num | discriminate].
    + intros [= <-]. exists (VFloat FInf). repeat split. discriminate.
  - intros [= <-]. exists (VFloat FInf). repeat split. discriminate.
Qed.

Lemma float_lt_le_fin (d : pyfloat) (b : Q) :
  d <> FNan -> (float_lt d (FFin b) = false <-> float_le (FFin b) d = true).
Proof.
  destruct d; cbn [float_lt float_le]; intro H;
    try (split; congruence).
  now rewrite negb_false_iff.
Qed.

(** A segment with finite bounds and timed tokens: the check completes,
    and is silent exactly when the segment is well timed. *)
Lemma temporal_segment_timed (D seg : value) (d : pyfloat) :
  as_num D = Some d -> d <> FNan -> timed_segment seg = true ->
  outcome (temporal_segment D seg) = Ok tt /\
  (calls (temporal_segment D seg) = [] <-> segment_well_timed d seg = true).
Proof.
  intros Hd Hnan. unfold timed_segment, has_times, segment_well_timed.
  destruct (times seg) as [[a b] |] eqn:E; [| discriminate].
  destruct seg as [| | | | | | sd]; try discriminate E. cbn [andb tokens_of].
  destruct (dict_get sd "tokens" (VList [])) as [| | | | | toks |] eqn:Et;
    try discriminate.
  intro Htoks. destruct (times_bounds sd a b E) as [Ha Hb].
  destruct (temporal_segment_numeric D sd _ _ _ Ha Hb Hd) as [Hc Ho].
  rewrite Hc, Ho, Et. unfold py_iter. rewrite bind_lift_ok.
  assert (Hall : forall tok, In tok toks ->
            outcome (temporal_token (dict_get sd "t0" VNone)
                       (dict_get sd "t1" VNone) tok) = Ok tt /\
            (calls (temporal_token (dict_get sd "t0" VNone)
                      (dict_get sd "t1" VNone) tok) = [] <->
             token_nested a b tok = true)).
  { intros tok Hin. apply temporal_token_timed; auto.
    rewrite forallb_forall in Htoks. now apply Htoks. }
  assert (Hloop :
    for_each toks (temporal_token (dict_get sd "t0" VNone) (dict_get sd "t1" VNone)) =
    (Ok tt, flat_map (fun tok => calls (temporal_token (dict_get sd "t0" VNone)
                                          (dict_get sd "t1" VNone) tok)) toks)).
  { apply for_each_shaped. intros tok Hin. destruct (Hall tok Hin) as [Hok _].
    now apply M_eq. }
  rewrite Hloop. split; [reflexivity |]. cbn [calls snd]. unfold segment_errors.
  rewrite !app_nil_iff, !if_nil_iff, flat_map_nil_iff, !andb_true_iff.
  rewrite forallb_forall, (float_lt_le_fin d b Hnan). cbn [float_lt float_le].
  rewrite negb_false_iff, negb_true_iff.
  split.
  - intros ((H1 & H2 & H3) & H4). repeat split; auto.
    intros tok Hin. apply (Hall tok Hin), H4, Hin.
  - intros (((H1 & H2) & H3) & H4). repeat split; auto.
    intros tok Hin. apply (Hall tok Hin), H4, Hin.
Qed.

(** X4. [_validate_temporal_constraints] (lines 165-203) on a document
    whose times are finite numbers: the pass completes, and it reports
    nothing exactly when every segment satisfies
    [0 <= t0 < t1 <= duration] (no upper bound when [audio.duration_s] is
    missing) and every token satisfies
    [segment.t0 <= t0 < t1 <= segment.t1]. *)
Theorem X4_temporal_silent (doc : dict) (segs : list value) (d : pyfloat) :
  resolved_duration doc = Some d ->
  dict_get doc "segments" (VList []) = VList segs ->
  forallb timed_segment segs = true ->
  outcome (_validate_temporal_constraints doc) = Ok tt /\
  (calls (_validate_temporal_constraints doc) = [] <->
   forallb (segment_well_timed d) segs = true).
Proof.
  intros Hdur Hsegs Hshape.
  destruct (resolved_duration_value doc d Hdur) as (D & HD & Hd & Hnan).
  unfold _validate_temporal_constraints. rewrite HD, bind_lift_ok, Hsegs.
  unfold py_iter. rewrite bind_lift_ok.
  assert (Hall : forall seg, In seg segs ->
            outcome (temporal_segment D seg) = Ok tt /\
            (calls (temporal_segment D seg) = [] <->
             segment_well_timed d seg = true)).
  { intros seg Hin. apply temporal_segment_timed; auto.
    rewrite forallb_forall in Hshape. now apply Hshape. }
  assert (Hloop : for_each segs (temporal_segment D) =
                  (Ok tt, flat_map (fun seg => calls (temporal_segment D seg)) segs)).
  { apply for_each_shaped. intros seg Hin. destruct (Hall seg Hin) as [Hok _].
    now apply M_eq. }
  rewrite Hloop. split; [reflexivity |]. cbn [calls snd].
  rewrite flat_map_nil_iff, forallb_forall.
  split; intros H seg Hin; apply (Hall seg Hin), H, Hin.
Qed.

(** ** Which pass adds what *)

Lemma required_fields_only_errors (doc : dict) :
  all_calls is_error (_validate_required_fields doc).
Proof.
  unfold _validate_required_fields, check_version, check_audio, check_segments.
  walk_pass; now apply all_calls_emit.
Qed.

Lemma temporal_only_errors (doc : dict) :
  all_calls is_error (_validate_temporal_constraints doc).
Proof.
  unfold _validate_temporal_constraints, temporal_segment, temporal_token.
  walk_pass; now apply all_calls_emit.
Qed.

Lemma id_uniqueness_only_errors (doc : dict) :
  all_calls is_error (_validate_id_uniqueness doc).
Proof.
  unfold _validate_id_uniqueness. cbv zeta.
  unfold uniqueness_segment, uniqueness_token.
  walk_pass; now apply all_calls_emit.
Qed.

Lemma references_only_errors (doc : dict) :
  all_calls is_error (_validate_references doc).
Proof.
  unfold _validate_references. cbv zeta.
  unfold collect_segment_ids, collect_token_id, references_segment,
    check_emphasis, check_reference.
  walk_pass; now apply all_calls_emit.
Qed.

Lemma ranges_only_errors (doc : dict) :
  all_calls is_error (_validate_ranges doc).
Proof.
  unfold _validate_ranges, ranges_segment, ranges_token, check_if_present,
    check_emotion, check_voice_quality, check_unit, check_signed_unit.
  walk_pass; now apply all_calls_emit.
Qed.

Lemma detect_profile_only_profile_info (doc : dict) :
  all_calls is_profile_or_info (_detect_profile doc).
Proof.
  unfold _detect_profile, scan_flags, profile_segment.
  walk_pass; now apply all_calls_emit.
Qed.

(** X5. On every document, and whether or not the pass raises: the
    required-fields, temporal, uniqueness, reference and range passes only
    ever add errors; the tonal pass only ever adds warnings; the profile
    detector only sets the profile and adds informational notes. *)
Theorem X5_pass_taxonomy (doc : dict) :
  forallb is_error (calls (_validate_required_fields doc)) = true /\
  forallb is_error (calls (_validate_temporal_constraints doc)) = true /\
  forallb is_error (calls (_validate_id_uniqueness doc)) = true /\
  forallb is_error (calls (_validate_references doc)) = true /\
  forallb is_error (calls (_validate_ranges doc)) = true /\
  forallb is_warning (calls (_validate_tonal_requirements doc)) = true /\
  forallb is_profile_or_info (calls (_detect_profile doc)) = true.
Proof.
  repeat split.
  - apply required_fields_only_errors.
  - apply temporal_only_errors.
  - apply id_uniqueness_only_errors.
  - apply references_only_errors.
  - apply ranges_only_errors.
  - apply tonal_never_errors.
  - apply detect_profile_only_profile_info.
Qed.

(** ** [validate]: how the passes compose *)

Lemma seq_ok_inv (m k : M unit) :
  outcome (m ;; k) = Ok tt ->
  outcome m = Ok tt /\ outcome k = Ok tt /\ calls (m ;; k) = calls m ++ calls k.
Proof.
  rewrite outcome_bind, calls_bind.
  destruct (outcome m) as [[] | e]; [auto | discriminate].
Qed.

Lemma profile_perform_all (cs : list call) (r : ValidationResult) :
  profile (perform_all cs r) = last_profile cs (profile r).
Proof.
  unfold perform_all, last_profile.
  revert r; induction cs as [| c cs IH]; intro r; [reflexivity |].
  cbn [fold_left]. rewrite IH. now destruct c.
Qed.

Lemma last_profile_app (cs cs' : list call) (p : option string) :
  last_profile (cs ++ cs') p = last_profile cs' (last_profile cs p).
Proof. apply fold_left_app. Qed.

Lemma last_profile_untouched (cs : list call) (p : option string) :
  forallb is_error_or_warning cs = true -> last_profile cs p = p.
Proof.
  unfold last_profile. revert p; induction cs as [| c cs IH]; intro p; [reflexivity |].
  cbn [forallb fold_left]. rewrite andb_true_iff. intros [Hc Hcs].
  rewrite (IH _ Hcs). now destruct c.
Qed.

Lemma errors_only (cs : list call) :
  forallb is_error cs = true ->
  warning_msgs cs = [] /\ info_msgs cs = [] /\
  forallb is_error_or_warning cs = true.
Proof.
  induction cs as [| c cs IH]; [auto |].
  cbn [forallb]. rewrite andb_true_iff. intros [Hc Hcs].
  destruct (IH Hcs) as (Hw & Hi & He). destruct c; try discriminate Hc.
  simpl. now rewrite Hw, Hi, He.
Qed.

Lemma warnings_only (cs : list call) :
  forallb is_warning cs = true ->
  error_msgs cs = [] /\ info_msgs cs = [] /\
  forallb is_error_or_warning cs = true.
Proof.
  induction cs as [| c cs IH]; [auto |].
  cbn [forallb]. rewrite andb_true_iff. intros [Hc Hcs].
  destruct (IH Hcs) as (Hw & Hi & He). destruct c; try discriminate Hc.
  simpl. now rewrite Hw, Hi, He.
Qed.

Lemma profile_info_only (cs : list call) :
  forallb is_profile_or_info cs = true ->
  error_msgs cs = [] /\ warning_msgs cs = [].
Proof.
  induction cs as [| c cs IH]; [auto |].
  cbn [forallb]. rewrite andb_true_iff. intros [Hc Hcs].
  destruct (IH Hcs) as (He & Hw). destruct c; try discriminate Hc;
    simpl; now rewrite He, Hw.
Qed.

Lemma warning_msgs_app (cs cs' : list call) :
  warning_msgs (cs ++ cs') = warning_msgs cs ++ warning_msgs cs'.
Proof. apply flat_map_app. Qed.

Lemma info_msgs_app (cs cs' : list call) :
  info_msgs (cs ++ cs') = info_msgs cs ++ info_msgs cs'.
Proof. apply flat_map_app. Qed.

Lemma forallb_app_true {A : Type} (f : A -> bool) (l l' : list A) :
  forallb f l = true -> forallb f l' = true -> forallb f (l ++ l') = true.
Proof. intros H H'. now rewrite forallb_app, H, H'. Qed.

(** The schema step never raises, and adds errors or one warning only. *)
Lemma schema_step_calls (schema : value) (jsonschema : bool)
    (found : list schema_error + string) :
  outcome (schema_step schema jsonschema found) = Ok tt /\
  forallb is_error_or_warning (calls (schema_step schema jsonschema found)) = true /\
  info_msgs (calls (schema_step schema jsonschema found)) = [].
Proof.
  unfold schema_step.
  destruct (truthy schema && jsonschema); [| destruct jsonschema; repeat split].
  unfold _validate_schema. destruct found as [errs | e]; [| repeat split].
  induction errs as [| x errs (IHo & IHc & IHi)]; [repeat split |].
  cbn [for_each]. rewrite outcome_bind, calls_bind. cbn [add_error emit outcome fst calls snd].
  rewrite IHo. cbn [app forallb is_error_or_warning andb info_msgs flat_map].
  repeat split; assumption.
Qed.

(** X6. [validate] (lines 110-131): when it returns, its error list is
    the errors of the schema step followed by those of the required-fields,
    temporal, uniqueness, reference and range passes, in that order; its
    warnings are those of the schema step followed by those of the tonal
    pass; its info entries are those of the profile detector; its profile
    is the detected one.  So the result is valid exactly when the schema
    step and those five passes reported nothing, whatever the tonal pass and
    the detector did. *)
Theorem X6_validate_composition (schema : value) (jsonschema : bool)
    (found : list schema_error + string) (doc : dict) (r : ValidationResult) :
  validation_result (schema_step schema jsonschema found) doc = Ok r ->
  let schema_calls := calls (schema_step schema jsonschema found) in
  let rule_errors :=
    error_msgs (calls (_validate_required_fields doc)) ++
    error_msgs (calls (_validate_temporal_constraints doc)) ++
    error_msgs (calls (_validate_id_uniqueness doc)) ++
    error_msgs (calls (_validate_references doc)) ++
    error_msgs (calls (_validate_ranges doc)) in
  errors r = error_msgs schema_calls ++ rule_errors /\
  warnings r =
    warning_msgs schema_calls ++
    warning_msgs (calls (_validate_tonal_requirements doc)) /\
  info r = info_msgs (calls (_detect_profile doc)) /\
  profile r = detected_profile doc /\
  (ValidationResult.is_valid r = true <->
   error_msgs schema_calls = [] /\ rule_errors = []).
Proof.
  intros H schema_calls rule_errors. unfold validation_result in H.
  destruct (outcome (validate (schema_step schema jsonschema found) doc))
    as [[] | e] eqn:Hout; [| discriminate H].
  injection H as <-.
  unfold validate in Hout |- *.
  destruct (schema_step_calls schema jsonschema found) as (_ & Hs & Hsi).
  apply seq_ok_inv in Hout. destruct Hout as (_ & Hout & E0).
  apply seq_ok_inv in Hout. destruct Hout as (_ & Hout & E1).
  apply seq_ok_inv in Hout. destruct Hout as (_ & Hout & E2).
  apply seq_ok_inv in Hout. destruct Hout as (_ & Hout & E3).
  apply seq_ok_inv in Hout. destruct Hout as (_ & Hout & E4).
  apply seq_ok_inv in Hout. destruct Hout as (_ & Hout & E5).
  apply seq_ok_inv in Hout. destruct Hout as (_ & _ & E6).
  destruct (errors_only _ (required_fields_only_errors doc)) as (W1 & I1 & P1).
  destruct (errors_only _ (temporal_only_errors doc)) as (W2 & I2 & P2).
  destruct (errors_only _ (id_uniqueness_only_errors doc)) as (W3 & I3 & P3).
  destruct (errors_only _ (references_only_errors doc)) as (W4 & I4 & P4).
  destruct (errors_only _ (ranges_only_errors doc)) as (W5 & I5 & P5).
  destruct (warnings_only _ (tonal_never_errors doc)) as (E7 & I7 & P7).
  destruct (profile_info_only _ (detect_profile_only_profile_info doc)) as (E8 & W8).
  unfold run. rewrite E0, E1, E2, E3, E4, E5, E6.
  destruct (perform_all_lists
              (calls (schema_step schema jsonschema found) ++
               calls (_validate_required_fields doc) ++
               calls (_validate_temporal_constraints doc) ++
               calls (_validate_id_uniqueness doc) ++
               calls (_validate_references doc) ++
               calls (_validate_ranges doc) ++
               calls (_validate_tonal_requirements doc) ++
               calls (_detect_profile doc)) new_result) as (He & Hw & Hi).
  assert (Herr : errors (perform_all
              (calls (schema_step schema jsonschema found) ++
               calls (_validate_required_fields doc) ++
               calls (_validate_temporal_constraints doc) ++
               calls (_validate_id_uniqueness doc) ++
               calls (_validate_references doc) ++
               calls (_validate_ranges doc) ++
               calls (_validate_tonal_requirements doc) ++
               calls (_detect_profile doc)) new_result) =
            error_msgs schema_calls ++ rule_errors).
  { rewrite He. cbn [errors new_result app]. rewrite !error_msgs_app, E7, E8.
    unfold rule_errors, schema_calls. now rewrite !app_nil_r. }
  split; [exact Herr |]. split; [| split; [| split]].
  - rewrite Hw. cbn [warnings new_result app].
    rewrite !warning_msgs_app, W1, W2, W3, W4, W5, W8. cbn [app].
    now rewrite app_nil_r.
  - rewrite Hi. cbn [info new_result app].
    rewrite !info_msgs_app, Hsi, I1, I2, I3, I4, I5, I7. reflexivity.
  - unfold detected_profile, run. rewrite !profile_perform_all.
    rewrite !app_assoc, last_profile_app. f_equal.
    apply last_profile_untouched.
    repeat apply forallb_app_true; assumption.
  - rewrite is_valid_nil, Herr. apply app_nil_iff.
Qed.

(** ** The schema step *)

Lemma validate_schema_errors (errs : list schema_error) :
  _validate_schema (inl errs) =
  (Ok tt, map (fun e => AddError (schema_entry e)) errs).
Proof.
  unfold _validate_schema. induction errs as [| e errs IH]; [reflexivity |].
  cbn [for_each map]. rewrite IH. reflexivity.
Qed.

(** X7. [_validate_schema] and its call in [validate] (lines 115-118,
    133-142): the step never raises.  Without the [jsonschema] package it
    adds one warning and nothing else, whatever the schema.  With the
    package and no schema, or an empty schema object, it adds nothing.
    Otherwise it adds one error per error of the library, in the library's
    order, or a single error when the library raised; an error with an
    empty path is located "at root", and the elements of a path are joined
    by " -> ". *)
Theorem X7_schema_step (schema : value) (found : list schema_error + string) :
  (forall jsonschema : bool,
     outcome (schema_step schema jsonschema found) = Ok tt) /\
  schema_step schema false found = (Ok tt, [AddWarning no_jsonschema_msg]) /\
  (truthy schema = false -> schema_step schema true found = (Ok tt, [])) /\
  (truthy schema = true ->
   (forall errs, found = inl errs ->
      schema_step schema true found =
      (Ok tt, map (fun e => AddError (schema_entry e)) errs)) /\
   (forall e, found = inr e ->
      schema_step schema true found =
      (Ok tt, [AddError ("Schema validation error: " ++ e)]))) /\
  (forall (msg a b : string),
     schema_entry (mkSchemaError msg []) = ("Schema: " ++ msg ++ " (at root)")%string /\
     (a <> "" ->
      schema_entry (mkSchemaError msg [VStr a; VStr b]) =
      ("Schema: " ++ msg ++ " (at " ++ (a ++ " -> " ++ b) ++ ")")%string)).
Proof.
  split; [intro js; apply schema_step_calls |].
  split; [unfold schema_step; now rewrite andb_false_r |].
  split; [intro H; unfold schema_step; now rewrite H |].
  split.
  - intro H. unfold schema_step. rewrite H. cbn [andb]. split.
    + intros errs ->. apply validate_schema_errors.
    + intros e ->. reflexivity.
  - intros msg a b. split; [reflexivity |].
    intro Ha. unfold schema_entry. cbn [absolute_path message map join py_str].
    destruct a as [| c a]; [congruence | reflexivity].
Qed.

Lemma result_eq (r r' : ValidationResult) :
  errors r = errors r' -> warnings r = warnings r' -> info r = info r' ->
  profile r = profile r' -> r = r'.
Proof. destruct r, r'; simpl; congruence. Qed.

(** X8. Without the [jsonschema] package [validate] behaves as it does
    with the schema step left out, but for one warning put first: the
    errors, and so the verdict, the info entries and the profile are the
    same. *)
Theorem X8_missing_jsonschema_keeps_verdict (schema : value)
    (found : list schema_error + string) (doc : dict) (r : ValidationResult) :
  validation_result (ret tt) doc = Ok r ->
  validation_result (schema_step schema false found) doc =
  Ok {| errors := errors r; warnings := no_jsonschema_msg :: warnings r;
        info := info r; profile := profile r |}.
Proof.
  assert (Hstep : schema_step schema false found =
                  (Ok tt, [AddWarning no_jsonschema_msg]))
    by (unfold schema_step; now rewrite andb_false_r).
  unfold validation_result, validate. rewrite Hstep, bind_ret, bind_pair_ok.
  cbn [outcome fst].
  set (rest := _validate_required_fields doc ;; _validate_temporal_constraints doc ;;
               _validate_id_uniqueness doc ;; _validate_references doc ;;
               _validate_ranges doc ;; _validate_tonal_requirements doc ;;
               _detect_profile doc).
  destruct (outcome rest) as [[] | e]; [| discriminate].
  intros [= <-]. f_equal. unfold run. cbn [calls snd].
  fold (calls rest).
  destruct (perform_all_lists ([AddWarning no_jsonschema_msg] ++ calls rest)
              new_result) as (He & Hw & Hi).
  destruct (perform_all_lists (calls rest) new_result) as (He' & Hw' & Hi').
  apply result_eq; cbn [errors warnings info profile].
  - now rewrite He, He'.
  - now rewrite Hw, Hw'.
  - now rewrite Hi, Hi'.
  - now rewrite !profile_perform_all.
Qed.

(** ** The profile detector: its calls, and how the tier grows *)

(** X9. [_detect_profile] (lines 328-362).  When the scan of the segments
    completes and [meta] is an object or absent, the detector sets the
    profile exactly once, to the tier of the two flags, and then adds one
    info entry quoting [meta.profile] when that value is true (a non-empty
    string, a non-zero number, ...) and none otherwise.  When the scan
    raises, the detector makes no call at all. *)
Theorem X9_detector_calls (doc : dict) :
  (forall has_expressive has_tonal : bool,
     outcome (scan_flags doc) = Ok (has_expressive, has_tonal) ->
     object_or_absent doc "meta" = true ->
     _detect_profile doc =
     (Ok tt,
      SetProfile (classify has_expressive has_tonal) ::
      (if truthy (declared_profile doc)
       then [AddInfo ("Declared profile: " ++ py_str (declared_profile doc))]
       else []))) /\
  (forall e : exn,
     outcome (scan_flags doc) = Raise e -> _detect_profile doc = (Raise e, [])).
Proof.
  pose proof (scan_flags_silent doc) as Hs. split.
  - intros he ht Ho Hm. unfold _detect_profile.
    rewrite (M_eq _ _ _ Ho Hs).
    change (@pair (res (bool * bool)) (list call) (Ok (he, ht)) [])
      with (@lift (bool * bool) (Ok (he, ht))).
    rewrite bind_lift_ok.
    destruct (get_object _ _ Hm) as [_ ->]. unfold py_get. unfold declared_profile.
    unfold set_profile, add_info.
    apply M_eq.
    + rewrite outcome_bind. cbn [emit outcome fst]. rewrite bind_lift_ok.
      apply outcome_when.
    + rewrite calls_bind. cbn [emit outcome fst calls snd app].
      rewrite bind_lift_ok, calls_when. reflexivity.
  - intros e Ho. unfold _detect_profile. now rewrite (M_eq _ _ _ Ho Hs).
Qed.

Lemma with_segments_detected (doc : dict) (l : list value) :
  object_or_absent doc "defaults" = true ->
  forallb (profile_segment_ok (default_language doc)) l = true ->
  detected_profile (with_segments l doc) =
  Some (classify (existsb expressive_segment l)
          (existsb (tonal_system_segment (default_language doc)) l)).
Proof.
  intros Hd Hok.
  assert (Hdl : default_language (with_segments l doc) = default_language doc).
  { unfold default_language, child, with_segments.
    now rewrite dict_get_set_neq by discriminate. }
  rewrite <- Hdl. apply detected_profile_shaped.
  - unfold object_or_absent, with_segments.
    now rewrite dict_get_set_neq by discriminate.
  - apply dict_get_set_eq.
  - now rewrite Hdl.
Qed.

Lemma existsb_incl {A : Type} (f : A -> bool) (l l' : list A) :
  incl l l' -> existsb f l = true -> existsb f l' = true.
Proof.
  intros Hi H. apply existsb_exists in H. destruct H as (x & Hx & Hf).
  apply existsb_exists. exists x. auto.
Qed.

Lemma classify_monotone (e t e' t' : bool) :
  (e = true -> e' = true) -> (t = true -> t' = true) ->
  tier_rank (Some (classify e t)) <= tier_rank (Some (classify e' t')).
Proof.
  intros He Ht.
  destruct e; [rewrite (He eq_refl) |]; (destruct t; [rewrite (Ht eq_refl) |]);
    try (destruct e'); try (destruct t'); cbv; lia.
Qed.

(** X10. The tier the detector assigns grows with the segments: over the
    same defaults, a document whose segments include those of another is
    given at least the other's tier, so the tier does not depend on the
    order of the segments; and a document without an expressive track is
    PG-Core however much tone annotation it carries. *)
Theorem X10_tier_grows (doc : dict) (l l' : list value) :
  object_or_absent doc "defaults" = true ->
  forallb (profile_segment_ok (default_language doc)) l = true ->
  forallb (profile_segment_ok (default_language doc)) l' = true ->
  (incl l l' ->
   tier_rank (detected_profile (with_segments l doc)) <=
   tier_rank (detected_profile (with_segments l' doc))) /\
  (incl l l' -> incl l' l ->
   detected_profile (with_segments l doc) =
   detected_profile (with_segments l' doc)) /\
  (existsb expressive_segment l = false ->
   detected_profile (with_segments l doc) = Some PG_Core).
Proof.
  intros Hd Hl Hl'.
  rewrite (with_segments_detected doc l Hd Hl),
    (with_segments_detected doc l' Hd Hl').
  split; [| split].
  - intro Hi. apply classify_monotone; now apply existsb_incl.
  - intros Hi Hi'.
    assert (Heq : forall f : value -> bool, existsb f l = existsb f l').
    { intro f. destruct (existsb f l) eqn:E.
      - symmetry. now apply (existsb_incl f l l').
      - destruct (existsb f l') eqn:E'; [| reflexivity].
        now rewrite (existsb_incl f l' l Hi' E') in E. }
    now rewrite !Heq.
  - intros ->. now destruct (existsb _ l).
Qed.

(** ** The printed report *)







Lemma nth_error_combine_seq (l : list string) :
  forall (k : nat) (e : string) (start : nat),
    nth_error l k = Some e ->
    nth_error (combine (seq start (List.length l)) l) k = Some (start + k, e).
Proof.
  induction l as [| x l IH]; intros [| k] e start H; try discriminate.
  - cbn in *. injection H as ->. now rewrite Nat.add_0_r.
  - cbn [List.length seq combine nth_error] in *.
    rewrite (IH k e (S start) H). f_equal. f_equal. lia.
Qed.

Lemma nth_error_enumerate (l : list string) (k : nat) (e : string) :
  nth_error l k = Some e ->
  nth_error (enumerate_from_1 l) k = Some (S k, e).
Proof.
  intro H. unfold enumerate_from_1.
  now rewrite (nth_error_combine_seq l k e 1 H).
Qed.

(** X12. A section of the report (lines 61-66, 68-73, 75-80).  An empty
    list prints nothing, not even its title.  A list with entries prints
    a blank line and a rule of sixty [=], the title with the number of
    entries, a rule of sixty [=], and then one line per entry and no
    other, in order, the entry at position [k] numbered [k + 1]. *)
Theorem X12_section_listing (title : string) (entries : list string)
    (k : nat) (entry : string) :
  nth_error entries k = Some entry ->
  print_section title [] = [] /\
  List.length (print_section title entries) = 3 + List.length entries /\
  nth_error (print_section title entries) 0 =
    Some (String (ascii_of_nat 10)
            "============================================================") /\
  nth_error (print_section title entries) 1 =
    Some (title ++ " (" ++ string_of_nat (List.length entries) ++ ")")%string /\
  nth_error (print_section title entries) 2 =
    Some "============================================================" /\
  nth_error (print_section title entries) (3 + k) =
    Some ("  " ++ string_of_nat (S k) ++ ". " ++ entry)%string.
Proof.
  intro H. split; [reflexivity |].
  assert (E : print_section title entries =
              [rule_after_blank; section_title title (List.length entries);
               rule] ++ map numbered (enumerate_from_1 entries)).
  { destruct entries; [destruct k; discriminate H | reflexivity]. }
  rewrite E. split; [| split; [| split; [| split]]].
  - rewrite length_app, length_map. unfold enumerate_from_1.
    rewrite length_combine, length_seq, Nat.min_id. reflexivity.
  - reflexivity.
  - reflexivity.
  - reflexivity.
  - change (nth_error (map numbered (enumerate_from_1 entries)) k =
            Some (numbered (S k, entry))).
    rewrite nth_error_map, (nth_error_enumerate _ _ _ H). reflexivity.
Qed.

(** ** The uniqueness pass: when it is silent *)

Lemma finding_eqb_refl (f : finding) : finding_eqb f f = true.
Proof. destruct f; cbn; auto using String.eqb_refl. Qed.

Lemma no_finding_iff (tr : list finding) :
  tr = [] <-> forall f, count_finding f tr = 0.
Proof.
  split; [now intros -> |]. intro H.
  destruct tr as [| f tr]; [reflexivity |]. specialize (H f).
  unfold count_finding in H. cbn [filter] in H.
  rewrite finding_eqb_refl in H. discriminate H.
Qed.

Lemma count_id_zero (a : string) (l : list string) :
  count_id a l = 0 <-> ~ In a l.
Proof.
  induction l as [| b l IH]; [cbn; tauto |].
  rewrite count_id_cons. cbn [In]. destruct (String.eqb a b) eqn:E.
  - apply String.eqb_eq in E. subst b. split; [discriminate | intro H].
    exfalso. apply H. now left.
  - apply String.eqb_neq in E. cbn [Nat.add]. rewrite IH.
    split; [intros H [H' | H']; [congruence | tauto] | tauto].
Qed.

Lemma NoDup_count_id (l : list string) :
  NoDup l <-> forall s, Nat.pred (count_id s l) = 0.
Proof.
  induction l as [| a l IH].
  - split; [reflexivity | constructor].
  - rewrite NoDup_cons_iff, IH, <- count_id_zero. split.
    + intros [Ha H] s. specialize (H s). rewrite count_id_cons.
      destruct (String.eqb s a) eqn:E; [| exact H].
      apply String.eqb_eq in E. subst s. now rewrite Ha.
    + intro H. split.
      * specialize (H a). rewrite count_id_cons, String.eqb_refl in H.
        exact H.
      * intro s. specialize (H s). rewrite count_id_cons in H.
        destruct (String.eqb s a); [| exact H]. cbn in H. now rewrite H.
Qed.

Lemma count_no_id_zero (l : list value) :
  forallb is_dict l = true ->
  (count_no_id l = 0 <-> forallb has_id l = true).
Proof.
  unfold count_no_id.
  induction l as [| v l IH]; [intros _; cbn; tauto |].
  cbn [forallb filter]. rewrite !andb_true_iff. intros [Hv Hl].
  destruct v as [| | | | | | d]; try discriminate Hv. cbn [has_id].
  destruct (usable_id d); cbn [List.length].
  - rewrite (IH Hl). tauto.
  - split; [discriminate | intros [H _]; discriminate H].
Qed.

Lemma segments_are_objects (segs : list value) :
  forallb uniqueness_segment_ok segs = true ->
  forallb is_dict segs = true /\
  forallb is_dict (flat_map tokens_of segs) = true.
Proof.
  induction segs as [| seg segs IH]; [now split |].
  cbn [forallb flat_map]. rewrite forallb_app, !andb_true_iff.
  intros [Hseg Hsegs]. destruct (IH Hsegs) as [IH1 IH2].
  destruct seg as [| | | | | | sd]; try discriminate Hseg.
  repeat split; auto.
  pose proof (segment_ok_tokens sd Hseg) as Htoks.
  apply forallb_forall. intros tok Hin.
  rewrite forallb_forall in Htoks. specialize (Htoks tok Hin).
  now destruct tok.
Qed.

(** X13. [_validate_id_uniqueness] (lines 205-226) on a document whose
    [id] fields are strings or absent.  The pass reports nothing exactly
    when every segment and every token carries a non-empty [id], no two
    segments share an [id], and no two tokens of the document share an
    [id]. *)
Theorem X13_ids_accepted (doc : dict) (segs : list value) :
  dict_get doc "segments" (VList []) = VList segs ->
  forallb uniqueness_segment_ok segs = true ->
  _validate_id_uniqueness doc = (Ok tt, []) <->
  forallb has_id segs = true /\
  forallb has_id (flat_map tokens_of segs) = true /\
  NoDup (segment_ids segs) /\
  NoDup (all_token_ids segs).
Proof.
  intros Hsegs Hok. rewrite (id_uniqueness_shaped doc segs Hsegs Hok).
  destruct (segment_trace_counts segs [] [] Hok) as (H1 & H2 & H3 & H4).
  destruct (segments_are_objects segs Hok) as [Hd Hd'].
  rewrite <- (count_no_id_zero segs Hd), <- (count_no_id_zero _ Hd').
  unfold segment_ids, all_token_ids. rewrite !NoDup_count_id.
  rewrite <- H3, <- H4.
  split.
  - intro H. assert (Htr : segment_trace [] [] segs = []).
    { injection H as H. now destruct (segment_trace [] [] segs). }
    rewrite no_finding_iff in Htr. repeat split; try apply Htr.
    + intro s. rewrite <- dup_count_empty, <- H1. apply Htr.
    + intro s. rewrite <- dup_count_empty, <- H2. apply Htr.
  - intros (Hs & Ht & Hds & Hdt).
    assert (Htr : segment_trace [] [] segs = []).
    { apply no_finding_iff. intros [s | s | |]; auto.
      - rewrite H1, dup_count_empty. apply Hds.
      - rewrite H2, dup_count_empty. apply Hdt. }
    now rewrite Htr.
Qed.

(** ** The primary subtag of a language tag *)

Lemma lower_ascii_hyphen (c : ascii) :
  Ascii.eqb (lower_ascii c) "-" = Ascii.eqb c "-".
Proof. destruct c as [[] [] [] [] [] [] [] []]; reflexivity. Qed.

Lemma lower_ascii_twice (c : ascii) :
  lower_ascii (lower_ascii c) = lower_ascii c.
Proof. destruct c as [[] [] [] [] [] [] [] []]; reflexivity. Qed.

Lemma lower_split_lower (s : string) :
  lower (split_first "-" (lower s)) = lower (split_first "-" s).
Proof.
  induction s as [| c s IH]; [reflexivity |].
  cbn [lower split_first]. rewrite lower_ascii_hyphen.
  destruct (Ascii.eqb c "-"); [reflexivity |].
  cbn [lower]. now rewrite lower_ascii_twice, IH.
Qed.

Lemma split_first_region (s region : string) :
  no_hyphen s = true ->
  split_first "-" (s ++ String "-" region) = s.
Proof.
  induction s as [| c s IH]; [reflexivity |].
  cbn [no_hyphen append split_first]. rewrite andb_true_iff.
  intros [Hc Hs]. apply negb_true_iff in Hc. now rewrite Hc, (IH Hs).
Qed.

Lemma split_first_whole (s : string) :
  no_hyphen s = true -> split_first "-" s = s.
Proof.
  induction s as [| c s IH]; [reflexivity |].
  cbn [no_hyphen split_first]. rewrite andb_true_iff.
  intros [Hc Hs]. apply negb_true_iff in Hc. now rewrite Hc, (IH Hs).
Qed.

Lemma lang_prefix_text (s : string) :
  lang_prefix (VStr s) = Ok (lower (split_first "-" s)).
Proof.
  unfold lang_prefix. cbn [truthy].
  destruct (String.eqb s "") eqn:E; [| reflexivity].
  apply String.eqb_eq in E. now subst s.
Qed.

(** X14. The language prefix (lines 308 and 345).  The prefix of a tag is
    that of its text before the first hyphen, so a region or script suffix
    never changes whether a tag counts as tonal; and it is the same for a
    tag and for the tag with its ASCII letters lowercased, so "ZH-Hant",
    "zh-hant" and "zh" are treated alike.  The prefix is compared whole:
    only the five tags themselves are tonal prefixes. *)
Theorem X14_language_prefix (s region : string) :
  (no_hyphen s = true ->
   lang_prefix (VStr (s ++ "-" ++ region)) = lang_prefix (VStr s)) /\
  lang_prefix (VStr (lower s)) = lang_prefix (VStr s) /\
  (forall p : string,
     lang_prefix (VStr s) = Ok p ->
     (in_tonal_langs p = true <-> In p tonal_langs) /\
     no_hyphen p = true /\ lower p = p).
Proof.
  split; [| split].
  - intro H. rewrite !lang_prefix_text.
    change (s ++ "-" ++ region)%string with (s ++ String "-" region)%string.
    now rewrite (split_first_region s region H), (split_first_whole s H).
  - rewrite !lang_prefix_text. now rewrite lower_split_lower.
  - intros p. rewrite lang_prefix_text. intros [= <-]. split; [| split].
    + unfold in_tonal_langs. rewrite existsb_exists. split.
      * intros (x & Hx & E). apply String.eqb_eq in E. now rewrite E.
      * intro H. eexists. split; [exact H | apply String.eqb_refl].
    + induction s as [| c s IH]; [reflexivity |].
      cbn [split_first]. destruct (Ascii.eqb c "-") eqn:E; [reflexivity |].
      cbn [lower no_hyphen]. now rewrite lower_ascii_hyphen, E, IH.
    + induction s as [| c s IH]; [reflexivity |].
      cbn [split_first]. destruct (Ascii.eqb c "-"); [reflexivity |].
      cbn [lower]. now rewrite lower_ascii_twice, IH.
Qed.

(** ** References that are not a list of strings *)

Lemma ascii_not_continuation (c : ascii) :
  (nat_of_ascii c <? 128)%nat = true -> is_continuation c = false.
Proof.
  intro H. apply Nat.ltb_lt in H. unfold is_continuation.
  destruct (128 <=? nat_of_ascii c)%nat eqn:E; [| reflexivity].
  apply Nat.leb_le in E. lia.
Qed.

Lemma code_points_ascii (s : string) :
  ascii_text s = true -> code_points s = letters s.
Proof.
  unfold ascii_text.
  induction s as [| c r IH]; [reflexivity |].
  cbn [list_ascii_of_string forallb]. rewrite andb_true_iff. intros [_ Hr].
  cbn [code_points letters]. rewrite (IH Hr).
  destruct r as [| c' r']; [reflexivity |].
  cbn [list_ascii_of_string forallb] in Hr. rewrite andb_true_iff in Hr.
  destruct Hr as [Hc' _]. rewrite (ascii_not_continuation c' Hc').
  reflexivity.
Qed.

Lemma code_points_whole (s : string) :
  String.concat "" (code_points s) = s.
Proof.
  assert (G : forall (l : list string) (a b : string),
             String.concat "" ((a ++ b)%string :: l) =
             (a ++ String.concat "" (b :: l))%string).
  { intros l a b. destruct l as [| x l]; cbn [String.concat].
    - reflexivity.
    - cbn [append]. induction a as [| y a IHa]; [reflexivity |].
      cbn [append]. now rewrite IHa. }
  induction s as [| c r IH]; [reflexivity |].
  cbn [code_points].
  destruct r as [| c' r']; [reflexivity |].
  destruct (code_points (String c' r')) as [| k tl] eqn:E.
  - cbn in IH. discriminate IH.
  - destruct (is_continuation c').
    + change (String c k) with (String c EmptyString ++ k)%string.
      rewrite G, IH. reflexivity.
    + change (String c EmptyString) with (String c EmptyString ++ "")%string.
      rewrite G. cbn [String.concat append].
      change (String.concat "" (k :: tl)) with
        (match tl with [] => k | _ :: _ => (k ++ "" ++ String.concat "" tl)%string end)
        in IH.
      destruct tl as [| k' tl']; cbn [append] in *; rewrite ?IH; reflexivity.
Qed.

Lemma strings_texts (l : list string) :
  forallb is_string (map VStr l) = true /\ strings (map VStr l) = l.
Proof.
  induction l as [| x l [IH1 IH2]]; [now split |].
  cbn [map forallb is_string strings flat_map andb app].
  fold (strings (map VStr l)). now rewrite IH1, IH2.
Qed.

Lemma check_texts (T : pyset) (l : list string) :
  for_each (map VStr l) (check_reference T) = (Ok tt, dangling_errors T l).
Proof.
  destruct (strings_texts l) as [H1 H2].
  now rewrite (check_references_shaped T _ H1), H2.
Qed.

Lemma check_emphasis_token_ids (T : pyset) (ed sp : dict) (ids : value) :
  dict_get ed "span" VNone = VDict sp ->
  dict_lookup "token_ids" sp = Some ids ->
  check_emphasis T (VDict ed) =
  (refs <- lift (py_iter ids) ;; for_each refs (check_reference T)).
Proof.
  intros Hspan Hids. unfold check_emphasis, py_get.
  rewrite bind_lift_ok, Hspan. cbn [is_dict].
  unfold py_contains, py_getitem, dict_has.
  now rewrite bind_lift_ok, Hids, bind_lift_ok.
Qed.

(** X15. [span.token_ids] (lines 240-244) when it is not a list of strings.
    A string is walked character by character, each character looked up as
    a token ID: the characters are those of the text, in order and with
    nothing left out, one per byte when the text is ASCII and one per
    UTF-8 sequence otherwise; an object is walked by its keys; null, a boolean or a number
    stops the pass with a [TypeError] before any error is recorded; and a
    list or object among the references stops it with a [TypeError] after
    the errors of the references before it. *)
Theorem X15_token_ids_shapes (T : pyset) (ed sp : dict) :
  dict_get ed "span" VNone = VDict sp ->
  (forall s : string,
     dict_lookup "token_ids" sp = Some (VStr s) ->
     check_emphasis T (VDict ed) =
       (Ok tt, dangling_errors T (code_points s)) /\
     String.concat "" (code_points s) = s /\
     (ascii_text s = true -> code_points s = letters s)) /\
  (forall d : dict,
     dict_lookup "token_ids" sp = Some (VDict d) ->
     check_emphasis T (VDict ed) = (Ok tt, dangling_errors T (dict_keys d))) /\
  (forall v : value,
     dict_lookup "token_ids" sp = Some v ->
     not_iterable v = true ->
     check_emphasis T (VDict ed) = (Raise TypeError, [])) /\
  (forall (before : list string) (x : value) (rest : list value),
     dict_lookup "token_ids" sp = Some (VList (map VStr before ++ x :: rest)) ->
     hashable x = false ->
     check_emphasis T (VDict ed) = (Raise TypeError, dangling_errors T before)).
Proof.
  intro Hspan. split; [intros s H; split; [| split] | repeat split].
  - rewrite (check_emphasis_token_ids T ed sp _ Hspan H).
    unfold py_iter, chars. now rewrite bind_lift_ok, check_texts.
  - apply code_points_whole.
  - apply code_points_ascii.
  - intros d Hids. rewrite (check_emphasis_token_ids T ed sp _ Hspan Hids).
    unfold py_iter. now rewrite bind_lift_ok, check_texts.
  - intros v Hids Hv. rewrite (check_emphasis_token_ids T ed sp _ Hspan Hids).
    destruct v; try discriminate Hv; reflexivity.
  - intros before x rest Hids Hx.
    rewrite (check_emphasis_token_ids T ed sp _ Hspan Hids).
    unfold py_iter. rewrite bind_lift_ok.
    assert (Hhead : for_each (x :: rest) (check_reference T) =
                    (Raise TypeError, [])).
    { cbn [for_each]. unfold check_reference, set_mem. rewrite Hx.
      now rewrite bind_lift_raise. }
    apply M_eq.
    + now rewrite outcome_for_each_app, check_texts, Hhead.
    + rewrite calls_for_each_app, check_texts, Hhead. cbn. apply app_nil_r.
Qed.

(** ** The range pass: whom an error is attributed to *)

Lemma append_assoc (a b c : string) :
  ((a ++ b) ++ c = a ++ (b ++ c))%string.
Proof. induction a as [| x a IH]; [reflexivity |]. cbn. now rewrite IH. Qed.

Lemma under_shorter (p q : string) (c : call) :
  under (p ++ q) c = true -> under p c = true.
Proof.
  destruct c as [m | m | m | m]; try discriminate. cbn [under].
  rewrite !starts_with_iff. intros [r ->]. exists (q ++ r)%string.
  apply append_assoc.
Qed.

Lemma under_self (p r : string) : under p (AddError (p ++ r)) = true.
Proof. cbn [under]. apply starts_with_iff. now exists r. Qed.

(** Closes a leaf of a walked pass: an error whose message begins with
    the expected path. *)
Ltac under_leaf :=
  apply all_calls_emit; cbn [under]; apply starts_with_iff;
  rewrite ?append_assoc; eexists; rewrite ?append_assoc; reflexivity.

Lemma check_unit_under (v : value) (path : string) :
  all_calls (under path) (check_unit v path).
Proof. unfold check_unit. walk_pass. under_leaf. Qed.

Lemma check_emotion_under (e : value) (path : string) :
  all_calls (under path) (check_emotion e path).
Proof. unfold check_emotion. walk_pass; under_leaf. Qed.

Lemma check_voice_quality_under (q : value) (path : string) :
  all_calls (under path) (check_voice_quality q path).
Proof. unfold check_voice_quality. walk_pass; under_leaf. Qed.

Lemma ranges_token_under (j : nat) (td : dict) :
  all_calls (under (token_label j td ++ ".tracks."))
    (ranges_token (j, VDict td)).
Proof.
  unfold ranges_token, py_get. rewrite bind_lift_ok. fold (token_label j td).
  unfold check_if_present. walk_pass; under_leaf.
Qed.

Lemma Forall_calls_bind {A B : Type} (P : call -> Prop) (m : M A)
    (f : A -> M B) :
  Forall P (calls m) -> (forall a, outcome m = Ok a -> Forall P (calls (f a))) ->
  Forall P (calls (bind m f)).
Proof.
  intros Hm Hf. rewrite calls_bind. apply Forall_app. split; [exact Hm |].
  destruct (outcome m); [now apply Hf | constructor].
Qed.

Lemma Forall_calls_for_each {A : Type} (P : call -> Prop) (l : list A)
    (body : A -> M unit) :
  (forall x, In x l -> Forall P (calls (body x))) ->
  Forall P (calls (for_each l body)).
Proof.
  induction l as [| x l IH]; intro H; [constructor |].
  cbn [for_each]. apply Forall_calls_bind.
  - apply H. now left.
  - intros _ _. apply IH. intros y Hy. apply H. now right.
Qed.

Lemma all_calls_Forall {A : Type} (Q : call -> bool) (P : call -> Prop)
    (m : M A) :
  (forall c, Q c = true -> P c) -> all_calls Q m -> Forall P (calls m).
Proof.
  unfold all_calls. intros H Hm. rewrite forallb_forall in Hm.
  apply Forall_forall. auto.
Qed.

Lemma combine_seq_nth {A : Type} (l : list A) :
  forall (start j : nat) (x : A),
    In (j, x) (combine (seq start (List.length l)) l) ->
    start <= j /\ nth_error l (j - start) = Some x.
Proof.
  induction l as [| y l IH]; intros start j x; [intros [] |].
  cbn [List.length seq combine In]. intros [H | H].
  - injection H as <- <-. split; [lia |]. now rewrite Nat.sub_diag.
  - destruct (IH (S start) j x H) as [Hle Hn]. split; [lia |].
    replace (j - start) with (S (j - S start)) by lia. exact Hn.
Qed.

Lemma enumerate_nth (l : list value) (j : nat) (x : value) :
  In (j, x) (enumerate l) -> nth_error l j = Some x.
Proof.
  unfold enumerate. intro H. destruct (combine_seq_nth l 0 j x H) as [_ Hn].
  now rewrite Nat.sub_0_r in Hn.
Qed.

Lemma enumerate_texts (l : list string) (j : nat) (x : value) :
  In (j, x) (enumerate (map VStr l)) -> exists s, x = VStr s.
Proof.
  intro H. apply enumerate_nth, nth_error_In, in_map_iff in H.
  destruct H as (s & <- & _). now exists s.
Qed.

(** Walks the binds of a pass, keeping what each step returned. *)
Ltac walk_calls :=
  repeat first
    [ apply Forall_calls_bind; [| intros ? ?]
    | match goal with
      | |- Forall _ (calls (lift _)) =>
          apply (all_calls_Forall no_call); [discriminate | apply all_calls_lift]
      | |- Forall _ (calls (ret _)) => constructor
      | |- Forall _ (calls (if ?b then _ else _)) => destruct b
      end ].

Lemma ranges_segment_attributed (i : nat) (sd : dict) :
  Forall (segment_error_of i sd) (calls (ranges_segment (i, VDict sd))).
Proof.
  unfold ranges_segment, py_get. rewrite bind_lift_ok.
  fold (segment_label i sd). unfold check_if_present.
  assert (Hseg : forall (A : Type) (m : M A),
             all_calls (under (segment_label i sd ++ ".tracks.")) m ->
             Forall (segment_error_of i sd) (calls m)).
  { intros A m. apply all_calls_Forall. intros c Hc. now left. }
  walk_calls.
  all: try solve [apply Hseg; walk_pass; under_leaf].
  match goal with
  | Ht : outcome (lift (Ok (dict_get sd "tokens" (VList [])))) = Ok ?t,
    Hi : outcome (lift (py_iter ?t)) = Ok ?l |- _ =>
      cbn in Ht; injection Ht as <-; rename Hi into Hiter
  end.
  apply Forall_calls_for_each. intros [j tok] Hin.
  destruct tok as [| | | | | | td]; try constructor.
  destruct (dict_get sd "tokens" (VList [])) as [| | | | s | toks | d] eqn:E;
    try discriminate Hiter; cbn in Hiter; injection Hiter as <-.
  - apply enumerate_texts in Hin. destruct Hin as [x Hx]. discriminate Hx.
  - apply enumerate_nth in Hin.
    apply (all_calls_Forall (under (token_label j td ++ ".tracks.")));
      [| apply ranges_token_under].
    intros c Hc. right. exists j, td. split; [| exact Hc].
    unfold tokens_of. now rewrite E.
  - apply enumerate_texts in Hin. destruct Hin as [x Hx]. discriminate Hx.
Qed.

Lemma ranges_attributed (doc : dict) :
  Forall (range_error_of doc) (calls (_validate_ranges doc)).
Proof.
  unfold _validate_ranges, check_if_present.
  assert (Hdef : forall (A : Type) (m : M A),
             all_calls (under "defaults.style.") m ->
             Forall (range_error_of doc) (calls m)).
  { intros A m. apply all_calls_Forall. intros c Hc. now left. }
  walk_calls.
  all: try solve [apply Hdef; walk_pass; under_leaf].
  match goal with
  | Hi : outcome (lift (py_iter (dict_get doc "segments" (VList [])))) = Ok ?l
    |- _ => rename Hi into Hiter
  end.
  apply Forall_calls_for_each. intros [i seg] Hin.
  destruct seg as [| | | | | | sd]; try constructor.
  destruct (dict_get doc "segments" (VList [])) as [| | | | s | segs | d] eqn:E;
    try discriminate Hiter; cbn in Hiter; injection Hiter as <-.
  - apply enumerate_texts in Hin. destruct Hin as [x Hx]. discriminate Hx.
  - apply enumerate_nth in Hin.
    eapply Forall_impl; [| apply ranges_segment_attributed].
    intros c Hc. right. exists i, sd. split; [| exact Hc].
    unfold segments_of. now rewrite E.
  - apply enumerate_texts in Hin. destruct Hin as [x Hx]. discriminate Hx.
Qed.

(** X16. The range pass (lines 246-297), on every document.  Every call
    is an error, and its message begins either with [defaults.style.] or
    with the name of a segment of the document, or of a token of such a
    segment, followed by [.tracks.]: no error is put to the account of
    anything else.  The name of the segment at position [i] and of the
    token at position [j] of its segment is the [id] field as text when
    the entity has that key (so a null [id] gives the name [None]) and
    [segment[i]] or [token[j]] when it has not. *)
Theorem X16_range_errors_attributed (doc : dict) :
  Forall (fun c =>
            under "defaults.style." c = true \/
            exists (i : nat) (sd : dict),
              nth_error (segments_of doc) i = Some (VDict sd) /\
              (under (segment_label i sd ++ ".tracks.") c = true \/
               exists (j : nat) (td : dict),
                 nth_error (tokens_of (VDict sd)) j = Some (VDict td) /\
                 under (token_label j td ++ ".tracks.") c = true))
    (calls (_validate_ranges doc)) /\
  (forall (i : nat) (sd : dict),
     Forall (segment_error_of i sd) (calls (ranges_segment (i, VDict sd)))) /\
  (forall (j : nat) (td : dict),
     forallb (under (token_label j td ++ ".tracks."))
       (calls (ranges_token (j, VDict td))) = true) /\
  (forall (n : nat) (d : dict),
     (dict_lookup "id" d = None ->
      segment_label n d = ("segment[" ++ string_of_nat n ++ "]")%string /\
      token_label n d = ("token[" ++ string_of_nat n ++ "]")%string) /\
     (forall v : value,
        dict_lookup "id" d = Some v ->
        segment_label n d = py_str v /\ token_label n d = py_str v)).
Proof.
  split; [exact (ranges_attributed doc) |].
  split; [exact ranges_segment_attributed |].
  split; [exact ranges_token_under |].
  intros n d. unfold segment_label, token_label, dict_get.
  split; [now intros -> | intros v Hv; now rewrite Hv].
Qed.

End Validator.

(** * Concrete documents *)

(** The version "1" has major segment "1", yet the pass reports it as
    unsupported: there C1 fails as stated. *)
Lemma C1_bare_major_version_rejected :
  major_segment "1" = "1" /\
  version_errors
    (calls (_validate_required_fields repr_unused [("prosograph", VStr "1")])) =
  ["Unsupported version: 1 (expected 1.x)"].
Proof. split; reflexivity. Qed.


(** Without a duration the segment of [no_duration_doc] is not reported as
    too long; against a duration of 3 seconds it is, once. *)
Lemma C5_both_cases :
  ~ In (AddError "Segment s1: t1 (5) > duration (inf)")
       (calls (temporal_segment repr_unused (VFloat FInf) (VDict overrun_segment))) /\
  exists before after,
    calls (temporal_segment repr_unused (VInt 3) (VDict overrun_segment)) =
    before ++ AddError "Segment s1: t1 (5) > duration (3)" :: after /\
    ~ In (AddError "Segment s1: t1 (5) > duration (3)") before /\
    ~ In (AddError "Segment s1: t1 (5) > duration (3)") after.
Proof.
  split.
  - refine (proj2 (proj1 (C5_duration_bound repr_unused no_duration_doc) _)
              overrun_segment (VFloat FInf)).
    right. exists [("uri", VStr "a.wav")]. split; reflexivity.
  - refine (proj2 (proj2 (C5_duration_bound repr_unused short_audio_doc)
                     (VInt 3) overrun_segment (FFin 0) (FFin 5) (FFin 3)
                     _ eq_refl eq_refl eq_refl eq_refl)).
    exists [("uri", VStr "a.wav"); ("duration_s", VInt 3)]. split; reflexivity.
Defined.

(** The bounds 1 and -1 are accepted; 2 is reported.  Over a document:
    a clarity of 1 and a valence of -1 pass, an arousal of -1 and a tone
    confidence of 2 are reported under their segment and token. *)
Lemma C8_bounds_inclusive :
  check_unit repr_unused (VInt 1) "s1.tracks.delivery.clarity" = (Ok tt, []) /\
  check_unit repr_unused (VInt 2) "s1.tracks.delivery.clarity" =
    (Ok tt, [AddError "s1.tracks.delivery.clarity: value 2 not in [0,1]"]) /\
  check_signed_unit repr_unused (VInt (-1)) "s1.tracks.emotion.vad.valence" =
    (Ok tt, []) /\
  _validate_ranges repr_unused ranges_doc =
    (Ok tt,
     [AddError "s1.tracks.emotion.vad.arousal: value -1 not in [0,1]";
      AddError "w1.tracks.tone.confidence: value 2 not in [0,1]"]) /\
  In (AddError "w1.tracks.tone.confidence: value 2 not in [0,1]")
    (calls (_validate_ranges repr_unused ranges_doc)).
Proof.
  split; [| split; [| split; [| split]]].
  - exact (proj1 (proj1 (proj2 (C8_inclusive_ranges repr_unused
                                  "s1.tracks.delivery.clarity"))
                    (VInt 1) 1%Q eq_refl)
             (conj (Qle_bool_imp_le 0 1 eq_refl) (Qle_bool_imp_le 1 1 eq_refl))).
  - exact (proj1 (proj1 (C8_inclusive_ranges repr_unused
                           "s1.tracks.delivery.clarity")
                    (VInt 2) (FFin 2) eq_refl)).
  - exact (proj2 (proj1 (C8_inclusive_ranges repr_unused
                           "s1.tracks.emotion.vad.valence")
                    (VInt (-1)) (FFin (-1)) eq_refl)).
  - destruct (C8_inclusive_ranges repr_unused "")
      as (_ & _ & _ & _ & _ & Hpass & _).
    exact (Hpass ranges_doc eq_refl).
  - destruct (C8_inclusive_ranges repr_unused "")
      as (_ & _ & _ & _ & _ & _ & _ & _ & _ & Htok).
    exact (Htok ranges_doc 0 0 _ _ _ (FFin 2) eq_refl eq_refl eq_refl eq_refl
             eq_refl eq_refl).
Defined.

(** A segment in "zh" with no tone annotation and one word: two warnings,
    one for the segment and one for the token, and no error. *)
Lemma C7_untoned_segment_warned :
  error_msgs (calls (_validate_tonal_requirements repr_unused
                       [("segments", VList [VDict untoned_segment])])) = [] /\
  tonal_segment repr_unused (VStr "") (VDict untoned_segment) =
  (Ok tt,
   [AddWarning "Segment s1: tonal language (zh) but no tone.system declared";
    AddWarning "Token w1: tonal language but no tone.lexical"]).
Proof.
  split.
  - exact (proj1 (C7_tonal_warnings repr_unused
                    [("segments", VList [VDict untoned_segment])])).
  - exact (proj2 (proj2 (proj2 (C7_tonal_warnings repr_unused []))
                    (VStr "") untoned_segment)
             [VDict [("id", VStr "w1"); ("kind", VStr "word");
                     ("t0", VInt 0); ("t1", VInt 4)]]
             eq_refl eq_refl eq_refl eq_refl eq_refl).
Defined.

(** A tonal segment with a tone system next to a segment with an emotion
    track: PG-Tonal; without the former, PG-Expressive; without both,
    PG-Core; and declaring a profile changes nothing. *)
Lemma C2_two_tier_document :
  detected_profile repr_unused two_tier_doc =
    Some "PG-Tonal (includes PG-Expressive, PG-Core)" /\
  detected_profile repr_unused (with_segments [emotive_segment] two_tier_doc) =
    Some "PG-Expressive (includes PG-Core)" /\
  detected_profile repr_unused (with_segments [] two_tier_doc) = Some "PG-Core" /\
  detected_profile repr_unused
    (dict_set "meta" (VDict [("profile", VStr "PG-Core")]) two_tier_doc) =
    detected_profile repr_unused two_tier_doc.
Proof.
  destruct (C2_profile_detection repr_unused two_tier_doc) as (H & H4 & _).
  specialize (H [toned_segment; emotive_segment] eq_refl eq_refl eq_refl).
  cbv zeta in H. destruct H as (H1 & H2 & H3).
  split; [exact (H1 eq_refl eq_refl) |].
  split; [exact (H2 eq_refl) |].
  split; [exact H3 | exact (H4 _)].
Defined.

(** Two segments share the ID "" and no duplicate-segment error is
    reported, only two missing-ID errors: there C4 fails as stated. *)
Lemma C4_shared_empty_id_not_duplicate :
  map (fun seg => match seg with VDict sd => dict_lookup "id" sd | _ => None end)
      [empty_id_segment; empty_id_segment] =
    [Some (VStr ""); Some (VStr "")] /\
  _validate_id_uniqueness repr_unused two_empty_ids_doc =
    (Ok tt, [AddError "Segment missing required 'id' field";
             AddError "Segment missing required 'id' field"]) /\
  filter (starts_with "Duplicate segment ID: ")
    (error_msgs (calls (_validate_id_uniqueness repr_unused two_empty_ids_doc))) = [].
Proof. repeat split. Qed.

(** Three segments named "a": two duplicate-segment errors; two tokens
    named "w" in different segments: one duplicate-token error. *)
Lemma C4_repeated_ids_counted :
  count_error "Duplicate segment ID: a"
    (calls (_validate_id_uniqueness repr_unused repeated_ids_doc)) = 2 /\
  count_error "Duplicate token ID: w"
    (calls (_validate_id_uniqueness repr_unused repeated_ids_doc)) = 1 /\
  count_error "Duplicate segment ID: w"
    (calls (_validate_id_uniqueness repr_unused repeated_ids_doc)) = 0.
Proof.
  pose proof (C4_two_namespaces repr_unused repeated_ids_doc _ eq_refl eq_refl)
    as (_ & Hs & Ht).
  split; [exact (Hs "a") |]. split; [exact (Ht "w") | exact (Hs "w")].
Defined.

(** Two segments with the empty ID: two missing-ID errors, no duplicate. *)
Lemma C10_two_empty_ids :
  uniqueness_token repr_unused [] (VDict [("id", VStr "")]) =
    (Ok [], [AddError "Token missing required 'id' field"]) /\
  count_error "Segment missing required 'id' field"
    (calls (_validate_id_uniqueness repr_unused two_empty_ids_doc)) = 2 /\
  count_error "Duplicate segment ID: "
    (calls (_validate_id_uniqueness repr_unused two_empty_ids_doc)) = 0.
Proof.
  destruct (C10_empty_id_is_missing repr_unused) as (Htok & _ & Hdoc).
  destruct (Hdoc two_empty_ids_doc _ eq_refl eq_refl) as (Hn & _ & Hd & _).
  split; [exact (Htok [] [("id", VStr "")] eq_refl) |].
  split; [exact Hn | exact Hd].
Defined.

(** An emphasis span naming "w1" and "tok-99" where only "w1" exists: one
    error, naming "tok-99". *)
Lemma C6_one_dangling_reference :
  _validate_references repr_unused dangling_doc =
  (Ok tt, [AddError "Emphasis references non-existent token: tok-99"]).
Proof.
  exact (proj1 (C6_dangling_references repr_unused dangling_doc) _
           eq_refl eq_refl).
Defined.

(** ** End-to-end scenarios

    The whole of [validate], with no schema step, on the four scenarios the
    specification lists. *)

Example scenario1_clean :
  validation_result repr_unused (ret tt) scenario1_doc =
  Ok {| errors := []; warnings := []; info := []; profile := Some "PG-Core" |}.
Proof. reflexivity. Qed.

Example scenario2_token_overrun :
  validation_result repr_unused (ret tt) scenario2_doc =
  Ok {| errors := ["Token w1: t1 (6) > segment t1 (5)"]; warnings := [];
        info := []; profile := Some "PG-Core" |}.
Proof. reflexivity. Qed.

Example scenario3_untoned :
  validation_result repr_unused (ret tt) scenario3_doc =
  Ok {| errors := [];
        warnings :=
          ["Segment s1: tonal language (zh) but no tone.system declared";
           "Token w1: tonal language but no tone.lexical"];
        info := []; profile := Some "PG-Core" |}.
Proof. reflexivity. Qed.

Example scenario4_dangling :
  validation_result repr_unused (ret tt) scenario4_doc =
  Ok {| errors := ["Emphasis references non-existent token: tok-99"];
        warnings := []; info := [];
        profile := Some "PG-Expressive (includes PG-Core)" |}.
Proof. reflexivity. Qed.

(** A tree of the wrong shape makes a pass raise: a numeric version has no
    [startswith]. *)
Example numeric_version_raises :
  validation_result repr_unused (ret tt) [("prosograph", VInt 1)] =
  Raise AttributeError.
Proof. reflexivity. Qed.

(** ** Further properties at concrete documents *)

(** The clean scenario is within its ten seconds of audio: the temporal
    pass completes and is silent. *)
Lemma X4_scenario1_well_timed :
  outcome (_validate_temporal_constraints repr_unused scenario1_doc) = Ok tt /\
  calls (_validate_temporal_constraints repr_unused scenario1_doc) = [].
Proof.
  destruct (X4_temporal_silent repr_unused scenario1_doc _ (FFin 10)
              eq_refl eq_refl eq_refl) as [Ho Hc].
  split; [exact Ho | apply Hc; reflexivity].
Defined.

(** The dangling-reference scenario under an empty schema report: its one
    error is the reference pass's, and its profile the detector's. *)
Lemma X6_scenario4_composed :
  ["Emphasis references non-existent token: tok-99"] =
    error_msgs (calls (_validate_references repr_unused scenario4_doc)) /\
  Some "PG-Expressive (includes PG-Core)" =
    detected_profile repr_unused scenario4_doc.
Proof.
  pose proof (X6_validate_composition repr_unused (VDict [("type", VStr "object")])
                true (inl []) scenario4_doc
                {| errors := ["Emphasis references non-existent token: tok-99"];
                   warnings := []; info := [];
                   profile := Some "PG-Expressive (includes PG-Core)" |}
                eq_refl) as H.
  cbv zeta in H. destruct H as (He & _ & _ & Hp & _).
  split; [exact He | exact Hp].
Defined.

(** The untoned scenario without the [jsonschema] package: the two tonal
    warnings follow the one about the package. *)
Lemma X8_scenario3_without_jsonschema :
  validation_result repr_unused
    (schema_step repr_unused (VDict [("type", VStr "object")]) false (inl []))
    scenario3_doc =
  Ok {| errors := [];
        warnings :=
          ["jsonschema not installed - skipping schema validation";
           "Segment s1: tonal language (zh) but no tone.system declared";
           "Token w1: tonal language but no tone.lexical"];
        info := []; profile := Some "PG-Core" |}.
Proof.
  exact (X8_missing_jsonschema_keeps_verdict repr_unused
           (VDict [("type", VStr "object")]) (inl []) scenario3_doc _ eq_refl).
Defined.

(** Adding the toned segment to the emotive one raises the tier from
    Expressive to Tonal. *)
Lemma X10_toned_segment_raises_tier :
  tier_rank (detected_profile repr_unused
               (with_segments [emotive_segment] two_tier_doc)) <=
  tier_rank (detected_profile repr_unused
               (with_segments [toned_segment; emotive_segment] two_tier_doc)).
Proof.
  destruct (X10_tier_grows repr_unused two_tier_doc [emotive_segment]
              [toned_segment; emotive_segment] eq_refl eq_refl eq_refl)
    as (Hle & _ & _).
  apply Hle. intros x [<- | []]. right. left. reflexivity.
Defined.

(** Two errors: five printed lines, the second entry on the last. *)
Lemma X12_two_errors_listed :
  print_section "ERRORS" [] = [] /\
  List.length (print_section "ERRORS" ["no audio"; "no segments"]) = 5 /\
  nth_error (print_section "ERRORS" ["no audio"; "no segments"]) 0 =
    Some (String (ascii_of_nat 10)
            "============================================================") /\
  nth_error (print_section "ERRORS" ["no audio"; "no segments"]) 1 =
    Some "ERRORS (2)" /\
  nth_error (print_section "ERRORS" ["no audio"; "no segments"]) 2 =
    Some "============================================================" /\
  nth_error (print_section "ERRORS" ["no audio"; "no segments"]) 4 =
    Some "  2. no segments".
Proof.
  exact (X12_section_listing "ERRORS" ["no audio"; "no segments"] 1
           "no segments" eq_refl).
Defined.

(** The clean scenario names its segment and its token, once each. *)
Lemma X13_scenario1_ids_accepted :
  _validate_id_uniqueness repr_unused scenario1_doc = (Ok tt, []).
Proof.
  apply (proj2 (X13_ids_accepted repr_unused scenario1_doc _ eq_refl eq_refl)).
  split; [reflexivity |]. split; [reflexivity |].
  split; vm_compute; (apply NoDup_cons; [intros [] | apply NoDup_nil]).
Defined.

(** [token_ids] written as the text "t1" where the list ["t1"] was meant:
    the characters "t" and "1" are looked up, and "1" is reported.  The
    text "né" is three bytes and two characters: two look-ups, of which
    "é" is reported whole. *)
Lemma X15_text_walked_by_character :
  check_emphasis repr_unused [VStr "t"]
    (VDict [("span", VDict [("token_ids", VStr "t1")])]) =
  (Ok tt, [AddError "Emphasis references non-existent token: 1"]) /\
  String.length "né" = 3 /\
  check_emphasis repr_unused [VStr "n"]
    (VDict [("span", VDict [("token_ids", VStr "né")])]) =
  (Ok tt, [AddError "Emphasis references non-existent token: é"]).
Proof.
  split; [| split; [reflexivity |]].
  - exact (proj1 (proj1 (X15_token_ids_shapes repr_unused [VStr "t"]
                           [("span", VDict [("token_ids", VStr "t1")])]
                           [("token_ids", VStr "t1")] eq_refl) "t1" eq_refl)).
  - exact (proj1 (proj1 (X15_token_ids_shapes repr_unused [VStr "n"]
                           [("span", VDict [("token_ids", VStr "né")])]
                           [("token_ids", VStr "né")] eq_refl) "né" eq_refl)).
Defined.


(** A document without [audio]: one error, and no complaint about the
    fields under it. *)
Lemma X1_audio_absent :
  check_audio [("prosograph", VStr "1.0"); ("segments", VList [])] =
  (Ok tt, [AddError "Missing required field: audio"]).
Proof.
  exact (proj1 (X1_audio_report
                  [("prosograph", VStr "1.0"); ("segments", VList [])])
           eq_refl).
Defined.

(** A segment without [t0]: its unreadable [t1] is never compared. *)
Lemma X3_unreadable_t1_skipped :
  temporal_segment repr_unused (VInt 10)
    (VDict [("id", VStr "s1"); ("t1", VStr "late")]) =
  (Ok tt, [AddError "Segment s1: missing t0"]).
Proof.
  exact (proj1 (proj1 (X3_missing_bounds_skip repr_unused (VInt 10)
                         [("id", VStr "s1"); ("t1", VStr "late")])
                  eq_refl)).
Defined.

(** One error of the library, at the top of the document. *)
Lemma X7_error_at_root :
  schema_step repr_unused (VDict [("type", VStr "object")]) true
    (inl [mkSchemaError "'audio' is a required property" []]) =
  (Ok tt, [AddError "Schema: 'audio' is a required property (at root)"]).
Proof.
  destruct (X7_schema_step repr_unused (VDict [("type", VStr "object")])
              (inl [mkSchemaError "'audio' is a required property" []]))
    as (_ & _ & _ & H & _).
  exact (proj1 (H eq_refl) _ eq_refl).
Defined.

(** The two-tier document declaring itself PG-Core: the detector sets
    PG-Tonal, then notes the declaration. *)
Lemma X9_declared_profile_noted :
  _detect_profile repr_unused
    (dict_set "meta" (VDict [("profile", VStr "PG-Core")]) two_tier_doc) =
  (Ok tt,
   [SetProfile "PG-Tonal (includes PG-Expressive, PG-Core)";
    AddInfo "Declared profile: PG-Core"]).
Proof.
  exact (proj1 (X9_detector_calls repr_unused
                  (dict_set "meta" (VDict [("profile", VStr "PG-Core")])
                     two_tier_doc))
           true true eq_refl eq_refl).
Defined.

(** "ZH-Hant" has the prefix of "ZH", which is that of "zh". *)
Lemma X14_script_suffix_and_case :
  lang_prefix (VStr "ZH-Hant") = lang_prefix (VStr "ZH") /\
  lang_prefix (VStr "zh") = lang_prefix (VStr "ZH").
Proof.
  split.
  - exact (proj1 (X14_language_prefix "ZH" "Hant") eq_refl).
  - exact (proj1 (proj2 (X14_language_prefix "ZH" "Hant"))).
Defined.

(** The third segment of a document, without an [id], and the first token
    of a segment, whose [id] is null. *)
Lemma X16_anonymous_segment_named :
  segment_label repr_unused 2 [("tracks", VDict [("delivery", VDict [])])] =
    "segment[2]" /\
  token_label repr_unused 0 [("id", VNone)] = "None".
Proof.
  split.
  - exact (proj1 (proj1 (proj2 (proj2 (proj2
             (X16_range_errors_attributed repr_unused []))) 2
             [("tracks", VDict [("delivery", VDict [])])]) eq_refl)).
  - exact (proj2 (proj2 (proj2 (proj2 (proj2
             (X16_range_errors_attributed repr_unused []))) 0
             [("id", VNone)]) VNone eq_refl)).
Defined.
